(** * Request adapters of the Next.js server: a shallow embedding

    This development models the two request adapters found under
    [packages/next/src/server/request-adapter]:

    - [internal-request-adapter.ts]  ([InternalRequestAdapter.adapt], the
      class [InvokeError]);
    - [minimal-mode-request-adapter.ts]  ([MinimalRequestAdapter]: its
      constructor, [normalize], [attachRSCRequestMetadata] and [adapt]).

    Both adapters mutate a request and a parsed URL in place and may throw.
    They are embedded as computations in a state-and-exception monad whose
    state is the pair of mutable objects; a thrown exception keeps the state
    reached at the throw, because the mutations done so far stay visible to
    the caller.

    Code that the two files import (normalizers, the i18n provider, the route
    matcher, [getUtils], ...) and the ECMAScript / Node built-ins they call
    ([JSON.parse], [Number], [new URL], ...) are parameters of the model,
    gathered in records.  Collaborators are taken to be deterministic and to
    return normally; built-ins that ECMAScript lets throw return an [option].

    [adapt] of the minimal adapter is cut into stages that follow the
    source, each named after the lines it embeds; the stages that end the
    function ([adapt_resolve], [adapt_rewrites], [adapt_params],
    [adapt_interpolate]) are what is run from a given line to the end.  A
    statement about a stage holds for every state the stage is entered in.

    Layout: definitions first (the JavaScript data model, the request
    envelope, the two adapters, a small concrete deployment used to run the
    model), then the theorems. *)

From Stdlib Require Import ZArith List String Ascii.
From Stdlib Require Import Strings.Byte.
From Stdlib Require Import Floats.SpecFloat.
From stdpp Require Import base gmap strings list pretty.

Set Warnings "-register-all".
Local Open Scope string_scope.

(* ===================================================================== *)
(** * JavaScript values and ordinary objects                              *)
(* ===================================================================== *)

Module JS.

(** A JavaScript number is an IEEE-754 binary64 value. *)
Definition number : Type := spec_float.

(** The number denoting a (small) integer. *)
Definition number_of_Z (z : Z) : number := binary_normalize 53 1024 z 0 false.

(** The values that can be stored in a query mapping: what the query-string
    parser produces (strings, arrays of strings), [undefined], and whatever
    [JSON.parse] yields.  An object is the list of its own enumerable
    properties in creation order. *)
Inductive Value : Type :=
| Undefined
| Null
| Bool (b : bool)
| Num (n : number)
| Str (s : string)
| Arr (elems : list Value)
| Obj (props : list (string * Value)).

(** The dictionaries handled by the adapters ([parsedURL.query], route
    parameters) have no prototype of interest: reads and writes are
    own-property operations. *)
Definition Object : Type := list (string * Value).

(** The double quote, as a string. *)
Definition dq : string := String "034"%char EmptyString.

(** ToBoolean. *)
Definition truthy (v : Value) : bool :=
  match v with
  | Undefined | Null => false
  | Bool b => b
  | Num (S754_zero _) | Num S754_nan => false
  | Num _ => true
  | Str s => negb (String.eqb s "")
  | Arr _ | Obj _ => true
  end.

(** [o[k]]: [undefined] when [k] is not a property. *)
Fixpoint get (k : string) (o : Object) : Value :=
  match o with
  | [] => Undefined
  | (k', v) :: o' => if String.eqb k k' then v else get k o'
  end.

(** [k in o] for own properties. *)
Fixpoint has (k : string) (o : Object) : bool :=
  match o with
  | [] => false
  | (k', _) :: o' => String.eqb k k' || has k o'
  end.

(** [o[k] = v]: an existing property keeps its place, a new one is created
    last. *)
Fixpoint set (k : string) (v : Value) (o : Object) : Object :=
  match o with
  | [] => [(k, v)]
  | (k', v') :: o' =>
      if String.eqb k k' then (k, v) :: o' else (k', v') :: set k v o'
  end.

(** [delete o[k]]. *)
Fixpoint delete (k : string) (o : Object) : Object :=
  match o with
  | [] => []
  | (k', v') :: o' =>
      if String.eqb k k' then delete k o' else (k', v') :: delete k o'
  end.

(** Array indices: canonical decimal numerals below 2^32 - 1. *)
Definition digit_of (c : ascii) : option N :=
  let n := N_of_ascii c in
  if ((48 <=? n) && (n <=? 57))%N then Some (n - 48)%N else None.

Fixpoint digits_value (acc : N) (s : string) : option N :=
  match s with
  | EmptyString => Some acc
  | String c s' =>
      match digit_of c with
      | Some d => digits_value (acc * 10 + d)%N s'
      | None => None
      end
  end.

Definition array_index (s : string) : option N :=
  match s with
  | EmptyString => None
  | String c rest =>
      if Ascii.eqb c "0"%char && negb (String.eqb rest "") then None
      else match digits_value 0 s with
           | Some n => if (n <? 4294967295)%N then Some n else None
           | None => None
           end
  end.

Fixpoint insert_by_index (x : N * string) (l : list (N * string)) : list (N * string) :=
  match l with
  | [] => [x]
  | y :: l' => if (fst x <=? fst y)%N then x :: l else y :: insert_by_index x l'
  end.

Definition index_keys (o : Object) : list (N * string) :=
  flat_map (fun kv => match array_index (fst kv) with
                      | Some n => [(n, fst kv)]
                      | None => []
                      end) o.

(** [Object.keys(o)]: array indices in ascending order, then the other keys
    in creation order. *)
Definition keys (o : Object) : list string :=
  map snd (fold_right insert_by_index [] (index_keys o))
  ++ List.filter (fun k => match array_index k with Some _ => false | None => true end)
                 (map fst o).

Fixpoint indexed {A : Type} (i : N) (l : list A) : list (string * A) :=
  match l with
  | [] => []
  | x :: l' => (pretty i, x) :: indexed (N.succ i) l'
  end.

Fixpoint chars (s : string) : list Value :=
  match s with
  | EmptyString => []
  | String c s' => Str (String c EmptyString) :: chars s'
  end.

(** The own enumerable string-keyed properties of a value taken as an
    object, in [Object.keys] order ([null], [undefined], numbers and
    booleans have none). *)
Definition own_props (v : Value) : Object :=
  match v with
  | Obj o => map (fun k => (k, get k o)) (keys o)
  | Arr l => indexed 0 l
  | Str s => indexed 0 (chars s)
  | _ => []
  end.

(** [Object.assign(target, source)]. *)
Definition assign (target : Object) (source : Value) : Object :=
  fold_left (fun t kv => set (fst kv) (snd kv) t) (own_props source) target.

End JS.

(* ===================================================================== *)
(** * Exceptions                                                          *)
(* ===================================================================== *)

Module Errors.

(** [Error]: only the message is modelled. *)
Record Error : Type := { message : string }.

(** [class InvokeError] of internal-request-adapter.ts. *)
Record InvokeError : Type := {
  statusCode : JS.number;
  cause : option Error;          (* [None] is [null] *)
  query : JS.Object
}.

(** What an adapter can throw. *)
Inductive Exception : Type :=
| ThrowError (e : Error)
| ThrowInvokeError (e : InvokeError)
| ThrowSyntaxError                 (* [JSON.parse] *)
| ThrowURIError                    (* [decodeURIComponent] *)
| ThrowTypeError.                  (* [new URL] *)

End Errors.

(* ===================================================================== *)
(** * ECMAScript and Node built-ins                                       *)
(* ===================================================================== *)

Module Platform.

Record Builtins : Type := {
  (** [Number(s)] *)
  Number : string -> JS.number;
  (** [JSON.parse(s)]; [None] when it throws a SyntaxError *)
  JSON_parse : string -> option JS.Value;
  (** [decodeURIComponent(s)]; [None] when it throws a URIError *)
  decodeURIComponent : string -> option string;
  (** ToString on a value that is neither a string nor [undefined] *)
  ToString : JS.Value -> string;
  (** [new URL(s, 'http://localhost').pathname]; [None] when the constructor
      throws a TypeError *)
  URL_pathname : string -> option string;
  (** [buffer.toString('utf8')] *)
  Buffer_toString_utf8 : list byte -> string
}.

End Platform.

(* ===================================================================== *)
(** * The request envelope and the adapter monad                          *)
(* ===================================================================== *)

Module Http.

(** A header value is a string or an array of strings; an absent header
    (or one holding [undefined]) has no entry. *)
Inductive HeaderValue : Type :=
| HString (s : string)
| HArray (l : list string).

Inductive MetaValue : Type :=
| MBool (b : bool)
| MString (s : string)
| MNull.

(** [BaseNextRequest] with the request metadata attached to it. *)
Record BaseNextRequest : Type := {
  method : string;
  url : string;
  headers : gmap string HeaderValue;
  body : list (list byte);         (* the chunks still to be read *)
  meta : gmap string MetaValue
}.

(** [NextUrlWithParsedQuery]; [pathname] is [string | null]. *)
Record NextUrlWithParsedQuery : Type := {
  pathname : option string;
  query : JS.Object
}.

(** The two objects an adapter mutates. *)
Record Envelope : Type := {
  req : BaseNextRequest;
  parsedURL : NextUrlWithParsedQuery
}.

Definition set_url (u : string) (r : BaseNextRequest) : BaseNextRequest :=
  {| method := method r; url := u; headers := headers r; body := body r; meta := meta r |}.
Definition set_headers (h : gmap string HeaderValue) (r : BaseNextRequest) : BaseNextRequest :=
  {| method := method r; url := url r; headers := h; body := body r; meta := meta r |}.
Definition set_body (b : list (list byte)) (r : BaseNextRequest) : BaseNextRequest :=
  {| method := method r; url := url r; headers := headers r; body := b; meta := meta r |}.
Definition set_meta (m : gmap string MetaValue) (r : BaseNextRequest) : BaseNextRequest :=
  {| method := method r; url := url r; headers := headers r; body := body r; meta := m |}.
Definition set_pathname (p : option string) (u : NextUrlWithParsedQuery) : NextUrlWithParsedQuery :=
  {| pathname := p; query := query u |}.
Definition set_query (q : JS.Object) (u : NextUrlWithParsedQuery) : NextUrlWithParsedQuery :=
  {| pathname := pathname u; query := q |}.
Definition with_req (f : BaseNextRequest -> BaseNextRequest) (e : Envelope) : Envelope :=
  {| req := f (req e); parsedURL := parsedURL e |}.
Definition with_parsedURL (f : NextUrlWithParsedQuery -> NextUrlWithParsedQuery)
           (e : Envelope) : Envelope :=
  {| req := req e; parsedURL := f (parsedURL e) |}.

(** Truthiness of [req.headers[name]]. *)
Definition header_truthy (h : option HeaderValue) : bool :=
  match h with
  | None => false
  | Some (HString s) => negb (String.eqb s "")
  | Some (HArray _) => true
  end.

(** Truthiness of a [string | null | undefined]. *)
Definition str_truthy (s : option string) : bool :=
  match s with
  | Some s => negb (String.eqb s "")
  | None => false
  end.

(** [a !== b] on [string | null]. *)
Definition str_neq (a b : option string) : bool :=
  match a, b with
  | Some x, Some y => negb (String.eqb x y)
  | None, None => false
  | _, _ => true
  end.

(** Modelled from the spec: [addRequestMeta] of [../request-meta] is not
    among the sources; the metadata side-channel is a mapping attached to
    the request, and adding an entry sets its key. *)
Definition addRequestMeta (key : string) (value : MetaValue)
           (r : BaseNextRequest) : BaseNextRequest :=
  set_meta (<[key := value]> (meta r)) r.

Definition meta_of_pathname (p : option string) : MetaValue :=
  match p with
  | Some s => MString s
  | None => MNull
  end.

End Http.

(** A computation over a mutable state [S]: it returns a value or throws,
    and in both cases leaves a state behind. *)
Module Eff.
Import Errors.

Inductive Result (S A : Type) : Type :=
| Returned (a : A) (s : S)
| Threw (e : Exception) (s : S).
Arguments Returned {S A} a s.
Arguments Threw {S A} e s.

Definition M (S A : Type) : Type := S -> Result S A.

Definition ret {S A} (a : A) : M S A := fun s => Returned a s.
Definition throw {S A} (e : Exception) : M S A := fun s => Threw e s.
Definition bind {S A B} (m : M S A) (k : A -> M S B) : M S B :=
  fun s => match m s with
           | Returned a s' => k a s'
           | Threw e s' => Threw e s'
           end.

Definition gets {S A} (f : S -> A) : M S A := fun s => Returned (f s) s.
Definition modify {S} (f : S -> S) : M S unit := fun s => Returned tt (f s).

(** A built-in that throws [e] where the model returns [None]. *)
Definition or_throw {S A} (e : Exception) (o : option A) : M S A :=
  match o with
  | Some a => ret a
  | None => throw e
  end.

(** [if (c) { m }] *)
Definition when {S} (c : bool) (m : M S unit) : M S unit :=
  if c then m else ret tt.

(** [for (const x of l) { body x }] *)
Fixpoint for_of {S A} (l : list A) (body : A -> M S unit) : M S unit :=
  match l with
  | [] => ret tt
  | x :: l' => bind (body x) (fun _ => for_of l' body)
  end.

(** [returns m s Q]: run from [s], [m] returns normally, with a value and a
    state that satisfy [Q]. *)
Definition returns {S A} (m : M S A) (s : S) (Q : A -> S -> Prop) : Prop :=
  match m s with
  | Returned a s' => Q a s'
  | Threw _ _ => False
  end.

(** [preserves R m]: [m] always returns normally, in a state related by [R]
    to the one it started from. *)
Definition preserves {S A} (R : S -> S -> Prop) (m : M S A) : Prop :=
  forall s, returns m s (fun _ s' => R s s').

(** The state left behind. *)
Definition final_state {S A} (r : Result S A) : S :=
  match r with
  | Returned _ s => s
  | Threw _ s => s
  end.

End Eff.

Declare Scope eff_scope.
Delimit Scope eff_scope with eff.
Notation "x <- m ;; k" := (Eff.bind m (fun x => k))
  (at level 100, m at next level, right associativity) : eff_scope.
Notation "m ;; k" := (Eff.bind m (fun _ => k))
  (at level 100, right associativity) : eff_scope.

(* ===================================================================== *)
(** * internal-request-adapter.ts                                         *)
(* ===================================================================== *)

Module Internal.
Import Errors Http Eff Platform.

Section Adapter.
Variable B : Builtins.

(** [super.adapt], the adapter of [./base-request-adapter], which is not
    among the sources. *)
Variable super_adapt : M Envelope unit.

Definition header (name : string) : M Envelope (option HeaderValue) :=
  gets (fun e => headers (req e) !! name).

Definition modify_query (f : JS.Object -> JS.Object) : M Envelope unit :=
  modify (with_parsedURL (fun u => set_query (f (query u)) u)).

(** The internal keys kept by the stripping loop. *)
Definition is_internal_key (key : string) : bool :=
  String.prefix "__next" key || String.prefix "_next" key.

(** The query without its non-internal keys: what the stripping loop
    leaves. *)
Definition stripped (q : JS.Object) : JS.Object :=
  List.filter (fun kv => is_internal_key (fst kv)) q.

(** [for (const key of Object.keys(parsedURL.query)) ...] *)
Definition strip_query : M Envelope unit :=
  (keys <- gets (fun e => JS.keys (query (parsedURL e))) ;;
   for_of keys (fun key =>
     when (negb (String.prefix "__next" key) && negb (String.prefix "_next" key))
          (modify_query (JS.delete key))))%eff.

(** [new Error(message)] *)
Definition new_Error (message : JS.Value) : Error :=
  {| message := match message with
                | JS.Undefined => ""
                | JS.Str s => s
                | v => ToString B v
                end |}.

(** The [try { const { message } = JSON.parse(h); cause = new Error(message) }
    catch { cause = new Error() }] block.  Destructuring [null] throws a
    TypeError, which the [catch] swallows as well. *)
Definition parse_cause (h : string) : Error :=
  match JSON_parse B h with
  | None => new_Error JS.Undefined
  | Some JS.Null => new_Error JS.Undefined
  | Some (JS.Obj o) => new_Error (JS.get "message" o)
  | Some _ => new_Error JS.Undefined
  end.

(** The value merged into the query: what the [x-invoke-query] header
    decodes and parses to when it is a string, and nothing ([undefined])
    otherwise. *)
Definition invoke_query_is (h : gmap string HeaderValue) (merged : JS.Value) : Prop :=
  match h !! "x-invoke-query" with
  | Some (HString invokeQuery) =>
      exists decoded, decodeURIComponent B invokeQuery = Some decoded
                      /\ JSON_parse B decoded = Some merged
  | _ => merged = JS.Undefined
  end.

(** The header value [{"message":"boom"}]. *)
Definition boom_json : string :=
  "{" ++ JS.dq ++ "message" ++ JS.dq ++ ":" ++ JS.dq ++ "boom" ++ JS.dq ++ "}".

Definition adapt : M Envelope unit :=
  (invokePath <- header "x-invoke-path" ;;
   match invokePath with
   | Some (HString invokePath) =>
     if String.eqb invokePath "" then ret tt else
     strip_query ;;
     invokeQuery <- header "x-invoke-query" ;;
     match invokeQuery with
     | Some (HString invokeQuery) =>
         decoded <- or_throw ThrowURIError (decodeURIComponent B invokeQuery) ;;
         parsed <- or_throw ThrowSyntaxError (JSON_parse B decoded) ;;
         modify_query (fun q => JS.assign q parsed)
     | _ => ret tt
     end ;;
     status <- header "x-invoke-status" ;;
     match status with
     | Some (HString status) =>
         let statusCode := Number B status in
         error <- header "x-invoke-error" ;;
         let cause := match error with
                      | Some (HString error) => Some (parse_cause error)
                      | _ => None
                      end in
         q <- gets (fun e => query (parsedURL e)) ;;
         throw (ThrowInvokeError
                  {| statusCode := statusCode; cause := cause; Errors.query := q |})
     | _ =>
         originalPathname <- gets (fun e => pathname (parsedURL e)) ;;
         when (str_neq originalPathname (Some invokePath))
              (modify (with_parsedURL (set_pathname (Some invokePath)))) ;;
         super_adapt ;;
         p <- gets (fun e => pathname (parsedURL e)) ;;
         when (str_neq originalPathname p)
              (modify (with_req (addRequestMeta "rewroteURL" (meta_of_pathname p))))
     end
   | _ => ret tt
   end)%eff.

End Adapter.
End Internal.

(* ===================================================================== *)
(** * The collaborators of minimal-mode-request-adapter.ts                *)
(* ===================================================================== *)

(** The interfaces of the imported code, as the adapter uses them. *)
Module Collab.
Import Http.

(** [PathnameNormalizer]: [match(pathname)] and
    [normalize(pathname, matched?)]; the second argument is [None] where
    the call site omits it. *)
Record PathnameNormalizer : Type := {
  match_ : string -> bool;
  normalize : string -> option bool -> string
}.

(** [LocaleAnalysisResult] *)
Record LocaleAnalysisResult : Type := {
  detectedLocale : option string;
  pathname : string;
  inferredFromDefault : bool
}.

(** [I18NProvider]: [analyze(pathname, options?)], where the options are
    [None] when omitted and [Some d] for [{ defaultLocale: d }];
    [detectDomainLocale(hostname)] yields the domain's [defaultLocale]
    when a domain matches; [config.defaultLocale]. *)
Record I18NProvider : Type := {
  analyze : string -> option (option string) -> LocaleAnalysisResult;
  detectDomainLocale : option string -> option string;
  config_defaultLocale : string
}.

(** A route match: [definition.pathname] and the optional [params]. *)
Record RouteMatch : Type := {
  definition_pathname : string;
  params : option JS.Object
}.

(** [RouteMatcherManager.match(pathname, { i18n })] *)
Record RouteMatcherManager : Type := {
  matchers_match : string -> option LocaleAnalysisResult -> option RouteMatch
}.

Record ParamsResult : Type := {
  result_params : JS.Object;
  hasValidParams : bool
}.

(** What [getUtils] returns.  Each function is taken with the effect its
    call site relies on: [handleRewrites] mutates the parsed URL and
    returns the rewrite parameters; [normalizeDynamicRouteParams] mutates
    its argument, from which it deletes keys (the optional parameters left
    without a value), given here as the second component: line 378 calls it
    for that effect alone; the parameters of its result are a new object
    (as they are for a dynamic page, the only kind for which lines 361-431
    run), so that line 379 does not write into the query;
    [getParamsFromRouteMatches] returns the route parameters and fills in
    its [opts] argument, given here as the second component;
    [normalizeVercelUrl] rewrites [req.url], given here as its new value;
    [dynamicRouteMatcher] is optional and yields [None] for [false];
    [defaultRouteRegex_groups] is [Object.keys(defaultRouteRegex.groups)]
    when both are defined.

    Every function is taken to return.  The real ones can throw (the
    rewrite engine throws a TypeError on a rule whose destination it cannot
    parse): such runs are outside the model, and what is proved of the
    lines that call these functions is proved of the runs in which they
    return. *)
Record Utils : Type := {
  handleRewrites : BaseNextRequest -> NextUrlWithParsedQuery ->
                   NextUrlWithParsedQuery * JS.Object;
  normalizeDynamicRouteParams : JS.Object -> option bool -> ParamsResult * list string;
  dynamicRouteMatcher : option (string -> option JS.Object);
  getParamsFromRouteMatches : BaseNextRequest -> JS.Value -> JS.Object * JS.Object;
  interpolateDynamicPath : string -> JS.Object -> string;
  normalizeVercelUrl : BaseNextRequest -> bool -> list string -> string;
  defaultRouteMatches : option JS.Object;
  defaultRouteRegex_groups : option (list string)
}.

(** The argument of [getUtils]. *)
Record GetUtilsArgs : Type := {
  arg_pageIsDynamic : bool;
  arg_page : string;
  arg_i18n : JS.Value;
  arg_basePath : string;
  arg_rewrites : JS.Value;
  arg_caseSensitive : bool
}.

(** The functions, classes and constants imported by the adapter.
    [normalizeNextQueryParam key] lists the normalized keys its callback is
    called with, in order; [url_with_pathname url p] is
    [formatUrl({ ...parseUrl(url), pathname: p })]; the two header names are
    given in lower case. *)
Record Imports : Type := {
  new_ActionPathnameNormalizer : PathnameNormalizer;
  new_NextDataPathnameNormalizer : string -> PathnameNormalizer;
  new_PostponedPathnameNormalizer : PathnameNormalizer;
  new_PrefetchRSCPathnameNormalizer : PathnameNormalizer;
  new_RSCPathnameNormalizer : PathnameNormalizer;
  new_I18nPathnameNormalizer : I18NProvider -> PathnameNormalizer;
  new_BasePathPathnameNormalizer : string -> PathnameNormalizer;
  checkIsAppPPREnabled : JS.Value -> bool;
  denormalizePagePath : string -> string;
  isDynamicRoute : string -> bool;
  getUtils : GetUtilsArgs -> Utils;
  normalizeNextQueryParam : string -> list string;
  getHostname : NextUrlWithParsedQuery -> gmap string HeaderValue -> option string;
  url_with_pathname : string -> option string -> string;
  stripFlightHeaders : gmap string HeaderValue -> gmap string HeaderValue;
  RSC_HEADER_lower : string;
  NEXT_ROUTER_PREFETCH_HEADER_lower : string
}.

(** The configuration the adapter is constructed from. *)
Record NextEnabledDirectories : Type := { app : bool; pages : bool }.

Record NextConfigComplete : Type := {
  basePath : string;
  i18n : JS.Value;
  experimental_ppr : JS.Value;
  experimental_caseSensitiveRoutes : JS.Value
}.

(** [NormalizedRouteManifest]: only [rewrites] is read. *)
Record NormalizedRouteManifest : Type := { rewrites : JS.Value }.

End Collab.

(* ===================================================================== *)
(** * minimal-mode-request-adapter.ts                                     *)
(* ===================================================================== *)

Module Minimal.
Import Errors Http Eff Platform.

(** [this.normalizers] *)
Record Normalizers : Type := {
  basePath : option Collab.PathnameNormalizer;
  action : option Collab.PathnameNormalizer;
  postponed : option Collab.PathnameNormalizer;
  rsc : option Collab.PathnameNormalizer;
  prefetchRSC : option Collab.PathnameNormalizer;
  data : option Collab.PathnameNormalizer;
  i18n : option Collab.PathnameNormalizer
}.

(** An instance of [MinimalRequestAdapter]. *)
Record MinimalRequestAdapter : Type := {
  buildID : string;
  enabledDirectories : Collab.NextEnabledDirectories;
  i18nProvider : option Collab.I18NProvider;
  matchers : Collab.RouteMatcherManager;
  nextConfig : Collab.NextConfigComplete;
  getRoutesManifest : option Collab.NormalizedRouteManifest;
  normalizers : Normalizers
}.

(** One query of the route matcher: the pathname and the [i18n] option. *)
Definition Lookup : Type := (string * option Collab.LocaleAnalysisResult)%type.

(** The state [adapt] runs in: the request and the parsed URL, and the
    queries made to the route matcher so far (oldest first). *)
Record State : Type := {
  env : Envelope;
  lookups : list Lookup
}.

Definition with_env (f : Envelope -> Envelope) (s : State) : State :=
  {| env := f (env s); lookups := lookups s |}.

Definition the_req (s : State) : BaseNextRequest := req (env s).
Definition the_url (s : State) : NextUrlWithParsedQuery := parsedURL (env s).

Definition modify_req (f : BaseNextRequest -> BaseNextRequest) : M State unit :=
  modify (with_env (with_req f)).
Definition modify_parsedURL (f : NextUrlWithParsedQuery -> NextUrlWithParsedQuery)
  : M State unit :=
  modify (with_env (with_parsedURL f)).
Definition modify_query (f : JS.Object -> JS.Object) : M State unit :=
  modify_parsedURL (fun u => set_query (f (query u)) u).
Definition header (name : string) : M State (option HeaderValue) :=
  gets (fun s => headers (the_req s) !! name).
Definition set_header (name value : string) : M State unit :=
  modify_req (fun r => set_headers (<[name := HString value]> (headers r)) r).

(** [n?.match(p)]: the normalizer when it is configured and matches. *)
Definition matching (n : option Collab.PathnameNormalizer) (p : string)
  : option Collab.PathnameNormalizer :=
  match n with
  | Some n => if Collab.match_ n p then Some n else None
  | None => None
  end.

(** [req.url.match(/^\/index($|\?)/)] *)
Definition is_index_url (u : string) : bool :=
  String.eqb u "/index" || String.prefix "/index?" u.

Fixpoint drop_chars (n : nat) (s : string) : string :=
  match n, s with
  | O, _ => s
  | S n', String _ s' => drop_chars n' s'
  | S _, EmptyString => EmptyString
  end.

(** [u.replace(/^\/index/, '/')] for a [u] that starts with [/index]. *)
Definition replace_index (u : string) : string := "/" ++ drop_chars 6 u.

(** The string a header value converts to when given to [new URL]. *)
Definition header_text (h : option HeaderValue) : string :=
  match h with
  | None => "undefined"
  | Some (HString s) => s
  | Some (HArray l) => String.concat "," l
  end.

(** The string a [string | null] interpolates to in a template literal. *)
Definition template_text (p : option string) : string :=
  match p with
  | Some s => s
  | None => "null"
  end.

(** [set.add(k)] on a [Set<string>], kept in insertion order. *)
Definition set_add (k : string) (l : list string) : list string :=
  if existsb (String.eqb k) l then l else l ++ [k].

(** [for (const key of keys) delete q[key]] *)
Definition delete_keys (keys : list string) (q : JS.Object) : JS.Object :=
  fold_left (fun q key => JS.delete key q) keys q.

(** Two states with the same record of route-matcher queries. *)
Definition same_lookups (s s' : State) : Prop := lookups s' = lookups s.

(** Two states that differ at most in [req.url] and in the parsed URL. *)
Definition same_request (s s' : State) : Prop :=
  lookups s' = lookups s
  /\ method (the_req s') = method (the_req s)
  /\ headers (the_req s') = headers (the_req s)
  /\ body (the_req s') = body (the_req s)
  /\ meta (the_req s') = meta (the_req s).



(** The two query keys that describe the locale. *)
Definition locale_key (k : string) : Prop :=
  k = "__nextLocale" \/ k = "__nextInferredLocaleFromDefault".

(** Two states with the same metadata entry for a key. *)
Definition same_meta_at (key : string) (s s' : State) : Prop :=
  meta (the_req s') !! key = meta (the_req s) !! key.

Section Adapter.
Variable B : Builtins.
Variable I : Collab.Imports.

(** The constructor, lines 48-86. *)
Definition new_MinimalRequestAdapter
           (buildID : string)
           (enabledDirectories : Collab.NextEnabledDirectories)
           (i18nProvider : option Collab.I18NProvider)
           (matchers : Collab.RouteMatcherManager)
           (nextConfig : Collab.NextConfigComplete)
           (getRoutesManifest : option Collab.NormalizedRouteManifest)
  : MinimalRequestAdapter :=
  let isAppPPREnabled :=
    Collab.checkIsAppPPREnabled I (Collab.experimental_ppr nextConfig) in
  let app := Collab.app enabledDirectories in
  {| buildID := buildID;
     enabledDirectories := enabledDirectories;
     i18nProvider := i18nProvider;
     matchers := matchers;
     nextConfig := nextConfig;
     getRoutesManifest := getRoutesManifest;
     normalizers :=
       {| basePath :=
            if negb (String.eqb (Collab.basePath nextConfig) "")
            then Some (Collab.new_BasePathPathnameNormalizer I (Collab.basePath nextConfig))
            else None;
          postponed :=
            if app && isAppPPREnabled
            then Some (Collab.new_PostponedPathnameNormalizer I) else None;
          prefetchRSC :=
            if app && isAppPPREnabled
            then Some (Collab.new_PrefetchRSCPathnameNormalizer I) else None;
          action :=
            if app then Some (Collab.new_ActionPathnameNormalizer I) else None;
          rsc :=
            if app && negb isAppPPREnabled
            then Some (Collab.new_RSCPathnameNormalizer I) else None;
          data :=
            if Collab.pages enabledDirectories
            then Some (Collab.new_NextDataPathnameNormalizer I buildID) else None;
          i18n :=
            match i18nProvider with
            | Some p => Some (Collab.new_I18nPathnameNormalizer I p)
            | None => None
            end |} |}.

Variable this : MinimalRequestAdapter.

(** The array built by [normalize], lines 96-118. *)
Definition normalize_order : list Collab.PathnameNormalizer :=
  let push (n : option Collab.PathnameNormalizer) := match n with Some n => [n] | None => [] end in
  push (data (normalizers this))
  ++ push (postponed (normalizers this))
  ++ push (prefetchRSC (normalizers this))
  ++ push (rsc (normalizers this))
  ++ push (action (normalizers this)).

(** The loop of [normalize], lines 120-126. *)
Fixpoint normalize_with (ns : list Collab.PathnameNormalizer) (pathname : string) : string :=
  match ns with
  | [] => pathname
  | normalizer :: ns' =>
      if negb (Collab.match_ normalizer pathname) then normalize_with ns' pathname
      else Collab.normalize normalizer pathname (Some true)
  end.

(** [normalize], lines 95-127. *)
Definition normalize (pathname : string) : string :=
  normalize_with normalize_order pathname.

(** The shapes of the specification, in their order of precedence. *)
Inductive Shape : Type := Data | Postponed | PrefetchFragment | Fragment | Action.

Definition rank (shape : Shape) : nat :=
  match shape with
  | Data => 0
  | Postponed => 1
  | PrefetchFragment => 2
  | Fragment => 3
  | Action => 4
  end.

(** The normalizer that recognises a shape, when it is configured. *)
Definition normalizer_of (shape : Shape) : option Collab.PathnameNormalizer :=
  match shape with
  | Data => data (normalizers this)
  | Postponed => postponed (normalizers this)
  | PrefetchFragment => prefetchRSC (normalizers this)
  | Fragment => rsc (normalizers this)
  | Action => action (normalizers this)
  end.

(** A pathname has a shape when the shape's normalizer is configured and
    matches it. *)
Definition has_shape (shape : Shape) (pathname : string) : bool :=
  match matching (normalizer_of shape) pathname with
  | Some _ => true
  | None => false
  end.

(** The [resolveShape] of the specification: the first shape, in the order
    of precedence, that the pathname has, and the pathname normalized for
    it. *)
Definition resolveShape (pathname : string) : option Shape * string :=
  match List.find (fun shape => has_shape shape pathname)
                  [Data; Postponed; PrefetchFragment; Fragment; Action] with
  | Some shape =>
      (Some shape,
       match normalizer_of shape with
       | Some n => Collab.normalize n pathname (Some true)
       | None => pathname
       end)
  | None => (None, pathname)
  end.

Definition invariant (msg : string) : Exception := ThrowError {| message := msg |}.

(** The end of [attachRSCRequestMetadata], lines 169-177. *)
Definition mark_data_request : M State unit :=
  (modify_query (JS.set "__nextDataReq" (JS.Str "1")) ;;
   u <- gets (fun s => url (the_req s)) ;;
   when (negb (String.eqb u ""))
        (p <- gets (fun s => pathname (the_url s)) ;;
         modify_req (set_url (Collab.url_with_pathname I u p))))%eff.

(** [attachRSCRequestMetadata], lines 129-178. *)
Definition attachRSCRequestMetadata : M State unit :=
  (p <- gets (fun s => pathname (the_url s)) ;;
   match p with
   | None => throw (invariant "Invariant: pathname is required")
   | Some p =>
     if String.eqb p "" then throw (invariant "Invariant: pathname is required") else
     if negb (Collab.app (enabledDirectories this)) then ret tt else
     match matching (prefetchRSC (normalizers this)) p with
     | Some n =>
         modify_parsedURL (set_pathname (Some (Collab.normalize n p (Some true)))) ;;
         set_header (Collab.RSC_HEADER_lower I) "1" ;;
         set_header (Collab.NEXT_ROUTER_PREFETCH_HEADER_lower I) "1" ;;
         modify_req (addRequestMeta "isRSCRequest" (MBool true)) ;;
         modify_req (addRequestMeta "isPrefetchRSCRequest" (MBool true)) ;;
         mark_data_request
     | None =>
       match matching (rsc (normalizers this)) p with
       | Some n =>
           modify_parsedURL (set_pathname (Some (Collab.normalize n p (Some true)))) ;;
           set_header (Collab.RSC_HEADER_lower I) "1" ;;
           modify_req (addRequestMeta "isRSCRequest" (MBool true)) ;;
           mark_data_request
       | None =>
           modify_req (fun r => set_headers (Collab.stripFlightHeaders I (headers r)) r)
       end
     end
   end)%eff.

(** Lines 184-195: the two invariants. *)
Definition check_invariants : M State unit :=
  (h <- header "x-matched-path" ;;
   let missing := invariant
     "Invariant: x-matched-path header is not present but we are in minimal mode" in
   match h with
   | Some (HString s) =>
       if String.eqb s "" then throw missing else
       p <- gets (fun s => pathname (the_url s)) ;;
       if negb (str_truthy p) then throw (invariant "Invariant: pathname must be set")
       else ret tt
   | _ => throw missing
   end)%eff.

(** Lines 197-199. *)
Definition strip_base_path : M State unit :=
  match basePath (normalizers this) with
  | Some n => modify_req (fun r => set_url (Collab.normalize n (url r) None) r)
  | None => ret tt
  end.

(** Line 201: [this.i18nProvider?.analyze(parsedURL.pathname)]; the
    pathname is a string here, line 193 threw otherwise. *)
Definition analyze_pathname : M State (option Collab.LocaleAnalysisResult) :=
  gets (fun s => match i18nProvider this with
                 | Some provider =>
                     Some (Collab.analyze provider (template_text (pathname (the_url s))) None)
                 | None => None
                 end).

(** Lines 205-213. *)
Definition normalize_index : M State unit :=
  when (Collab.app (enabledDirectories this))
       (u <- gets (fun s => url (the_req s)) ;;
        when (is_index_url u) (modify_req (set_url (replace_index u))) ;;
        modify_parsedURL (fun pu =>
          set_pathname (match pathname pu with
                        | Some p => if String.eqb p "/index" then Some "/" else Some p
                        | None => None
                        end) pu))%eff.

(** Lines 217-222: the pathnames of the matched path and of the URL. *)
Definition extract_pathnames : M State (string * string) :=
  (h <- header "x-matched-path" ;;
   matchedPath <- or_throw ThrowTypeError (URL_pathname B (header_text h)) ;;
   u <- gets (fun s => url (the_req s)) ;;
   urlPathname <- or_throw ThrowTypeError (URL_pathname B u) ;;
   ret (matchedPath, urlPathname))%eff.

(** Lines 236-253: the postponed state is read from the body, whose stream
    is taken to deliver all its chunks. *)
Definition read_postponed (n : Collab.PathnameNormalizer)
           (matchedPath urlPathname : string) : M State string :=
  (body <- gets (fun s => body (the_req s)) ;;
   modify_req (set_body []) ;;
   let postponed := Buffer_toString_utf8 B (concat body) in
   modify_req (addRequestMeta "postponed" (MString postponed)) ;;
   h <- header "x-now-route-matches" ;;
   if negb (header_truthy h)
   then ret (Collab.normalize n matchedPath (Some true))
   else ret urlPathname)%eff.

(** Lines 224-254; returns [urlPathname]. *)
Definition mark_data_or_postponed (matchedPath urlPathname : string) : M State string :=
  (match matching (data (normalizers this)) urlPathname with
   | Some _ =>
       modify_query (JS.set "__nextDataReq" (JS.Str "1")) ;;
       ret urlPathname
   | None =>
       method <- gets (fun s => method (the_req s)) ;;
       match matching (postponed (normalizers this)) matchedPath with
       | Some n =>
           if String.eqb method "POST"
           then read_postponed n matchedPath urlPathname
           else ret urlPathname
       | None => ret urlPathname
       end
   end)%eff.

(** Lines 215-254: the matched path, and the URL pathname once the data
    and the postponed requests are dealt with. *)
Definition extract_matched_path : M State (string * string) :=
  (pathnames <- extract_pathnames ;;
   let '(matchedPath, urlPathname) := pathnames in
   urlPathname <- mark_data_or_postponed matchedPath urlPathname ;;
   ret (matchedPath, urlPathname))%eff.

(** Lines 258-264. *)
Definition normalized_url_path (urlPathname : string) : string :=
  let normalizedUrlPath := urlPathname in
  let normalizedUrlPath :=
    match data (normalizers this) with
    | Some n => Collab.normalize n urlPathname None
    | None => normalizedUrlPath
    end in
  match i18n (normalizers this) with
  | Some n => Collab.normalize n urlPathname None
  | None => normalizedUrlPath
  end.

(** Lines 266-271. *)
Definition default_locale_of (s : State) : option string :=
  match i18nProvider this with
  | Some provider =>
      match Collab.detectDomainLocale provider
              (Collab.getHostname I (the_url s) (headers (the_req s))) with
      | Some d => Some d
      | None => Some (Collab.config_defaultLocale provider)
      end
  | None => None
  end.

Definition default_locale : M State (option string) := gets default_locale_of.

(** Lines 274-276: [this.i18nProvider?.analyze(matchedPath, { defaultLocale })]. *)
Definition analyze_matched (matchedPath : string) (defaultLocale : option string)
  : option Collab.LocaleAnalysisResult :=
  match i18nProvider this with
  | Some provider => Some (Collab.analyze provider matchedPath (Some defaultLocale))
  | None => None
  end.

(** Lines 281-291. *)
Definition apply_locale (localeAnalysisResult : option Collab.LocaleAnalysisResult)
  : M State unit :=
  match localeAnalysisResult with
  | Some r =>
      (modify_query (JS.set "__nextLocale"
                       (match Collab.detectedLocale r with
                        | Some l => JS.Str l
                        | None => JS.Undefined
                        end)) ;;
       if Collab.inferredFromDefault r
       then modify_query (JS.set "__nextInferredLocaleFromDefault" (JS.Str "1"))
       else modify_query (JS.delete "__nextInferredLocaleFromDefault"))%eff
  | None => ret tt
  end.

(** [await this.matchers.match(pathname, { i18n })], recorded. *)
Definition matchers_match (pathname : string)
           (i18n : option Collab.LocaleAnalysisResult) : M State (option Collab.RouteMatch) :=
  (modify (fun s => {| env := env s; lookups := lookups s ++ [(pathname, i18n)] |}) ;;
   ret (Collab.matchers_match (matchers this) pathname i18n))%eff.

(** Lines 296-310; returns [srcPathname] and [pageIsDynamic]. *)
Definition resolve_source (matchedPath : string)
           (localeAnalysisResult : option Collab.LocaleAnalysisResult)
  : M State (string * bool) :=
  (let srcPathname := matchedPath in
   let pageIsDynamic := Collab.isDynamicRoute I srcPathname in
   if negb pageIsDynamic then
     match_ <- matchers_match srcPathname localeAnalysisResult ;;
     match match_ with
     | Some m =>
         ret (Collab.definition_pathname m,
              match Collab.params m with Some _ => true | None => false end)
     | None => ret (srcPathname, pageIsDynamic)
     end
   else ret (srcPathname, pageIsDynamic))%eff.


(** Lines 319-330. *)
Definition get_utils (pageIsDynamic : bool) (srcPathname : string) : Collab.Utils :=
  Collab.getUtils I
    {| Collab.arg_pageIsDynamic := pageIsDynamic;
       Collab.arg_page := srcPathname;
       Collab.arg_i18n := Collab.i18n (nextConfig this);
       Collab.arg_basePath := Collab.basePath (nextConfig this);
       Collab.arg_rewrites :=
         match getRoutesManifest this with
         | Some manifest =>
             if JS.truthy (Collab.rewrites manifest) then Collab.rewrites manifest
             else JS.Obj [("beforeFiles", JS.Arr []); ("afterFiles", JS.Arr []);
                          ("fallback", JS.Arr [])]
         | None => JS.Obj [("beforeFiles", JS.Arr []); ("afterFiles", JS.Arr []);
                           ("fallback", JS.Arr [])]
         end;
       Collab.arg_caseSensitive :=
         JS.truthy (Collab.experimental_caseSensitiveRoutes (nextConfig this)) |}.

(** [i18n?.detectedLocale] *)
Definition detected (i18n : option Collab.LocaleAnalysisResult) : option string :=
  match i18n with
  | Some r => Collab.detectedLocale r
  | None => None
  end.

(** Lines 334-336. *)
Definition prefix_default_locale (defaultLocale : option string)
           (i18n : option Collab.LocaleAnalysisResult) : M State unit :=
  when (str_truthy defaultLocale && negb (str_truthy (detected i18n)))
       (modify_parsedURL (fun pu =>
          set_pathname (Some ("/" ++ template_text defaultLocale
                                  ++ template_text (pathname pu))) pu)).

(** The parsed URL that lines 334-336 leave: the one given to the rewrite
    engine. *)
Definition prefixed_url (defaultLocale : option string)
           (i18n : option Collab.LocaleAnalysisResult)
           (pu : NextUrlWithParsedQuery) : NextUrlWithParsedQuery :=
  if str_truthy defaultLocale && negb (str_truthy (detected i18n))
  then set_pathname (Some ("/" ++ template_text defaultLocale
                               ++ template_text (pathname pu))) pu
  else pu.

(** Lines 338-345; returns [rewriteParamKeys] and [didRewrite]. *)
Definition apply_rewrites (utils : Collab.Utils) : M State (list string * bool) :=
  (pathnameBeforeRewrite <- gets (fun s => pathname (the_url s)) ;;
   r <- gets the_req ;;
   pu <- gets the_url ;;
   let '(pu', rewriteParams) := Collab.handleRewrites utils r pu in
   modify_parsedURL (fun _ => pu') ;;
   let rewriteParamKeys := JS.keys rewriteParams in
   let didRewrite := str_neq pathnameBeforeRewrite (pathname pu') in
   when (didRewrite && str_truthy (pathname pu'))
        (modify_req (addRequestMeta "rewroteURL" (meta_of_pathname (pathname pu')))) ;;
   ret (rewriteParamKeys, didRewrite))%eff.

(** The body of the loop of lines 348-358, on the query and on
    [routeParamKeys]. *)
Definition normalize_query_key (key : string) (st : JS.Object * list string)
  : JS.Object * list string :=
  let value := JS.get key (fst st) in
  fold_left (fun st normalizedKey =>
               (JS.delete key (JS.set normalizedKey value (fst st)),
                set_add normalizedKey (snd st)))
            (Collab.normalizeNextQueryParam I key) st.








(** Lines 346-358; returns [routeParamKeys]. *)
Definition normalize_query_keys : M State (list string) :=
  (q <- gets (fun s => query (the_url s)) ;;
   let '(q', routeParamKeys) :=
     fold_left (fun st key => normalize_query_key key st) (JS.keys q) (q, []) in
   modify_query (fun _ => q') ;;
   ret routeParamKeys)%eff.

(** Lines 364-382: the parameters found in the query [q] or, failing that,
    in the URL's own pathname; what the call of line 364 deletes from the
    query is applied where it is made, in [interpolate_params]. *)
Definition params_from_query_or_url (utils : Collab.Utils) (pageIsDynamic : bool)
           (normalizedUrlPath : string) (q : JS.Object) : Collab.ParamsResult :=
  let paramsResult := fst (Collab.normalizeDynamicRouteParams utils q None) in
  if negb (Collab.hasValidParams paramsResult) && pageIsDynamic
     && negb (Collab.isDynamicRoute I normalizedUrlPath)
  then
    match (match Collab.dynamicRouteMatcher utils with
           | Some dynamicRouteMatcher => dynamicRouteMatcher normalizedUrlPath
           | None => None
           end) with
    | Some matcherParams =>
        (* line 378: called for what it deletes from [matcherParams] *)
        let matcherParams :=
          delete_keys (snd (Collab.normalizeDynamicRouteParams utils matcherParams None))
            matcherParams in
        {| Collab.result_params :=
             JS.assign (Collab.result_params paramsResult) (JS.Obj matcherParams);
           Collab.hasValidParams := true |}
    | None => paramsResult
    end
  else paramsResult.

(** Lines 388-414: the parameters of the [x-now-route-matches] header;
    returns [paramsResult] and [params]. *)
Definition params_from_route_matches (utils : Collab.Utils) (matchedPath : string)
           (paramsResult : Collab.ParamsResult) (params : JS.Object)
  : M State (Collab.ParamsResult * JS.Object) :=
  (h <- header "x-now-route-matches" ;;
   if header_truthy h && Collab.isDynamicRoute I matchedPath
      && negb (Collab.hasValidParams paramsResult)
   then
     r <- gets the_req ;;
     q <- gets (fun s => query (the_url s)) ;;
     let locale := if JS.truthy (JS.get "__nextLocale" q)
                   then JS.get "__nextLocale" q else JS.Str "" in
     let '(routeParams, opts) := Collab.getParamsFromRouteMatches utils r locale in
     when (JS.truthy (JS.get "locale" opts))
          (modify_query (JS.set "__nextLocale" (JS.get "locale" opts)) ;;
           modify_query (JS.delete "__nextInferredLocaleFromDefault")) ;;
     (* line 409: [routeParams] is not read again, what is deleted from it is lost *)
     let paramsResult :=
       fst (Collab.normalizeDynamicRouteParams utils routeParams (Some true)) in
     ret (paramsResult,
          if Collab.hasValidParams paramsResult
          then Collab.result_params paramsResult else params)
   else ret (paramsResult, params))%eff.

(** Lines 361-431; returns [matchedPath]. *)
Definition interpolate_params (utils : Collab.Utils) (pageIsDynamic : bool)
           (srcPathname normalizedUrlPath matchedPath : string) : M State string :=
  (if pageIsDynamic then
     q <- gets (fun s => query (the_url s)) ;;
     (* line 364: the call deletes keys from [parsedURL.query] itself *)
     modify_query (delete_keys (snd (Collab.normalizeDynamicRouteParams utils q None))) ;;
     let paramsResult := params_from_query_or_url utils pageIsDynamic normalizedUrlPath q in
     let params := if Collab.hasValidParams paramsResult
                   then Collab.result_params paramsResult else [] in
     found <- params_from_route_matches utils matchedPath paramsResult params ;;
     let '(paramsResult, params) := found in
     let params :=
       match Collab.defaultRouteMatches utils with
       | Some defaultRouteMatches =>
           if pageIsDynamic
              && String.eqb normalizedUrlPath srcPathname
              && negb (Collab.hasValidParams paramsResult)
              && negb (Collab.hasValidParams
                         (* line 422: called on a copy, [{ ...params }] *)
                         (fst (Collab.normalizeDynamicRouteParams utils params (Some true))))
           then defaultRouteMatches else params
       | None => params
       end in
     u <- gets (fun s => url (the_req s)) ;;
     modify_req (set_url (Collab.interpolateDynamicPath utils u params)) ;;
     ret (Collab.interpolateDynamicPath utils srcPathname params)
   else ret matchedPath)%eff.

(** Lines 446-457: the locale of the query, when it has none yet. *)
Definition ensure_locale (i18n : option Collab.LocaleAnalysisResult)
           (defaultLocale : option string) : M State unit :=
  (q <- gets (fun s => query (the_url s)) ;;
   when (negb (JS.truthy (JS.get "__nextLocale" q)))
        (if str_truthy (detected i18n)
         then modify_query (JS.set "__nextLocale" (JS.Str (template_text (detected i18n))))
         else if str_truthy defaultLocale
         then modify_query (JS.set "__nextLocale" (JS.Str (template_text defaultLocale))) ;;
              modify_query (JS.set "__nextInferredLocaleFromDefault" (JS.Str "1"))
         else ret tt))%eff.

(** Lines 433-457. *)
Definition finish (utils : Collab.Utils) (pageIsDynamic didRewrite : bool)
           (rewriteParamKeys routeParamKeys : list string) (matchedPath : string)
           (i18n : option Collab.LocaleAnalysisResult) (defaultLocale : option string)
  : M State unit :=
  (when (pageIsDynamic || didRewrite)
        (r <- gets the_req ;;
         modify_req (set_url
           (Collab.normalizeVercelUrl utils r true
              (rewriteParamKeys ++
               match Collab.defaultRouteRegex_groups utils with
               | Some groups => groups
               | None => []
               end)))) ;;
   for_of routeParamKeys (fun key => modify_query (JS.delete key)) ;;
   modify_parsedURL (set_pathname (Some matchedPath)) ;;
   ensure_locale i18n defaultLocale)%eff.

(** Lines 360-457: the interpolation of the parameters and what follows. *)
Definition adapt_interpolate (utils : Collab.Utils)
           (i18n : option Collab.LocaleAnalysisResult) (defaultLocale : option string)
           (normalizedUrlPath matchedPath srcPathname : string)
           (pageIsDynamic didRewrite : bool) (rewriteParamKeys routeParamKeys : list string)
  : M State unit :=
  (matchedPath <- interpolate_params utils pageIsDynamic srcPathname normalizedUrlPath
                    matchedPath ;;
   finish utils pageIsDynamic didRewrite rewriteParamKeys routeParamKeys matchedPath
          i18n defaultLocale)%eff.

(** Lines 346-457: what follows the rewrites. *)
Definition adapt_params (utils : Collab.Utils) (i18n : option Collab.LocaleAnalysisResult)
           (defaultLocale : option string)
           (normalizedUrlPath matchedPath srcPathname : string)
           (pageIsDynamic didRewrite : bool) (rewriteParamKeys : list string)
  : M State unit :=
  (routeParamKeys <- normalize_query_keys ;;
   adapt_interpolate utils i18n defaultLocale normalizedUrlPath matchedPath srcPathname
                     pageIsDynamic didRewrite rewriteParamKeys routeParamKeys)%eff.

(** Lines 319-457: the rewrites and what follows. *)
Definition adapt_rewrites (i18n : option Collab.LocaleAnalysisResult)
           (defaultLocale : option string)
           (normalizedUrlPath matchedPath srcPathname : string) (pageIsDynamic : bool)
  : M State unit :=
  (let utils := get_utils pageIsDynamic srcPathname in
   prefix_default_locale defaultLocale i18n ;;
   rewritten <- apply_rewrites utils ;;
   let '(rewriteParamKeys, didRewrite) := rewritten in
   adapt_params utils i18n defaultLocale normalizedUrlPath matchedPath srcPathname
                pageIsDynamic didRewrite rewriteParamKeys)%eff.

(** Lines 256-457: the resolution of the route, once the two pathnames
    are known. *)
Definition adapt_resolve (i18n : option Collab.LocaleAnalysisResult)
           (matchedPath urlPathname : string) : M State unit :=
  (let matchedPath := normalize matchedPath in
   let normalizedUrlPath := normalized_url_path urlPathname in
   defaultLocale <- default_locale ;;
   let localeAnalysisResult := analyze_matched matchedPath defaultLocale in
   apply_locale localeAnalysisResult ;;
   let matchedPath := Collab.denormalizePagePath I matchedPath in
   source <- resolve_source matchedPath localeAnalysisResult ;;
   let '(srcPathname, pageIsDynamic) := source in
   let matchedPath := match localeAnalysisResult with
                      | Some r => Collab.pathname r
                      | None => matchedPath
                      end in
   adapt_rewrites i18n defaultLocale normalizedUrlPath matchedPath srcPathname
                  pageIsDynamic)%eff.

(** [adapt], lines 180-458. *)
Definition adapt : M State unit :=
  (check_invariants ;;
   strip_base_path ;;
   i18n <- analyze_pathname ;;
   attachRSCRequestMetadata ;;
   normalize_index ;;
   pathnames <- extract_matched_path ;;
   let '(matchedPath, urlPathname) := pathnames in
   adapt_resolve i18n matchedPath urlPathname)%eff.

End Adapter.
End Minimal.


(* ===================================================================== *)
(** * A sample platform                                                   *)
(* ===================================================================== *)

(** Executable stand-ins for the built-ins, used to run the adapters on
    concrete requests.  Each follows ECMAScript on the fragment described
    and is not meant to be used outside it. *)
Module SamplePlatform.

(** [Number] on a non-empty string of decimal digits; other inputs are
    outside the fragment and answer NaN. *)
Definition Number (s : string) : JS.number :=
  match s with
  | EmptyString => S754_nan
  | _ => match JS.digits_value 0 s with
         | Some n => JS.number_of_Z (Z.of_N n)
         | None => S754_nan
         end
  end.

Fixpoint skip_spaces (s : string) : string :=
  match s with
  | String " "%char s' => skip_spaces s'
  | _ => s
  end.

(** The characters of a string literal up to its closing quote, and what
    follows it; escapes are outside the fragment. *)
Fixpoint read_string (s : string) : option (string * string) :=
  match s with
  | EmptyString => None
  | String c s' =>
      if Ascii.eqb c "034"%char then Some (EmptyString, s')
      else if Ascii.eqb c "\"%char then None
      else match read_string s' with
           | Some (t, rest) => Some (String c t, rest)
           | None => None
           end
  end.

Fixpoint read_digits (s : string) : string * string :=
  match s with
  | String c s' =>
      match JS.digit_of c with
      | Some _ => let '(d, rest) := read_digits s' in (String c d, rest)
      | None => (EmptyString, s)
      end
  | EmptyString => (EmptyString, EmptyString)
  end.

(** A scalar: [null], [true], [false], a string literal, a natural number
    without leading zero. *)
Definition read_scalar (s : string) : option (JS.Value * string) :=
  match skip_spaces s with
  | String "n" (String "u" (String "l" (String "l" rest))) => Some (JS.Null, rest)
  | String "t" (String "r" (String "u" (String "e" rest))) => Some (JS.Bool true, rest)
  | String "f" (String "a" (String "l" (String "s" (String "e" rest)))) =>
      Some (JS.Bool false, rest)
  | String "034" rest =>
      match read_string rest with
      | Some (t, rest') => Some (JS.Str t, rest')
      | None => None
      end
  | String _ _ as s' =>
      match read_digits s' with
      | (EmptyString, _) => None
      | (String "0" (String _ _), _) => None
      | (d, rest') => Some (JS.Num (Number d), rest')
      end
  | EmptyString => None
  end.

(** The members of an object after its opening brace: [fuel] bounds their
    number. *)
Fixpoint read_members (fuel : nat) (first : bool) (acc : JS.Object) (s : string)
  : option (JS.Object * string) :=
  match fuel with
  | O => None
  | S fuel' =>
      match skip_spaces s with
      | String "}" rest => if first then Some (acc, rest) else None
      | String "034" rest =>
          match read_string rest with
          | Some (key, rest1) =>
              match skip_spaces rest1 with
              | String ":" rest2 =>
                  match read_scalar rest2 with
                  | Some (v, rest3) =>
                      match skip_spaces rest3 with
                      | String "," rest4 => read_members fuel' false (JS.set key v acc) rest4
                      | String "}" rest4 => Some (JS.set key v acc, rest4)
                      | _ => None
                      end
                  | None => None
                  end
              | _ => None
              end
          | None => None
          end
      | _ => None
      end
  end.

(** [JSON.parse] on scalars and on objects whose members are scalars, with
    spaces as the only white space.  Nested structures, arrays, escapes,
    fractions and exponents are outside the fragment and answer [None]. *)
Definition JSON_parse (s : string) : option JS.Value :=
  let finish (r : option (JS.Value * string)) :=
    match r with
    | Some (v, rest) => match skip_spaces rest with
                        | EmptyString => Some v
                        | _ => None
                        end
    | None => None
    end in
  match skip_spaces s with
  | String "{" rest =>
      finish (match read_members (String.length s) true [] rest with
              | Some (o, rest') => Some (JS.Obj o, rest')
              | None => None
              end)
  | _ => finish (read_scalar s)
  end.

Fixpoint has_percent (s : string) : bool :=
  match s with
  | EmptyString => false
  | String c s' => Ascii.eqb c "%"%char || has_percent s'
  end.

(** [decodeURIComponent] on strings without escape sequences, which it
    leaves as they are; strings with a [%] are outside the fragment. *)
Definition decodeURIComponent (s : string) : option string :=
  if has_percent s then None else Some s.

(** ToString of a value other than a string and [undefined]: only the
    literals are in the fragment. *)
Definition ToString (v : JS.Value) : string :=
  match v with
  | JS.Null => "null"
  | JS.Bool true => "true"
  | JS.Bool false => "false"
  | JS.Str s => s
  | _ => "[object Object]"
  end.

Fixpoint until_query (s : string) : string :=
  match s with
  | EmptyString => EmptyString
  | String c s' =>
      if Ascii.eqb c "?"%char || Ascii.eqb c "#"%char then EmptyString
      else String c (until_query s')
  end.

(** [new URL(s, 'http://localhost').pathname] on a reference that starts
    with a single slash: everything before the query or the fragment.
    Other references, dot segments and characters that the URL parser
    escapes are outside the fragment. *)
Definition URL_pathname (s : string) : option string :=
  match s with
  | String "/" (String "/" _) => None
  | String "/" _ => Some (until_query s)
  | _ => None
  end.

(** [toString('utf8')] on bytes below 128, which decode to themselves. *)
Definition Buffer_toString_utf8 (bytes : list byte) : string :=
  string_of_list_byte bytes.

Definition builtins : Platform.Builtins :=
  {| Platform.Number := Number;
     Platform.JSON_parse := JSON_parse;
     Platform.decodeURIComponent := decodeURIComponent;
     Platform.ToString := ToString;
     Platform.URL_pathname := URL_pathname;
     Platform.Buffer_toString_utf8 := Buffer_toString_utf8 |}.

End SamplePlatform.


(* ===================================================================== *)
(** * A sample site                                                       *)
(* ===================================================================== *)

(** Executable stand-ins for the code the minimal adapter imports: a small
    site with static and dynamic pages, optional locales [en] and [fr], and
    rewrite rules that map one pathname to another. *)
Module SampleSite.
Import Http.

Fixpoint ends_with (suffix s : string) : bool :=
  String.eqb suffix s
  || match s with
     | String _ s' => ends_with suffix s'
     | EmptyString => false
     end.

Fixpoint contains (sub s : string) : bool :=
  String.prefix sub s
  || match s with
     | String _ s' => contains sub s'
     | EmptyString => false
     end.

Definition drop_last (n : nat) (s : string) : string :=
  substring 0 (String.length s - n) s.

Fixpoint split_on (c : ascii) (s : string) : list string :=
  match s with
  | EmptyString => [EmptyString]
  | String c' s' =>
      if Ascii.eqb c c' then EmptyString :: split_on c s'
      else match split_on c s' with
           | first :: others => String c' first :: others
           | [] => [String c' EmptyString]
           end
  end.

(** A normalizer that recognises and strips a pathname prefix. *)
Definition prefix_normalizer (prefix : string) : Collab.PathnameNormalizer :=
  let matches p := String.eqb p prefix || String.prefix (prefix ++ "/") p in
  {| Collab.match_ := matches;
     Collab.normalize := fun p matched =>
       if negb (match matched with Some b => b | None => false end) && negb (matches p)
       then p
       else if Nat.eqb (String.length p) (String.length prefix) then "/"
       else Minimal.drop_chars (String.length prefix) p |}.

(** A normalizer that recognises and strips a pathname suffix. *)
Definition suffix_normalizer (suffix : string) : Collab.PathnameNormalizer :=
  {| Collab.match_ := ends_with suffix;
     Collab.normalize := fun p matched =>
       if negb (match matched with Some b => b | None => false end)
          && negb (ends_with suffix p)
       then p
       else drop_last (String.length suffix) p |}.

(** Data requests: [/_next/data/<buildID>/....json]. *)
Definition data_normalizer (buildID : string) : Collab.PathnameNormalizer :=
  let pre := prefix_normalizer ("/_next/data/" ++ buildID) in
  let suf := suffix_normalizer ".json" in
  let matches p := Collab.match_ pre p && Collab.match_ suf p in
  {| Collab.match_ := matches;
     Collab.normalize := fun p matched =>
       if negb (match matched with Some b => b | None => false end) && negb (matches p)
       then p
       else Collab.normalize suf (Collab.normalize pre p (Some true)) (Some true) |}.

Definition locales : list string := ["en"; "fr"].

(** The locale that starts a pathname, and the rest of the pathname. *)
Definition leading_locale (p : string) : option (string * string) :=
  match split_on "/" p with
  | _ :: segment :: _ =>
      if existsb (String.eqb segment) locales
      then Some (segment,
                 let rest := Minimal.drop_chars (S (String.length segment)) p in
                 if String.eqb rest "" then "/" else rest)
      else None
  | _ => None
  end.

Definition provider : Collab.I18NProvider :=
  {| Collab.analyze := fun p options =>
       let defaultLocale := match options with Some d => d | None => None end in
       match leading_locale p with
       | Some (locale, rest) =>
           {| Collab.detectedLocale := Some locale;
              Collab.pathname := rest;
              Collab.inferredFromDefault := false |}
       | None =>
           {| Collab.detectedLocale := defaultLocale;
              Collab.pathname := p;
              Collab.inferredFromDefault :=
                match defaultLocale with Some _ => true | None => false end |}
       end;
     Collab.detectDomainLocale := fun _ => None;
     Collab.config_defaultLocale := "en" |}.

Definition i18n_normalizer (p : Collab.I18NProvider) : Collab.PathnameNormalizer :=
  {| Collab.match_ := fun pathname =>
       match Collab.detectedLocale (Collab.analyze p pathname None) with
       | Some _ => true
       | None => false
       end;
     Collab.normalize := fun pathname _ => Collab.pathname (Collab.analyze p pathname None) |}.

Definition isDynamicRoute (p : string) : bool := contains "/[" p.

Definition denormalizePagePath (page : string) : string :=
  if String.prefix "/index/" page && negb (isDynamicRoute page)
  then Minimal.drop_chars 6 page
  else if negb (String.eqb page "/index") then page else "/".

(** The name of a dynamic segment [[name]]. *)
Definition param_name (segment : string) : option string :=
  match segment with
  | String "[" rest =>
      if ends_with "]" rest then Some (drop_last 1 rest) else None
  | _ => None
  end.

Definition param_names (page : string) : list string :=
  flat_map (fun segment => match param_name segment with
                           | Some name => [name]
                           | None => []
                           end) (split_on "/" page).

(** The parameters that make the segments of a page those of a path. *)
Fixpoint match_segments (page path : list string) (acc : JS.Object) : option JS.Object :=
  match page, path with
  | [], [] => Some acc
  | s :: page', t :: path' =>
      match param_name s with
      | Some name =>
          if String.eqb t "" then None
          else match_segments page' path' (JS.set name (JS.Str t) acc)
      | None => if String.eqb s t then match_segments page' path' acc else None
      end
  | _, _ => None
  end.

Definition match_route (page path : string) : option JS.Object :=
  match_segments (split_on "/" page) (split_on "/" path) [].

(** [encodeURIComponent] on a string in which the brackets are the only
    characters that it escapes. *)
Fixpoint encode_brackets (s : string) : string :=
  match s with
  | EmptyString => EmptyString
  | String c s' =>
      if Ascii.eqb c "["%char then "%5B" ++ encode_brackets s'
      else if Ascii.eqb c "]"%char then "%5D" ++ encode_brackets s'
      else String c (encode_brackets s')
  end.

(** A string in which the first occurrence of [sub] is replaced by [new]. *)
Fixpoint replace_first (sub new s : string) : string :=
  if String.prefix sub s then new ++ Minimal.drop_chars (String.length sub) s
  else match s with
       | EmptyString => EmptyString
       | String c s' => String c (replace_first sub new s')
       end.

(** [interpolateDynamicPath] for a page whose parameters are [names], none
    of them optional or a catch-all: for each parameter in turn, the first
    [[name]] of the string is replaced by the encoded value of the
    parameter, or by nothing when it has none.  Values are strings. *)
Definition interpolate (names : list string) (pathname : string) (params : JS.Object)
  : string :=
  fold_left (fun p name =>
               replace_first ("[" ++ name ++ "]")
                 match JS.get name params with
                 | JS.Str v => encode_brackets v
                 | _ => ""
                 end p)
            names pathname.

(** The pathname that the [beforeFiles] rules leave: each rule whose
    source is the current pathname replaces it by its destination, in
    turn.  Sources and destinations are plain absolute paths, in the case
    of the pathnames they are compared with; a rule whose destination is
    not an absolute path is outside the fragment (the rewrite engine throws
    a TypeError on a destination it cannot parse and leaves an external one
    alone) and is passed over here. *)
Fixpoint rewritten (rules : list JS.Value) (p : string) : string :=
  match rules with
  | JS.Obj rule :: rules' =>
      match JS.get "source" rule, JS.get "destination" rule with
      | JS.Str source, JS.Str destination =>
          if String.eqb source p && String.prefix "/" destination
          then rewritten rules' destination else rewritten rules' p
      | _, _ => rewritten rules' p
      end
  | _ :: rules' => rewritten rules' p
  | [] => p
  end.

Definition before_files (rewrites : JS.Value) : list JS.Value :=
  match rewrites with
  | JS.Obj o => match JS.get "beforeFiles" o with
                | JS.Arr rules => rules
                | _ => []
                end
  | _ => []
  end.

(** The name and the value of a pair [name=value]: the value is what
    follows the first [=]. *)
Fixpoint split_pair (s : string) : string * string :=
  match s with
  | EmptyString => (EmptyString, EmptyString)
  | String c s' =>
      if Ascii.eqb c "="%char then (EmptyString, s')
      else let '(k, v) := split_pair s' in (String c k, v)
  end.

(** The pairs of a string [k=v&k=v], as [URLSearchParams] reads them when
    the string has no escape and no plus sign. *)
Definition pairs (s : string) : list (string * string) :=
  map split_pair (List.filter (fun kv => negb (String.eqb kv "")) (split_on "&" s)).

(** [i18n.locales], when they are strings. *)
Definition config_locales (i18n : JS.Value) : list string :=
  match i18n with
  | JS.Obj o => match JS.get "locales" o with
                | JS.Arr l => flat_map (fun v => match v with JS.Str x => [x] | _ => [] end) l
                | _ => []
                end
  | _ => []
  end.

(** [toLowerCase] on the letters A to Z. *)
Definition lower_char (c : ascii) : ascii :=
  let n := N_of_ascii c in
  if ((65 <=? n) && (n <=? 90))%N then ascii_of_N (n + 32) else c.

Fixpoint lower (s : string) : string :=
  match s with
  | EmptyString => EmptyString
  | String c s' => String (lower_char c) (lower s')
  end.

(** [Object.fromEntries(new URLSearchParams(h))]. *)
Definition route_matches_object (h : string) : JS.Object :=
  fold_left (fun o kv => JS.set (fst kv) (JS.Str (snd kv)) o) (pairs h) [].

(** The object once the extraction has renamed the keys that carry the
    prefix [nxtP]. *)
Definition route_matches_entries (obj : JS.Object) : JS.Object :=
  fold_left (fun o key =>
               if negb (String.eqb key "nxtP") && String.prefix "nxtP" key
               then JS.delete key (JS.set (Minimal.drop_chars 4 key) (JS.get key o) o)
               else o)
            (JS.keys obj) obj.

(** [parseInt(key, 10) - 1 + ''] for a key that is a canonical numeral;
    [NaN] for the others, which the fragment takes not to start with a
    numeral. *)
Definition shifted_key (key : string) : string :=
  match JS.array_index key with
  | Some n => pretty (Z.of_N n - 1)%Z
  | None => "NaN"
  end.

(** The names of a list with their positions, from [i] on. *)
Fixpoint positions (i : N) (names : list string) : list (N * string) :=
  match names with
  | [] => []
  | name :: names' => (i, name) :: positions (N.succ i) names'
  end.

(** [getParamsFromRouteMatches] for a page whose parameters are [names],
    none of them a catch-all: the route parameters and the [locale] left in
    [opts].  When every parameter of the page is named in the header only
    the named values are read; otherwise all of them are, and are taken by
    position, shifted by one when the first is the locale the function is
    called with.  With a locale configuration a value that is one of the
    locales, whatever the case of its letters, is not a parameter: it makes
    the configured locale the one supplied (the last such value wins).
    Values have no escape and no slash; the adapter calls the function for
    a dynamic page only. *)
Definition getParamsFromRouteMatches (i18n : JS.Value) (names : list string)
           (r : BaseNextRequest) (detectedLocale : JS.Value) : JS.Object * JS.Object :=
  let raw := route_matches_object
               match headers r !! "x-now-route-matches" with
               | Some (HString h) => h
               | _ => ""
               end in
  let matchesHasLocale :=
    JS.truthy i18n && JS.truthy detectedLocale
    && match JS.get "1" raw, detectedLocale with
       | JS.Str x, JS.Str y => String.eqb x y
       | _, _ => false
       end in
  let obj := route_matches_entries raw in
  let locale_item (v : JS.Value) : option string :=
    if JS.truthy i18n
    then match v with
         | JS.Str x => List.find (fun item => String.eqb (lower item) (lower x))
                                 (config_locales i18n)
         | _ => None
         end
    else None in
  let named := forallb (fun name => JS.truthy (JS.get name obj)) names in
  let read := if named then map (fun name => (name, JS.get name obj)) names
              else JS.own_props (JS.Obj obj) in
  let opts := match rev (flat_map (fun kv => match locale_item (snd kv) with
                                             | Some item => [item]
                                             | None => []
                                             end) read) with
              | item :: _ => [("locale", JS.Str item)]
              | [] => []
              end in
  let kept := List.filter (fun kv => match locale_item (snd kv) with
                                     | Some _ => false
                                     | None => true
                                     end) read in
  (if named then kept
   else
     let by_position :=
       fold_left (fun o kv =>
                    JS.set (if matchesHasLocale then shifted_key (fst kv) else fst kv)
                           (snd kv) o) kept [] in
     flat_map (fun pn => match JS.get (pretty (fst pn)) by_position with
                         | JS.Undefined => []
                         | v => [(snd pn, v)]
                         end) (positions 1 names),
   opts).

(** [normalizeRscURL]: the first [.rsc] that ends the string or comes
    before a question mark is removed. *)
Fixpoint normalizeRscURL (s : string) : string :=
  if String.eqb s ".rsc" then EmptyString
  else if String.prefix ".rsc?" s then Minimal.drop_chars 4 s
  else match s with
       | EmptyString => EmptyString
       | String c s' => String c (normalizeRscURL s')
       end.

(** [normalizeDynamicRouteParams] for a page whose parameters are [names],
    none of them optional or a catch-all: the parameters found in the
    argument, valid when each is there and is not the placeholder
    [[name]] of the page itself; nothing is deleted from the argument,
    which has no optional parameter to lose.  Without a dynamic page the
    argument is returned as it is.  Values are strings. *)
Definition normalizeDynamicRouteParams (pageIsDynamic : bool) (names : list string)
           (q : JS.Object) (_ : option bool) : Collab.ParamsResult * list string :=
  if negb pageIsDynamic
  then ({| Collab.result_params := q; Collab.hasValidParams := false |}, [])
  else
    let value name := match JS.get name q with
                      | JS.Str v => JS.Str (normalizeRscURL v)
                      | v => v
                      end in
    ({| Collab.result_params :=
          flat_map (fun name => if JS.truthy (value name)
                                then [(name, value name)] else []) names;
        Collab.hasValidParams :=
          forallb (fun name => match value name with
                               | JS.Undefined => false
                               | JS.Str v => negb (contains ("[" ++ name ++ "]") v)
                               | _ => false
                               end) names |},
     []).

(** A pathname without the slash that ends it. *)
Definition without_trailing_slash (p : string) : string :=
  if ends_with "/" p then drop_last 1 p else p.

(** [getUtils] for a site whose rewrites are [beforeFiles] rules between
    plain paths, without a base path and whose dynamic pages have plain
    parameters [[name]] only; rules together with a locale configuration
    are outside the fragment (the engine then adds a query key of its
    own), and so are pathnames with escapes. *)
Definition getUtils (args : Collab.GetUtilsArgs) : Collab.Utils :=
  let page := Collab.arg_page args in
  let names := if Collab.arg_pageIsDynamic args then param_names page else [] in
  {| Collab.handleRewrites := fun _ pu =>
       match pathname pu with
       | Some p =>
           (set_pathname (Some (rewritten (before_files (Collab.arg_rewrites args)) p)) pu,
            [])
       | None => (pu, [])
       end;
     Collab.normalizeDynamicRouteParams :=
       normalizeDynamicRouteParams (Collab.arg_pageIsDynamic args) names;
     Collab.dynamicRouteMatcher :=
       if Collab.arg_pageIsDynamic args
       then Some (fun p => match_route page (without_trailing_slash p)) else None;
     Collab.getParamsFromRouteMatches :=
       getParamsFromRouteMatches (Collab.arg_i18n args) names;
     Collab.interpolateDynamicPath := interpolate names;
     (* [req.url] is parsed and formatted again without the parameters of
        the page: the URLs of the fragment have none in their query *)
     Collab.normalizeVercelUrl := fun r _ _ => url r;
     Collab.defaultRouteMatches :=
       if Collab.arg_pageIsDynamic args then match_route page page else None;
     Collab.defaultRouteRegex_groups :=
       if Collab.arg_pageIsDynamic args then Some names else None |}.

(** The callback is called with what follows the prefix [nxtP] or [nxtI]. *)
Definition normalizeNextQueryParam (key : string) : list string :=
  flat_map (fun prefix =>
              if negb (String.eqb key prefix) && String.prefix prefix key
              then [Minimal.drop_chars (String.length prefix) key] else [])
           ["nxtP"; "nxtI"].

Definition imports : Collab.Imports :=
  {| Collab.new_ActionPathnameNormalizer := suffix_normalizer ".action";
     Collab.new_NextDataPathnameNormalizer := data_normalizer;
     Collab.new_PostponedPathnameNormalizer := prefix_normalizer "/_next/postponed/resume";
     Collab.new_PrefetchRSCPathnameNormalizer := suffix_normalizer ".prefetch.rsc";
     Collab.new_RSCPathnameNormalizer := suffix_normalizer ".rsc";
     Collab.new_I18nPathnameNormalizer := i18n_normalizer;
     Collab.new_BasePathPathnameNormalizer := prefix_normalizer;
     Collab.checkIsAppPPREnabled := fun v =>
       match v with
       | JS.Bool b => b
       | JS.Str s => String.eqb s "incremental"
       | _ => false
       end;
     Collab.denormalizePagePath := denormalizePagePath;
     Collab.isDynamicRoute := isDynamicRoute;
     Collab.getUtils := getUtils;
     Collab.normalizeNextQueryParam := normalizeNextQueryParam;
     Collab.getHostname := fun _ h =>
       match h !! "host" with
       | Some (HString host) => Some host
       | _ => None
       end;
     Collab.url_with_pathname := fun u p =>
       Minimal.template_text p
       ++ Minimal.drop_chars (String.length (SamplePlatform.until_query u)) u;
     Collab.stripFlightHeaders := fun h =>
       delete "rsc" (delete "next-router-state-tree" (delete "next-router-prefetch" h));
     Collab.RSC_HEADER_lower := "rsc";
     Collab.NEXT_ROUTER_PREFETCH_HEADER_lower := "next-router-prefetch" |}.

(** The pages of the site. *)
Definition pages : list string := ["/about"; "/a"; "/b"; "/blog/[slug]"].

(** The first page that a pathname is an instance of. *)
Definition matchers : Collab.RouteMatcherManager :=
  {| Collab.matchers_match := fun p _ =>
       match List.find (fun page => match match_route page p with
                                    | Some _ => true
                                    | None => false
                                    end) pages with
       | Some page =>
           Some {| Collab.definition_pathname := page;
                   Collab.params := if isDynamicRoute page then match_route page p else None |}
       | None => None
       end |}.

Definition rule (source destination : string) : JS.Value :=
  JS.Obj [("source", JS.Str source); ("destination", JS.Str destination)].

(** The configuration: partial prerendering is on, there is no base path,
    and [/a] is rewritten to [/b]. *)
Definition config (i18n : bool) : Collab.NextConfigComplete :=
  {| Collab.basePath := "";
     Collab.i18n :=
       if i18n
       then JS.Obj [("locales", JS.Arr (map JS.Str locales)); ("defaultLocale", JS.Str "en")]
       else JS.Undefined;
     Collab.experimental_ppr := JS.Bool true;
     Collab.experimental_caseSensitiveRoutes := JS.Undefined |}.

Definition manifest (rules : list JS.Value) : Collab.NormalizedRouteManifest :=
  {| Collab.rewrites :=
       JS.Obj [("beforeFiles", JS.Arr rules); ("afterFiles", JS.Arr []);
               ("fallback", JS.Arr [])] |}.

(** The adapter of the site, with or without locales. *)
Definition adapter (i18n : bool) (rules : list JS.Value) : Minimal.MinimalRequestAdapter :=
  Minimal.new_MinimalRequestAdapter imports "build"
    {| Collab.app := true; Collab.pages := true |}
    (if i18n then Some provider else None)
    matchers (config i18n) (Some (manifest rules)).

(** An adapter with both the plain and the prefetch fragment normalizers. *)
Definition both_fragments : Minimal.MinimalRequestAdapter :=
  let a := adapter false [] in
  {| Minimal.buildID := Minimal.buildID a;
     Minimal.enabledDirectories := Minimal.enabledDirectories a;
     Minimal.i18nProvider := Minimal.i18nProvider a;
     Minimal.matchers := Minimal.matchers a;
     Minimal.nextConfig := Minimal.nextConfig a;
     Minimal.getRoutesManifest := Minimal.getRoutesManifest a;
     Minimal.normalizers :=
       {| Minimal.basePath := None;
          Minimal.action := Some (suffix_normalizer ".action");
          Minimal.postponed := Some (prefix_normalizer "/_next/postponed/resume");
          Minimal.rsc := Some (suffix_normalizer ".rsc");
          Minimal.prefetchRSC := Some (suffix_normalizer ".prefetch.rsc");
          Minimal.data := Some (data_normalizer "build");
          Minimal.i18n := None |} |}.

Definition state (r : BaseNextRequest) (pathname : string) (query : JS.Object)
  : Minimal.State :=
  {| Minimal.env := {| req := r; parsedURL := {| pathname := Some pathname; query := query |} |};
     Minimal.lookups := [] |}.

(** Running the adapter of the site. *)
Definition run (i18n : bool) (rules : list JS.Value) (s : Minimal.State)
  : Eff.Result Minimal.State unit :=
  Minimal.adapt SamplePlatform.builtins imports (adapter i18n rules) s.

End SampleSite.

(* ===================================================================== *)
(** * Sample requests                                                     *)
(* ===================================================================== *)

Module Samples.
Import Errors Http Eff.

Definition request (method url : string) (headers : list (string * HeaderValue))
           (body : list (list byte)) : BaseNextRequest :=
  {| method := method; url := url; headers := list_to_map headers;
     body := body; meta := ∅ |}.

Definition envelope (r : BaseNextRequest) (pathname : string) (query : JS.Object) : Envelope :=
  {| req := r; parsedURL := {| pathname := Some pathname; query := query |} |}.

(** A base adapter that does nothing. *)
Definition base_adapt : M Envelope unit := ret tt.

(** A failed invocation relayed with its path. *)
Definition failed_invocation : Envelope :=
  envelope (request "GET" "/dashboard?tab=1&__nextLocale=en"
              [("x-invoke-path", HString "/_error");
               ("x-invoke-status", HString "500");
               ("x-invoke-error", HString Internal.boom_json);
               ("x-invoke-query", HString ("{" ++ JS.dq ++ "page" ++ JS.dq ++ ":"
                                              ++ JS.dq ++ "2" ++ JS.dq ++ "}"))] [])
           "/dashboard" [("tab", JS.Str "1"); ("__nextLocale", JS.Str "en")].

(** The same failure without a path to invoke. *)
Definition failed_without_path : Envelope :=
  envelope (request "GET" "/dashboard?tab=1"
              [("x-invoke-status", HString "500");
               ("x-invoke-error", HString Internal.boom_json)] [])
           "/dashboard" [("tab", JS.Str "1")].

(** A failed invocation whose cause is not JSON. *)
Definition failed_malformed : Envelope :=
  envelope (request "GET" "/dashboard?tab=1"
              [("x-invoke-path", HString "/_error");
               ("x-invoke-status", HString "503");
               ("x-invoke-error", HString "not json")] [])
           "/dashboard" [("tab", JS.Str "1")].

(** The malformed cause without a path to invoke. *)
Definition malformed_without_path : Envelope :=
  envelope (request "GET" "/dashboard"
              [("x-invoke-status", HString "503");
               ("x-invoke-error", HString "not json")] [])
           "/dashboard" [].

(** The invoke path given twice, which makes the header an array. *)
Definition repeated_invoke_path : Envelope :=
  envelope (request "GET" "/dashboard?tab=1"
              [("x-invoke-path", HArray ["/a"; "/b"]);
               ("x-invoke-status", HString "500")] [])
           "/dashboard" [("tab", JS.Str "1")].

(** An invocation of another path. *)
Definition invoke_other_path : Envelope :=
  envelope (request "GET" "/a?x=1" [("x-invoke-path", HString "/b")] [])
           "/a" [("x", JS.Str "1")].

(** A static page. *)
Definition static_page : Minimal.State :=
  SampleSite.state (request "GET" "/about" [("x-matched-path", HString "/about")] [])
                   "/about" [].

(** An instance of a dynamic page, matched to the page itself. *)
Definition dynamic_page : Minimal.State :=
  SampleSite.state (request "GET" "/blog/hello-world"
                      [("x-matched-path", HString "/blog/[slug]")] [])
                   "/blog/hello-world" [].


(** A page requested by its own URL and matched to its data file. *)
Definition matched_to_data : Minimal.State :=
  SampleSite.state (request "GET" "/about"
                      [("x-matched-path", HString "/_next/data/build/about.json")] [])
                   "/about" [].

(** The data file requested by its URL. *)
Definition data_url : Minimal.State :=
  SampleSite.state (request "GET" "/_next/data/build/about.json"
                      [("x-matched-path", HString "/about")] [])
                   "/about" [].

Definition resume_body : list (list byte) :=
  [list_byte_of_string "post"; list_byte_of_string "poned"].

(** The resumption of a postponed render. *)
Definition resume (url : string) (more : list (string * HeaderValue)) : Minimal.State :=
  SampleSite.state (request "POST" url
                      (("x-matched-path", HString "/_next/postponed/resume/about") :: more)
                      resume_body)
                   "/about" [].

(** A request for the dynamic page itself, with the locale in the
    [x-now-route-matches] header. *)
Definition route_matches (query : JS.Object) : Minimal.State :=
  SampleSite.state (request "GET" "/blog/[slug]"
                      [("x-matched-path", HString "/blog/[slug]");
                       ("x-now-route-matches", HString "1=fr")] [])
                   "/blog/[slug]" query.


(** A request without the [x-matched-path] header. *)
Definition unmatched : Minimal.State :=
  SampleSite.state (request "GET" "/about" [] []) "/about" [].

(** A request whose parsed URL has an empty pathname. *)
Definition without_pathname : Minimal.State :=
  SampleSite.state (request "GET" "/about" [("x-matched-path", HString "/about")] [])
                   "" [].

End Samples.


(* ===================================================================== *)
(** * More sample requests                                                *)
(* ===================================================================== *)

Module MoreSamples.
Import Errors Http Eff.

(** A base adapter that fails. *)
Definition failing_base_adapt : M Envelope unit :=
  throw (ThrowError {| message := "Invariant: pathname must be set" |}).

(** An invocation whose query header is not JSON. *)
Definition malformed_invoke_query : Envelope :=
  Samples.envelope
    (Samples.request "GET" "/dashboard?tab=1"
       [("x-invoke-path", HString "/_error");
        ("x-invoke-status", HString "500");
        ("x-invoke-query", HString "not json")] [])
    "/dashboard" [("tab", JS.Str "1"); ("__nextLocale", JS.Str "en")].

(** An invocation whose query header is not a URI component. *)
Definition undecodable_invoke_query : Envelope :=
  Samples.envelope
    (Samples.request "GET" "/dashboard?tab=1"
       [("x-invoke-path", HString "/_error");
        ("x-invoke-query", HString "%")] [])
    "/dashboard" [("tab", JS.Str "1")].

(** An invocation with an empty path. *)
Definition empty_invoke_path : Envelope :=
  Samples.envelope
    (Samples.request "GET" "/dashboard?tab=1"
       [("x-invoke-path", HString ""); ("x-invoke-status", HString "500")] [])
    "/dashboard" [("tab", JS.Str "1")].

(** A failed invocation without a cause. *)
Definition failed_without_cause : Envelope :=
  Samples.envelope
    (Samples.request "GET" "/dashboard?tab=1"
       [("x-invoke-path", HString "/_error"); ("x-invoke-status", HString "404")] [])
    "/dashboard" [("tab", JS.Str "1")].

(** A failed invocation relaying a cause, with a query that overrides an
    internal key of the URL. *)
Definition failed_with_cause (cause : string) : Envelope :=
  Samples.envelope
    (Samples.request "GET" "/dashboard?tab=1"
       [("x-invoke-path", HString "/_error");
        ("x-invoke-status", HString "502");
        ("x-invoke-error", HString cause);
        ("x-invoke-query",
         HString ("{" ++ JS.dq ++ "__nextLocale" ++ JS.dq ++ ":" ++ JS.dq ++ "fr" ++ JS.dq
                      ++ "}"))] [])
    "/dashboard"
    [("tab", JS.Str "1"); ("__nextLocale", JS.Str "en"); ("_nextBubbleNoFallback", JS.Str "1")].

(** A prefetch of the fragment of [/about]. *)
Definition prefetch_request : Minimal.State :=
  SampleSite.state (Samples.request "GET" "/about.prefetch.rsc?x=1"
                      [("x-matched-path", HString "/about.prefetch.rsc")] [])
                   "/about.prefetch.rsc" [("x", JS.Str "1")].

(** A request whose [x-matched-path] header is not a URL that [new URL]
    accepts. *)
Definition bad_matched_path : Minimal.State :=
  SampleSite.state (Samples.request "GET" "/about" [("x-matched-path", HString "//")] [])
                   "/about" [].

(** The cause [{"message":"upstream"}]. *)
Definition upstream_json : string :=
  "{" ++ JS.dq ++ "message" ++ JS.dq ++ ":" ++ JS.dq ++ "upstream" ++ JS.dq ++ "}".

End MoreSamples.

(* ===================================================================== *)
(** * What the minimal-mode adapter may change                            *)
(* ===================================================================== *)

Module Footprint.
Import Errors Http Eff Minimal.

(** The metadata keys that minimal-mode-request-adapter.ts writes (lines
    150-151, 160, 245 and 344). *)
Definition meta_keys : list string :=
  ["isRSCRequest"; "isPrefetchRSCRequest"; "postponed"; "rewroteURL"].

(** The errors of lines 188 and 194. *)
Definition missing_matched_path : Exception :=
  invariant "Invariant: x-matched-path header is not present but we are in minimal mode".
Definition missing_pathname : Exception :=
  invariant "Invariant: pathname must be set".

(** Two states that differ at most in [req.url], in the headers, in the
    parsed URL and in the two fragment entries of the metadata. *)
Definition marking (s s' : State) : Prop :=
  lookups s' = lookups s
  /\ method (the_req s') = method (the_req s)
  /\ body (the_req s') = body (the_req s)
  /\ forall key,
       key <> "isRSCRequest" -> key <> "isPrefetchRSCRequest" ->
       meta (the_req s') !! key = meta (the_req s) !! key.

(** Two states with the same method, headers and body. *)
Definition same_transport (s s' : State) : Prop :=
  method (the_req s') = method (the_req s)
  /\ headers (the_req s') = headers (the_req s)
  /\ body (the_req s') = body (the_req s).

(** Any two states. *)
Definition any (s s' : State) : Prop := True.

(** Two states that differ at most in the query, in the body, which can
    only be emptied, and in the [postponed] entry of the metadata. *)
Definition resuming (s s' : State) : Prop :=
  lookups s' = lookups s
  /\ method (the_req s') = method (the_req s)
  /\ headers (the_req s') = headers (the_req s)
  /\ url (the_req s') = url (the_req s)
  /\ pathname (the_url s') = pathname (the_url s)
  /\ (body (the_req s') = body (the_req s) \/ body (the_req s') = [])
  /\ forall key, key <> "postponed" -> meta (the_req s') !! key = meta (the_req s) !! key.

(** The query that lines 446-457 leave. *)
Definition with_locale (i18n : option Collab.LocaleAnalysisResult)
           (defaultLocale : option string) (q : JS.Object) : JS.Object :=
  if JS.truthy (JS.get "__nextLocale" q) then q
  else if str_truthy (detected i18n)
  then JS.set "__nextLocale" (JS.Str (template_text (detected i18n))) q
  else if str_truthy defaultLocale
  then JS.set "__nextInferredLocaleFromDefault" (JS.Str "1")
         (JS.set "__nextLocale" (JS.Str (template_text defaultLocale)) q)
  else q.

(** The request that lines 433-438 leave. *)
Definition with_vercel_url (utils : Collab.Utils) (pageIsDynamic didRewrite : bool)
           (rewriteParamKeys : list string) (r : BaseNextRequest) : BaseNextRequest :=
  if pageIsDynamic || didRewrite
  then set_url (Collab.normalizeVercelUrl utils r true
                  (rewriteParamKeys ++
                   match Collab.defaultRouteRegex_groups utils with
                   | Some groups => groups
                   | None => []
                   end)) r
  else r.

(** What a whole run may change outside [req.url], the headers and the
    parsed URL: the body can only be emptied, the metadata can only change
    at the keys the adapter writes, and the record of route-matcher queries
    can only grow, by one query at most. *)
Definition within (s s' : State) : Prop :=
  method (the_req s') = method (the_req s)
  /\ (body (the_req s') = body (the_req s) \/ body (the_req s') = [])
  /\ (forall key, ~ In key meta_keys ->
                  meta (the_req s') !! key = meta (the_req s) !! key)
  /\ exists more, lookups s' = (lookups s ++ more)%list /\ List.length more <= 1.

End Footprint.

(* ===================================================================== *)
(** * Facts about objects                                                 *)
(* ===================================================================== *)

Module JSFacts.

Lemma insert_by_index_In (x y : N * string) (l : list (N * string)) :
  In y (JS.insert_by_index x l) <-> y = x \/ In y l.
Proof.
  induction l as [|z l IH]; simpl.
  - intuition.
  - destruct (fst x <=? fst z)%N; simpl; [intuition|].
    rewrite IH. intuition.
Qed.

Lemma sorted_index_keys_In (y : N * string) (l : list (N * string)) :
  In y (fold_right JS.insert_by_index [] l) <-> In y l.
Proof.
  induction l as [|z l IH]; simpl; [tauto|].
  rewrite insert_by_index_In, IH. intuition.
Qed.

(** Every property of an object is listed by [Object.keys]. *)
Lemma keys_complete (k : string) (v : JS.Value) (o : JS.Object) :
  In (k, v) o -> In k (JS.keys o).
Proof.
  intros Hin. unfold JS.keys. apply in_or_app.
  destruct (JS.array_index k) as [n|] eqn:Hk.
  - left. apply (in_map_iff snd). exists (n, k). split; [reflexivity|].
    apply sorted_index_keys_In. unfold JS.index_keys.
    apply in_flat_map. exists (k, v). split; [exact Hin|].
    simpl. rewrite Hk. now left.
  - right. apply filter_In. split.
    + apply (in_map_iff fst). exists (k, v). now split.
    + now rewrite Hk.
Qed.

Lemma delete_filter (k : string) (o : JS.Object) :
  JS.delete k o = List.filter (fun kv => negb (String.eqb k (fst kv))) o.
Proof.
  induction o as [|[k' v'] o IH]; simpl; [reflexivity|].
  destruct (String.eqb k k'); simpl; now rewrite IH.
Qed.

Lemma filter_filter {A : Type} (f g : A -> bool) (l : list A) :
  List.filter f (List.filter g l) = List.filter (fun x => g x && f x) l.
Proof.
  induction l as [|x l IH]; simpl; [reflexivity|].
  destruct (g x); simpl; [destruct (f x)|]; now rewrite IH.
Qed.

Lemma filter_all {A : Type} (f : A -> bool) (l : list A) :
  (forall x, In x l -> f x = true) -> List.filter f l = l.
Proof.
  induction l as [|x l IH]; simpl; intros H; [reflexivity|].
  rewrite (H x) by now left. f_equal. apply IH. intros y Hy. apply H. now right.
Qed.

Lemma get_set_eq (k : string) (v : JS.Value) (o : JS.Object) :
  JS.get k (JS.set k v o) = v.
Proof.
  induction o as [|[k' v'] o IH]; simpl.
  - now rewrite String.eqb_refl.
  - destruct (String.eqb k k') eqn:E; simpl; rewrite ?String.eqb_refl, ?E; auto.
Qed.

Lemma get_set_ne (k k' : string) (v : JS.Value) (o : JS.Object) :
  k <> k' -> JS.get k (JS.set k' v o) = JS.get k o.
Proof.
  intros Hne. apply String.eqb_neq in Hne.
  induction o as [|[k2 v2] o IH]; simpl.
  - now rewrite Hne.
  - destruct (String.eqb k' k2) eqn:E; simpl.
    + apply String.eqb_eq in E. subst k2. now rewrite Hne.
    + now rewrite IH.
Qed.

Lemma get_delete_ne (k k' : string) (o : JS.Object) :
  k <> k' -> JS.get k (JS.delete k' o) = JS.get k o.
Proof.
  intros Hne. apply String.eqb_neq in Hne.
  induction o as [|[k2 v2] o IH]; simpl; [reflexivity|].
  destruct (String.eqb k' k2) eqn:E; simpl.
  - apply String.eqb_eq in E. subst k2. now rewrite Hne.
  - now rewrite IH.
Qed.

Lemma has_set_ne (k k' : string) (v : JS.Value) (o : JS.Object) :
  k <> k' -> JS.has k (JS.set k' v o) = JS.has k o.
Proof.
  intros Hne. apply String.eqb_neq in Hne.
  induction o as [|[k2 v2] o IH]; simpl.
  - now rewrite Hne.
  - destruct (String.eqb k' k2) eqn:E; simpl.
    + apply String.eqb_eq in E. subst k2. reflexivity.
    + now rewrite IH.
Qed.

Lemma has_delete_eq (k : string) (o : JS.Object) :
  JS.has k (JS.delete k o) = false.
Proof.
  induction o as [|[k' v'] o IH]; simpl; [reflexivity|].
  destruct (String.eqb k k') eqn:E; simpl; rewrite ?E; auto.
Qed.

Lemma has_In (k : string) (o : JS.Object) :
  JS.has k o = true <-> In k (map fst o).
Proof.
  induction o as [|[k' v'] o IH]; simpl; [split; [discriminate | tauto]|].
  rewrite orb_true_iff, IH, String.eqb_eq. intuition.
Qed.

(** [Object.keys] lists properties only. *)
Lemma keys_has (k : string) (o : JS.Object) :
  In k (JS.keys o) -> JS.has k o = true.
Proof.
  intros Hin. apply has_In. unfold JS.keys in Hin.
  apply in_app_or in Hin as [Hin|Hin].
  - apply (in_map_iff snd) in Hin as ([n k'] & <- & Hin).
    apply (proj1 (sorted_index_keys_In _ _)) in Hin. unfold JS.index_keys in Hin.
    apply (proj1 (in_flat_map _ _ _)) in Hin as ([k2 v2] & Hin & Hk). simpl in Hk.
    destruct (JS.array_index k2); [|contradiction].
    destruct Hk as [Hk|[]]. injection Hk as _ <-.
    apply (in_map_iff fst). exists (k2, v2). now split.
  - now apply filter_In in Hin as [Hin _].
Qed.


End JSFacts.


(* ===================================================================== *)
(** * Facts about the adapter monad                                       *)
(* ===================================================================== *)

Module EffFacts.
Import Errors Eff.

Lemma returns_bind {S A B : Type} (m : M S A) (k : A -> M S B) (s : S)
      (Q : B -> S -> Prop) :
  returns m s (fun a s' => returns (k a) s' Q) -> returns (bind m k) s Q.
Proof. unfold returns, bind. destruct (m s); auto. Qed.

Lemma returns_ret {S A : Type} (a : A) (s : S) (Q : A -> S -> Prop) :
  Q a s -> returns (ret a) s Q.
Proof. auto. Qed.

Lemma returns_gets {S A : Type} (f : S -> A) (s : S) (Q : A -> S -> Prop) :
  Q (f s) s -> returns (gets f) s Q.
Proof. auto. Qed.

Lemma returns_modify {S : Type} (f : S -> S) (s : S) (Q : unit -> S -> Prop) :
  Q tt (f s) -> returns (modify f) s Q.
Proof. auto. Qed.

Lemma returns_mono {S A : Type} (m : M S A) (s : S) (Q Q' : A -> S -> Prop) :
  returns m s Q -> (forall a s', Q a s' -> Q' a s') -> returns m s Q'.
Proof. unfold returns. destruct (m s); auto. Qed.

Lemma returns_eq {S A : Type} (m : M S A) (s s' : S) (a : A) (Q : A -> S -> Prop) :
  m s = Returned a s' -> Q a s' -> returns m s Q.
Proof. unfold returns. now intros ->. Qed.

Section Preserves.
Context {S : Type} (R : S -> S -> Prop) `{!PreOrder R}.

Lemma preserves_ret {A : Type} (a : A) : preserves R (ret a).
Proof. intros s. unfold returns. simpl. reflexivity. Qed.

Lemma preserves_gets {A : Type} (f : S -> A) : preserves R (gets f).
Proof. intros s. unfold returns. simpl. reflexivity. Qed.

Lemma preserves_bind {A B : Type} (m : M S A) (k : A -> M S B) :
  preserves R m -> (forall a, preserves R (k a)) -> preserves R (bind m k).
Proof.
  intros Hm Hk s. unfold returns, bind.
  specialize (Hm s). unfold returns in Hm.
  destruct (m s) as [a s1|]; [|contradiction].
  specialize (Hk a s1). unfold returns in Hk.
  destruct (k a s1); [|contradiction].
  etransitivity; eauto.
Qed.

Lemma preserves_when (c : bool) (m : M S unit) :
  preserves R m -> preserves R (when c m).
Proof. intros Hm. destruct c; [exact Hm | apply preserves_ret]. Qed.

Lemma preserves_for_of {A : Type} (l : list A) (body : A -> M S unit) :
  (forall x, preserves R (body x)) -> preserves R (for_of l body).
Proof.
  intros Hbody. induction l as [|x l IH]; simpl; [apply preserves_ret|].
  apply preserves_bind; auto.
Qed.

End Preserves.

Lemma returns_preserves {S A : Type} (R : S -> S -> Prop) (m : M S A) (s : S)
      (Q : A -> S -> Prop) :
  preserves R m -> (forall a s', R s s' -> Q a s') -> returns m s Q.
Proof. intros Hm HQ. eapply returns_mono; [apply Hm|]. auto. Qed.

Lemma bind_returned {S A B : Type} (m : M S A) (k : A -> M S B) (s s' : S) (a : A) :
  m s = Returned a s' -> bind m k s = k a s'.
Proof. unfold bind. now intros ->. Qed.

Lemma bind_threw {S A B : Type} (m : M S A) (k : A -> M S B) (s s' : S) (e : Exception) :
  m s = Threw e s' -> bind m k s = Threw e s'.
Proof. unfold bind. now intros ->. Qed.

End EffFacts.

(* ===================================================================== *)
(** * Facts about internal-request-adapter.ts                             *)
(* ===================================================================== *)

Module InternalFacts.
Import Errors Http Eff Platform Internal.

Section Facts.
Variable B : Builtins.
Variable super_adapt : M Envelope unit.

Lemma envelope_eta (s : Envelope) :
  with_parsedURL (fun u => set_query (query u) u) s = s.
Proof. destruct s as [r [p q]]. reflexivity. Qed.

(** What the stripping loop does over a list of keys. *)
Lemma strip_loop (ks : list string) (s : Envelope) :
  for_of ks (fun key =>
       when (negb (String.prefix "__next" key) && negb (String.prefix "_next" key))
            (modify_query (JS.delete key))) s
  = Returned tt
      (with_parsedURL
         (fun u => set_query
            (List.filter (fun kv => is_internal_key (fst kv)
                                    || negb (existsb (String.eqb (fst kv)) ks))
                         (query u)) u) s).
Proof.
  revert s. induction ks as [|k ks IH]; intros s; simpl.
  - unfold ret. f_equal. rewrite <- (envelope_eta s) at 1.
    destruct s as [r [p q]]. unfold with_parsedURL, set_query. simpl. do 2 f_equal.
    symmetry. apply JSFacts.filter_all. intros x _. apply orb_true_r.
  - unfold bind, when.
    destruct (negb (String.prefix "__next" k) && negb (String.prefix "_next" k)) eqn:Hk.
    + unfold modify_query at 1, modify. rewrite IH.
      destruct s as [r [p q]]. unfold with_parsedURL, set_query. simpl. do 3 f_equal.
      rewrite JSFacts.delete_filter, JSFacts.filter_filter.
      apply filter_ext. intros [k' v']. simpl. unfold is_internal_key.
      destruct (String.eqb k k') eqn:E.
      * apply String.eqb_eq in E. subst k'. rewrite String.eqb_refl. simpl.
        apply andb_true_iff in Hk as [H1 H2].
        apply negb_true_iff in H1, H2. now rewrite H1, H2.
      * rewrite String.eqb_sym, E. reflexivity.
    + unfold ret. rewrite IH.
      destruct s as [r [p q]]. unfold with_parsedURL, set_query. simpl. do 3 f_equal.
      apply filter_ext. intros [k' v']. simpl. unfold is_internal_key.
      destruct (String.eqb k' k) eqn:E; [|reflexivity].
      apply String.eqb_eq in E. subst k'. simpl.
      rewrite orb_false_r.
      destruct (String.prefix "__next" k), (String.prefix "_next" k); simpl in *;
        congruence.
Qed.

(** The stripping loop keeps exactly the internal keys. *)
Lemma strip_query_spec (s : Envelope) :
  strip_query s
  = Returned tt (with_parsedURL (fun u => set_query (stripped (query u)) u) s).
Proof.
  unfold strip_query, bind, gets. rewrite strip_loop.
  destruct s as [r [p q]]. unfold with_parsedURL, set_query, stripped. simpl. do 3 f_equal.
  apply filter_ext_in. intros [k v] Hin. simpl.
  assert (Hk : existsb (String.eqb k) (JS.keys q) = true).
  { apply existsb_exists. exists k. split; [|apply String.eqb_refl].
    eapply JSFacts.keys_complete; eauto. }
  rewrite Hk. apply orb_false_r.
Qed.

(** The query once stripped and merged with the [x-invoke-query] header. *)
Lemma merge_invoke_query (s : Envelope) (merged : JS.Value) :
  invoke_query_is B (headers (req s)) merged ->
  (match headers (req s) !! "x-invoke-query" with
   | Some (HString invokeQuery) =>
       decoded <- or_throw ThrowURIError (decodeURIComponent B invokeQuery) ;;
       parsed <- or_throw ThrowSyntaxError (JSON_parse B decoded) ;;
       modify_query (fun q => JS.assign q parsed)
   | _ => ret tt
   end)%eff s
  = Returned tt (with_parsedURL (fun u => set_query (JS.assign (query u) merged) u) s).
Proof.
  unfold invoke_query_is. intros H.
  destruct (headers (req s) !! "x-invoke-query") as [[h|l]|].
  - destruct H as (d & Hd & Hp). unfold bind. rewrite Hd. simpl. rewrite Hp. reflexivity.
  - subst merged. unfold ret. now rewrite <- (envelope_eta s) at 1.
  - subst merged. unfold ret. now rewrite <- (envelope_eta s) at 1.
Qed.

(** The header read by [header]. *)
Lemma header_returned (name : string) (s : Envelope) :
  header name s = Returned (headers (req s) !! name) s.
Proof. reflexivity. Qed.

(** With a path to invoke, [adapt] strips and merges the query and goes on
    with the status. *)
Lemma adapt_invoked (s : Envelope) (invokePath : string) (merged : JS.Value) :
  headers (req s) !! "x-invoke-path" = Some (HString invokePath) ->
  invokePath <> "" ->
  invoke_query_is B (headers (req s)) merged ->
  adapt B super_adapt s
  = (status <- header "x-invoke-status" ;;
     match status with
     | Some (HString status) =>
         let statusCode := Number B status in
         error <- header "x-invoke-error" ;;
         let cause := match error with
                      | Some (HString error) => Some (parse_cause B error)
                      | _ => None
                      end in
         q <- gets (fun e => query (parsedURL e)) ;;
         throw (ThrowInvokeError
                  {| statusCode := statusCode; cause := cause; Errors.query := q |})
     | _ =>
         originalPathname <- gets (fun e => pathname (parsedURL e)) ;;
         when (str_neq originalPathname (Some invokePath))
              (modify (with_parsedURL (set_pathname (Some invokePath)))) ;;
         super_adapt ;;
         p <- gets (fun e => pathname (parsedURL e)) ;;
         when (str_neq originalPathname p)
              (modify (with_req (addRequestMeta "rewroteURL" (meta_of_pathname p))))
     end)%eff
      (with_parsedURL
         (fun u => set_query (JS.assign (stripped (query u)) merged) u) s).
Proof.
  intros Hpath Hne Hq. unfold adapt.
  erewrite EffFacts.bind_returned by apply header_returned.
  rewrite Hpath. apply String.eqb_neq in Hne. rewrite Hne.
  erewrite EffFacts.bind_returned by apply strip_query_spec.
  erewrite EffFacts.bind_returned by apply header_returned.
  erewrite EffFacts.bind_returned by (apply merge_invoke_query; exact Hq).
  destruct s as [r [p q]]. reflexivity.
Qed.

(** C10.  When the [x-invoke-path] header is absent or is not a string
    (an array of values), [InternalRequestAdapter.adapt] returns at once:
    no error is raised and the request (its metadata included) and the
    parsed URL (pathname and query) are left as they were, whatever the
    other headers, [x-invoke-status] and [x-invoke-error] included. *)
Theorem adapt_without_invoke_path (s : Envelope) :
  (headers (req s) !! "x-invoke-path" = None
   \/ exists l, headers (req s) !! "x-invoke-path" = Some (HArray l)) ->
  adapt B super_adapt s = Returned tt s.
Proof.
  intros H. unfold adapt.
  erewrite EffFacts.bind_returned by apply header_returned.
  destruct H as [-> | [l ->]]; reflexivity.
Qed.

(** C1, as amended.  When the [x-invoke-path] header is a non-empty
    string, the [x-invoke-status] header is ["500"], the [x-invoke-error]
    header is [{"message":"boom"}] and the [x-invoke-query] header, if it
    is a string, decodes and parses, [adapt] throws an [InvokeError] whose
    status code is 500 and whose cause has the message ["boom"].  The query
    it carries, which is also the query of the parsed URL at the throw, is
    the original one without its non-internal keys, merged with the
    [x-invoke-query] value; nothing else has changed and the base adapter
    plays no part. *)
Theorem invoke_error_short_circuit (s : Envelope) (invokePath : string) (merged : JS.Value) :
  headers (req s) !! "x-invoke-path" = Some (HString invokePath) ->
  invokePath <> "" ->
  headers (req s) !! "x-invoke-status" = Some (HString "500") ->
  headers (req s) !! "x-invoke-error" = Some (HString boom_json) ->
  Number B "500" = JS.number_of_Z 500 ->
  JSON_parse B boom_json = Some (JS.Obj [("message", JS.Str "boom")]) ->
  invoke_query_is B (headers (req s)) merged ->
  adapt B super_adapt s
  = Threw (ThrowInvokeError
             {| statusCode := JS.number_of_Z 500;
                cause := Some {| message := "boom" |};
                Errors.query := JS.assign (stripped (query (parsedURL s))) merged |})
          {| req := req s;
             parsedURL :=
               {| pathname := pathname (parsedURL s);
                  query := JS.assign (stripped (query (parsedURL s))) merged |} |}.
Proof.
  intros Hpath Hne Hstatus Herror Hnum Hjson Hq.
  rewrite (adapt_invoked s invokePath merged Hpath Hne Hq).
  erewrite EffFacts.bind_returned by apply header_returned.
  simpl. rewrite Hstatus.
  erewrite EffFacts.bind_returned by apply header_returned.
  simpl. rewrite Herror. unfold parse_cause. rewrite Hjson, Hnum. reflexivity.
Qed.

(** C8, as amended.  When the [x-invoke-path] header is a non-empty
    string, the [x-invoke-status] header is a string, the [x-invoke-error]
    header is a string that [JSON.parse] rejects and the [x-invoke-query]
    header, if it is a string, decodes and parses, [adapt] throws an
    [InvokeError] whose cause is an [Error] with the empty message: the
    syntax error of the cause is not propagated. *)
Theorem malformed_cause_degrades (s : Envelope) (invokePath status error : string)
        (merged : JS.Value) :
  headers (req s) !! "x-invoke-path" = Some (HString invokePath) ->
  invokePath <> "" ->
  headers (req s) !! "x-invoke-status" = Some (HString status) ->
  headers (req s) !! "x-invoke-error" = Some (HString error) ->
  JSON_parse B error = None ->
  invoke_query_is B (headers (req s)) merged ->
  adapt B super_adapt s
  = Threw (ThrowInvokeError
             {| statusCode := Number B status;
                cause := Some {| message := "" |};
                Errors.query := JS.assign (stripped (query (parsedURL s))) merged |})
          {| req := req s;
             parsedURL :=
               {| pathname := pathname (parsedURL s);
                  query := JS.assign (stripped (query (parsedURL s))) merged |} |}.
Proof.
  intros Hpath Hne Hstatus Herror Hjson Hq.
  rewrite (adapt_invoked s invokePath merged Hpath Hne Hq).
  erewrite EffFacts.bind_returned by apply header_returned.
  simpl. rewrite Hstatus.
  erewrite EffFacts.bind_returned by apply header_returned.
  simpl. rewrite Herror. unfold parse_cause. rewrite Hjson. reflexivity.
Qed.

End Facts.

(** The sample request without a path to invoke is left alone. *)
Lemma adapt_without_invoke_path_witness :
  adapt SamplePlatform.builtins Samples.base_adapt Samples.repeated_invoke_path
  = Returned tt Samples.repeated_invoke_path.
Proof.
  apply (adapt_without_invoke_path SamplePlatform.builtins Samples.base_adapt
           Samples.repeated_invoke_path).
  right. exists ["/a"; "/b"]. reflexivity.
Defined.

(** The sample failed invocation: status 500, cause "boom", and the query
    keeps [__nextLocale], loses [tab] and gains [page]. *)
Lemma invoke_error_short_circuit_witness :
  adapt SamplePlatform.builtins Samples.base_adapt Samples.failed_invocation
  = Threw (ThrowInvokeError
             {| statusCode := JS.number_of_Z 500;
                cause := Some {| message := "boom" |};
                Errors.query := [("__nextLocale", JS.Str "en"); ("page", JS.Str "2")] |})
          {| req := req Samples.failed_invocation;
             parsedURL :=
               {| pathname := Some "/dashboard";
                  query := [("__nextLocale", JS.Str "en"); ("page", JS.Str "2")] |} |}.
Proof.
  refine (invoke_error_short_circuit SamplePlatform.builtins Samples.base_adapt
            Samples.failed_invocation "/_error" (JS.Obj [("page", JS.Str "2")])
            _ _ _ _ _ _ _).
  - reflexivity.
  - discriminate.
  - reflexivity.
  - reflexivity.
  - reflexivity.
  - reflexivity.
  - unfold invoke_query_is. simpl. eexists. split; reflexivity.
Defined.

(** The claim C1 as stated fails: with the status and the error headers
    but no [x-invoke-path], nothing is thrown and nothing changes. *)
Lemma invoke_error_needs_invoke_path :
  headers (req Samples.failed_without_path) !! "x-invoke-status" = Some (HString "500")
  /\ headers (req Samples.failed_without_path) !! "x-invoke-error"
     = Some (HString boom_json)
  /\ adapt SamplePlatform.builtins Samples.base_adapt Samples.failed_without_path
     = Returned tt Samples.failed_without_path.
Proof. repeat split; reflexivity. Qed.

(** The sample invocation with a malformed cause: the cause has the empty
    message. *)
Lemma malformed_cause_degrades_witness :
  adapt SamplePlatform.builtins Samples.base_adapt Samples.failed_malformed
  = Threw (ThrowInvokeError
             {| statusCode := JS.number_of_Z 503;
                cause := Some {| message := "" |};
                Errors.query := [] |})
          {| req := req Samples.failed_malformed;
             parsedURL := {| pathname := Some "/dashboard"; query := [] |} |}.
Proof.
  refine (malformed_cause_degrades SamplePlatform.builtins Samples.base_adapt
            Samples.failed_malformed "/_error" "503" "not json" JS.Undefined
            _ _ _ _ _ _).
  - reflexivity.
  - discriminate.
  - reflexivity.
  - reflexivity.
  - reflexivity.
  - reflexivity.
Defined.

(** The claim C8 as stated fails: a malformed cause without an
    [x-invoke-path] header raises nothing at all. *)
Lemma malformed_cause_needs_invoke_path :
  headers (req Samples.malformed_without_path) !! "x-invoke-status" = Some (HString "503")
  /\ headers (req Samples.malformed_without_path) !! "x-invoke-error"
     = Some (HString "not json")
  /\ SamplePlatform.JSON_parse "not json" = None
  /\ adapt SamplePlatform.builtins Samples.base_adapt Samples.malformed_without_path
     = Returned tt Samples.malformed_without_path.
Proof. repeat split; reflexivity. Qed.

End InternalFacts.

(* ===================================================================== *)
(** * Facts about minimal-mode-request-adapter.ts                         *)
(* ===================================================================== *)

Module MinimalFacts.
Import Errors Http Eff Platform Minimal.

Section Facts.
Variable B : Builtins.
Variable I : Collab.Imports.
Variable this : MinimalRequestAdapter.

Lemma state_header_returned (name : string) (s : State) :
  header name s = Returned (headers (the_req s) !! name) s.
Proof. reflexivity. Qed.

(** C9.  [MinimalRequestAdapter.adapt] throws an [Error] (not an
    [InvokeError]) carrying an invariant message, and leaves the request,
    the parsed URL and the route matcher untouched, whenever the
    [x-matched-path] header is absent or is not a string, and whenever the
    parsed pathname is empty ([null] or the empty string); and so does
    [attachRSCRequestMetadata] when the parsed pathname is empty. *)
Theorem invariant_violations (s : State) :
  ((headers (the_req s) !! "x-matched-path" = None
    \/ exists l, headers (the_req s) !! "x-matched-path" = Some (HArray l)) ->
   adapt B I this s
   = Threw (ThrowError
              {| message :=
                   "Invariant: x-matched-path header is not present but we are in minimal mode" |})
           s)
  /\ (str_truthy (pathname (the_url s)) = false ->
      exists msg, adapt B I this s = Threw (ThrowError {| message := msg |}) s)
  /\ (str_truthy (pathname (the_url s)) = false ->
      attachRSCRequestMetadata I this s
      = Threw (ThrowError {| message := "Invariant: pathname is required" |}) s).
Proof.
  split; [|split].
  - intros H. unfold adapt.
    apply EffFacts.bind_threw. unfold check_invariants.
    erewrite EffFacts.bind_returned by apply state_header_returned.
    destruct H as [-> | [l ->]]; reflexivity.
  - intros H. unfold adapt, check_invariants.
    destruct (headers (the_req s) !! "x-matched-path") as [[h|l]|] eqn:Hh.
    + destruct (String.eqb h "") eqn:He.
      * eexists. apply EffFacts.bind_threw.
        erewrite EffFacts.bind_returned by apply state_header_returned.
        rewrite Hh, He. reflexivity.
      * eexists. apply EffFacts.bind_threw.
        erewrite EffFacts.bind_returned by apply state_header_returned.
        rewrite Hh, He. unfold bind, gets. rewrite H. reflexivity.
    + eexists. apply EffFacts.bind_threw.
      erewrite EffFacts.bind_returned by apply state_header_returned.
      rewrite Hh. reflexivity.
    + eexists. apply EffFacts.bind_threw.
      erewrite EffFacts.bind_returned by apply state_header_returned.
      rewrite Hh. reflexivity.
  - intros H. unfold attachRSCRequestMetadata, bind, gets.
    destruct (pathname (the_url s)) as [p|]; [|reflexivity].
    simpl in H. apply negb_false_iff in H. rewrite H. reflexivity.
Qed.

#[local] Instance same_lookups_preorder : PreOrder same_lookups.
Proof.
  split; [intros s; reflexivity|].
  intros s1 s2 s3 H1 H2. unfold same_lookups in *. congruence.
Qed.

#[local] Instance same_request_preorder : PreOrder same_request.
Proof.
  split; [intros s; repeat split|].
  intros s1 s2 s3 H1 H2. unfold same_request in *. intuition congruence.
Qed.

Lemma same_lookups_modify (f : Envelope -> Envelope) :
  preserves same_lookups (modify (with_env f)).
Proof. intros s. reflexivity. Qed.



(** Steps through a computation built from the monad's operations; [leaf]
    deals with the state updates. *)
Ltac frame_with leaf :=
  repeat lazymatch goal with
    | |- preserves _ (ret _) => refine (EffFacts.preserves_ret _ _)
    | |- preserves _ (gets _) => refine (EffFacts.preserves_gets _ _)
    | |- preserves _ (header _) => refine (EffFacts.preserves_gets _ _)
    | |- preserves _ (when _ _) => refine (EffFacts.preserves_when _ _ _ _)
    | |- preserves _ (for_of _ _) => refine (EffFacts.preserves_for_of _ _ _ _); intros ?
    | |- preserves _ (bind _ _) => refine (EffFacts.preserves_bind _ _ _ _ _); [|intros ?]
    | |- preserves _ (modify_query _) => unfold modify_query
    | |- preserves _ (match ?x with _ => _ end) => destruct x
    | |- _ => leaf
    end.

Section Frames.
Context (R : State -> State -> Prop) `{!PreOrder R}.
Hypothesis R_parsedURL : forall f, preserves R (modify_parsedURL f).
Hypothesis R_url : forall u, preserves R (modify_req (set_url u)).

Ltac frameR := frame_with ltac:(first [apply R_parsedURL | apply R_url]).

Lemma frame_apply_locale (r : option Collab.LocaleAnalysisResult) :
  preserves R (apply_locale r).
Proof. unfold apply_locale, modify_query. frameR. Qed.

Lemma frame_prefix_default_locale (d : option string) (i18n : option Collab.LocaleAnalysisResult) :
  preserves R (prefix_default_locale d i18n).
Proof. unfold prefix_default_locale. frameR. Qed.

Lemma frame_normalize_query_keys : preserves R (normalize_query_keys I).
Proof. unfold normalize_query_keys, modify_query. frameR. Qed.

Lemma frame_params_from_route_matches (utils : Collab.Utils) (matchedPath : string)
      (paramsResult : Collab.ParamsResult) (params : JS.Object) :
  preserves R (params_from_route_matches I utils matchedPath paramsResult params).
Proof. unfold params_from_route_matches, header, modify_query. frameR. Qed.

Lemma frame_interpolate_params (utils : Collab.Utils) (pageIsDynamic : bool)
      (srcPathname normalizedUrlPath matchedPath : string) :
  preserves R (interpolate_params I utils pageIsDynamic srcPathname normalizedUrlPath
                 matchedPath).
Proof.
  unfold interpolate_params. frameR. apply frame_params_from_route_matches.
Qed.

Lemma frame_ensure_locale (i18n : option Collab.LocaleAnalysisResult) (d : option string) :
  preserves R (ensure_locale i18n d).
Proof. unfold ensure_locale, modify_query. frameR. Qed.

Lemma frame_finish (utils : Collab.Utils) (pageIsDynamic didRewrite : bool)
      (rewriteParamKeys routeParamKeys : list string) (matchedPath : string)
      (i18n : option Collab.LocaleAnalysisResult) (d : option string) :
  preserves R (finish utils pageIsDynamic didRewrite rewriteParamKeys routeParamKeys
                 matchedPath i18n d).
Proof. unfold finish, modify_query. frameR. apply frame_ensure_locale. Qed.

Lemma frame_adapt_interpolate (utils : Collab.Utils)
      (i18n : option Collab.LocaleAnalysisResult) (d : option string)
      (normalizedUrlPath matchedPath srcPathname : string)
      (pageIsDynamic didRewrite : bool) (rewriteParamKeys routeParamKeys : list string) :
  preserves R (adapt_interpolate I utils i18n d normalizedUrlPath matchedPath srcPathname
                 pageIsDynamic didRewrite rewriteParamKeys routeParamKeys).
Proof.
  unfold adapt_interpolate. refine (EffFacts.preserves_bind _ _ _ _ _); [|intros ?].
  - apply frame_interpolate_params.
  - apply frame_finish.
Qed.

Lemma frame_adapt_params (utils : Collab.Utils)
      (i18n : option Collab.LocaleAnalysisResult) (d : option string)
      (normalizedUrlPath matchedPath srcPathname : string)
      (pageIsDynamic didRewrite : bool) (rewriteParamKeys : list string) :
  preserves R (adapt_params I utils i18n d normalizedUrlPath matchedPath srcPathname
                 pageIsDynamic didRewrite rewriteParamKeys).
Proof.
  unfold adapt_params. refine (EffFacts.preserves_bind _ _ _ _ _); [|intros ?].
  - apply frame_normalize_query_keys.
  - apply frame_adapt_interpolate.
Qed.

End Frames.

Lemma same_lookups_parsedURL (f : NextUrlWithParsedQuery -> NextUrlWithParsedQuery) :
  preserves same_lookups (modify_parsedURL f).
Proof. apply same_lookups_modify. Qed.

Lemma same_lookups_req (f : BaseNextRequest -> BaseNextRequest) :
  preserves same_lookups (modify_req f).
Proof. apply same_lookups_modify. Qed.

(** No stage from the rewrites on queries the route matcher. *)
Lemma same_lookups_adapt_rewrites (i18n : option Collab.LocaleAnalysisResult)
      (d : option string) (normalizedUrlPath matchedPath srcPathname : string)
      (pageIsDynamic : bool) :
  preserves same_lookups
    (adapt_rewrites I this i18n d normalizedUrlPath matchedPath srcPathname pageIsDynamic).
Proof.
  unfold adapt_rewrites, apply_rewrites.
  frame_with ltac:(first [ apply same_lookups_parsedURL
                         | apply same_lookups_req
                         | apply frame_prefix_default_locale
                         | apply frame_adapt_params ]);
    first [ typeclasses eauto
          | intros; apply same_lookups_parsedURL
          | intros; apply same_lookups_req ].
Qed.

(** The route lookup of lines 296-310, for a path with dynamic segments. *)
Lemma resolve_source_dynamic (matchedPath : string)
      (localeAnalysisResult : option Collab.LocaleAnalysisResult) (s : State) :
  Collab.isDynamicRoute I matchedPath = true ->
  resolve_source I this matchedPath localeAnalysisResult s = Returned (matchedPath, true) s.
Proof. intros H. unfold resolve_source. rewrite H. reflexivity. Qed.

(** The route lookup of lines 296-310, for a path without dynamic
    segments. *)
Lemma resolve_source_static (matchedPath : string)
      (localeAnalysisResult : option Collab.LocaleAnalysisResult) (s : State) :
  Collab.isDynamicRoute I matchedPath = false ->
  resolve_source I this matchedPath localeAnalysisResult s
  = Returned
      match Collab.matchers_match (matchers this) matchedPath localeAnalysisResult with
      | Some m => (Collab.definition_pathname m,
                   match Collab.params m with Some _ => true | None => false end)
      | None => (matchedPath, false)
      end
      {| env := env s; lookups := lookups s ++ [(matchedPath, localeAnalysisResult)] |}.
Proof.
  intros H. unfold resolve_source, matchers_match, bind. rewrite H. simpl.
  destruct (Collab.matchers_match (matchers this) matchedPath localeAnalysisResult);
    reflexivity.
Qed.

(** C2, as amended.  The route matcher is queried exactly when the
    denormalized matched path has NO dynamic segments.  For a path with
    dynamic segments lines 296-310 keep it as the source pathname, keep the
    page dynamic and make no query.  For a path without dynamic segments
    they query the route matcher once, with that pathname and the locale
    analysis; on a match the source pathname becomes the match's definition
    pathname and the page is dynamic exactly when the match carries
    parameters, and without a match the path stays the static source
    pathname.  From line 256 to the end of [adapt] this is the only query:
    none when the denormalized, shape-normalized path of the
    [x-matched-path] header is dynamic, one otherwise. *)
Theorem route_lookup_only_for_static (matchedPath : string)
        (localeAnalysisResult : option Collab.LocaleAnalysisResult) (s : State) :
  (Collab.isDynamicRoute I matchedPath = true ->
   resolve_source I this matchedPath localeAnalysisResult s = Returned (matchedPath, true) s)
  /\ (Collab.isDynamicRoute I matchedPath = false ->
      resolve_source I this matchedPath localeAnalysisResult s
      = Returned
          match Collab.matchers_match (matchers this) matchedPath localeAnalysisResult with
          | Some m => (Collab.definition_pathname m,
                       match Collab.params m with Some _ => true | None => false end)
          | None => (matchedPath, false)
          end
          {| env := env s; lookups := lookups s ++ [(matchedPath, localeAnalysisResult)] |})
  /\ (forall i18n headerPath urlPathname,
        let candidate := Collab.denormalizePagePath I (normalize this headerPath) in
        returns (adapt_resolve I this i18n headerPath urlPathname) s
          (fun _ s' =>
             lookups s'
             = (lookups s
                ++ (if Collab.isDynamicRoute I candidate then []
                    else [(candidate,
                           analyze_matched this (normalize this headerPath)
                             (default_locale_of I this s))]))%list)).
Proof.
  split; [apply resolve_source_dynamic|].
  split; [apply resolve_source_static|].
  intros i18n headerPath urlPathname candidate. unfold adapt_resolve.
  apply EffFacts.returns_bind. apply EffFacts.returns_gets.
  apply EffFacts.returns_bind.
  eapply (EffFacts.returns_preserves same_lookups);
    [apply frame_apply_locale;
     first [ typeclasses eauto
           | intros; apply same_lookups_parsedURL
           | intros; apply same_lookups_req ]|].
  intros _ s1 H1. apply EffFacts.returns_bind. fold candidate.
  destruct (Collab.isDynamicRoute I candidate) eqn:Hdyn.
  - eapply EffFacts.returns_eq; [apply resolve_source_dynamic, Hdyn|].
    eapply (EffFacts.returns_preserves same_lookups);
      [apply same_lookups_adapt_rewrites|].
    intros _ s2 H2. unfold same_lookups in *. rewrite H2, H1. now rewrite app_nil_r.
  - eapply EffFacts.returns_eq; [apply resolve_source_static, Hdyn|].
    match goal with
    | |- context [match ?m with Some _ => _ | None => _ end] => destruct m
    end;
      (eapply (EffFacts.returns_preserves same_lookups);
       [apply same_lookups_adapt_rewrites|];
       intros _ s2 H2; unfold same_lookups in *; rewrite H2; simpl; now rewrite H1).
Qed.

#[local] Instance same_meta_at_preorder (key : string) : PreOrder (same_meta_at key).
Proof.
  split; [intros s; reflexivity|].
  intros s1 s2 s3 H1 H2. unfold same_meta_at in *. congruence.
Qed.

(** From line 256 on, the only metadata entry written is [rewroteURL]. *)
Lemma same_meta_adapt_resolve (key : string) (i18n : option Collab.LocaleAnalysisResult)
      (matchedPath urlPathname : string) :
  key <> "rewroteURL" ->
  preserves (same_meta_at key) (adapt_resolve I this i18n matchedPath urlPathname).
Proof.
  intros Hkey.
  assert (Hpu : forall f, preserves (same_meta_at key) (modify_parsedURL f))
    by (intros f s; reflexivity).
  assert (Hurl : forall u, preserves (same_meta_at key) (modify_req (set_url u)))
    by (intros u s; reflexivity).
  unfold adapt_resolve, default_locale, resolve_source, matchers_match, adapt_rewrites,
    apply_rewrites.
  frame_with ltac:(first [ apply Hpu | apply Hurl
                         | apply frame_apply_locale
                         | apply frame_prefix_default_locale
                         | apply frame_adapt_params ]);
    try typeclasses eauto; try assumption.
  - intros st. reflexivity.
  - intros st. unfold returns, modify_req, modify, same_meta_at. simpl.
    rewrite lookup_insert_ne by congruence. reflexivity.
Qed.

Lemma extract_pathnames_returned (s : State) (matchedPath urlPathname : string) :
  URL_pathname B (header_text (headers (the_req s) !! "x-matched-path")) = Some matchedPath ->
  URL_pathname B (url (the_req s)) = Some urlPathname ->
  extract_pathnames B s = Returned (matchedPath, urlPathname) s.
Proof.
  intros Hm Hu. unfold extract_pathnames, bind, header, gets. rewrite Hm. simpl.
  rewrite Hu. reflexivity.
Qed.

(** C3, as amended.  At line 227 it is the pathname of [req.url], not the
    pathname of the [x-matched-path] header, that is tested: whenever the
    data normalizer is configured and matches the URL pathname, lines
    215-254 set the query key [__nextDataReq] to ["1"] and change nothing
    else. *)
Theorem data_request_marked (s : State) (n : Collab.PathnameNormalizer)
        (matchedPath urlPathname : string) :
  URL_pathname B (header_text (headers (the_req s) !! "x-matched-path")) = Some matchedPath ->
  URL_pathname B (url (the_req s)) = Some urlPathname ->
  data (normalizers this) = Some n ->
  Collab.match_ n urlPathname = true ->
  extract_matched_path B this s
  = Returned (matchedPath, urlPathname)
      {| env := {| req := the_req s;
                   parsedURL :=
                     {| pathname := pathname (the_url s);
                        query := JS.set "__nextDataReq" (JS.Str "1") (query (the_url s)) |} |};
         lookups := lookups s |}
  /\ JS.get "__nextDataReq" (JS.set "__nextDataReq" (JS.Str "1") (query (the_url s)))
     = JS.Str "1".
Proof.
  intros Hm Hu Hd Hmatch. split; [|apply JSFacts.get_set_eq].
  unfold extract_matched_path.
  erewrite EffFacts.bind_returned by (apply extract_pathnames_returned; eassumption).
  unfold mark_data_or_postponed, matching. rewrite Hd, Hmatch. reflexivity.
Qed.

(** C6, as amended.  When the URL pathname is not a data request, the
    postponed normalizer is configured and matches the pathname of the
    [x-matched-path] header, and the method is POST, lines 215-254 read the
    whole body, store the UTF-8 decoding of its concatenated chunks under
    the [postponed] metadata key, and return as URL pathname the normalized
    matched pathname exactly when the [x-now-route-matches] header is falsy
    (absent or the empty string); when that header is truthy the URL
    pathname is kept.  The [postponed] entry is still there when [adapt]
    returns. *)
Theorem postponed_body_stored (s : State) (n : Collab.PathnameNormalizer)
        (matchedPath urlPathname : string) :
  URL_pathname B (header_text (headers (the_req s) !! "x-matched-path")) = Some matchedPath ->
  URL_pathname B (url (the_req s)) = Some urlPathname ->
  matching (data (normalizers this)) urlPathname = None ->
  postponed (normalizers this) = Some n ->
  Collab.match_ n matchedPath = true ->
  method (the_req s) = "POST" ->
  let postponed := Buffer_toString_utf8 B (concat (body (the_req s))) in
  let s' := {| env := {| req := {| method := "POST";
                                   url := url (the_req s);
                                   headers := headers (the_req s);
                                   body := [];
                                   meta := <["postponed" := MString postponed]>
                                             (meta (the_req s)) |};
                         parsedURL := the_url s |};
               lookups := lookups s |} in
  extract_matched_path B this s
  = Returned (matchedPath,
              if header_truthy (headers (the_req s) !! "x-now-route-matches")
              then urlPathname
              else Collab.normalize n matchedPath (Some true))
             s'
  /\ forall i18n urlPathname',
      returns (adapt_resolve I this i18n matchedPath urlPathname') s'
        (fun _ s'' => meta (the_req s'') !! "postponed" = Some (MString postponed)).
Proof.
  intros Hm Hu Hd Hp Hmatch Hpost postponed s'. split.
  - unfold extract_matched_path.
    erewrite EffFacts.bind_returned by (apply extract_pathnames_returned; eassumption).
    unfold mark_data_or_postponed. rewrite Hd.
    unfold matching. rewrite Hp, Hmatch.
    unfold read_postponed, bind, gets, modify_req, modify, header, ret. cbn beta.
    rewrite Hpost. subst s' postponed.
    destruct s as [[r pu] l]. unfold the_req, the_url in *. simpl in *.
    destruct (header_truthy (headers r !! "x-now-route-matches")); simpl;
      unfold with_env, with_req, addRequestMeta, set_meta, set_body; simpl;
      rewrite Hpost; reflexivity.
  - intros i18n urlPathname'.
    eapply (EffFacts.returns_preserves (same_meta_at "postponed"));
      [apply same_meta_adapt_resolve; discriminate|].
    intros _ s'' H. unfold same_meta_at in H. rewrite H. subst s'. simpl.
    apply lookup_insert_eq.
Qed.


(** [normalize] computes the pathname of [resolveShape]. *)
Lemma normalize_resolveShape (pathname : string) :
  normalize this pathname = snd (resolveShape this pathname).
Proof.
  unfold normalize, normalize_order, resolveShape, has_shape, normalizer_of, matching.
  destruct (normalizers this) as [bp ac po rs pf da i1]. simpl.
  destruct da as [da|], po as [po|], pf as [pf|], rs as [rs|], ac as [ac|]; simpl;
    repeat match goal with
           | |- context [Collab.match_ ?n pathname] =>
               destruct (Collab.match_ n pathname); simpl
           end; reflexivity.
Qed.

Lemma has_shape_matching (shape : Shape) (n : Collab.PathnameNormalizer) (pathname : string) :
  normalizer_of this shape = Some n ->
  Collab.match_ n pathname = true ->
  has_shape this shape pathname = true.
Proof. unfold has_shape, matching. now intros -> ->. Qed.

(** C4.  [normalize] is the [resolveShape] of the specification: it applies
    the normalizer of the first shape that the pathname has, in the order
    Data, Postponed, PrefetchFragment, Fragment, Action.  A shape whose
    matcher accepts the pathname is the one applied as soon as no earlier
    shape accepts it; whatever shape is applied comes no later in the order
    than any shape that accepts the pathname (so a prefetch fragment is
    never treated as a plain fragment); and a pathname that no shape
    accepts is returned unchanged. *)
Theorem normalize_first_shape (pathname : string) :
  normalize this pathname = snd (resolveShape this pathname)
  /\ (forall shape n,
        normalizer_of this shape = Some n ->
        Collab.match_ n pathname = true ->
        (forall higher, rank higher < rank shape -> has_shape this higher pathname = false) ->
        normalize this pathname = Collab.normalize n pathname (Some true)
        /\ fst (resolveShape this pathname) = Some shape)
  /\ (forall shape,
        has_shape this shape pathname = true ->
        exists first, fst (resolveShape this pathname) = Some first
                      /\ rank first <= rank shape)
  /\ ((forall shape, has_shape this shape pathname = false) ->
      normalize this pathname = pathname
      /\ fst (resolveShape this pathname) = None).
Proof.
  split; [apply normalize_resolveShape|].
  rewrite normalize_resolveShape. unfold resolveShape. simpl.
  split; [|split].
  - intros shape n Hn Hm Hhigher.
    pose proof (has_shape_matching shape n pathname Hn Hm) as Hshape.
    destruct shape; simpl in Hhigher;
      repeat match goal with
             | |- context [has_shape this ?h pathname] =>
                 first [ rewrite Hshape
                       | rewrite (Hhigher h) by (simpl; lia) ]
             end;
      simpl in *; rewrite Hn; split; reflexivity.
  - intros shape Hshape.
    destruct (has_shape this Data pathname) eqn:H0;
      [exists Data; split; [reflexivity | simpl; lia]|].
    destruct (has_shape this Postponed pathname) eqn:H1;
      [exists Postponed; split; [reflexivity | destruct shape; simpl; try lia; congruence]|].
    destruct (has_shape this PrefetchFragment pathname) eqn:H2;
      [exists PrefetchFragment; split;
       [reflexivity | destruct shape; simpl; try lia; congruence]|].
    destruct (has_shape this Fragment pathname) eqn:H3;
      [exists Fragment; split; [reflexivity | destruct shape; simpl; try lia; congruence]|].
    destruct (has_shape this Action pathname) eqn:H4;
      [exists Action; split; [reflexivity | destruct shape; simpl; try lia; congruence]|].
    destruct shape; congruence.
  - intros Hnone.
    rewrite (Hnone Data), (Hnone Postponed), (Hnone PrefetchFragment),
      (Hnone Fragment), (Hnone Action).
    split; reflexivity.
Qed.

End Facts.
End MinimalFacts.

(* ===================================================================== *)
(** * The [rewroteURL] metadata entry                                     *)
(* ===================================================================== *)

Module RewriteFacts.
Import Errors Http Eff Platform.

Section Facts.
Variable B : Builtins.
Variable I : Collab.Imports.
Variable this : Minimal.MinimalRequestAdapter.
Variable super_adapt : M Envelope unit.

Lemma prefix_default_locale_returned (d : option string)
      (i18n : option Collab.LocaleAnalysisResult) (s : Minimal.State) :
  Minimal.prefix_default_locale d i18n s
  = Returned tt
      {| Minimal.env := {| req := Minimal.the_req s;
                           parsedURL := Minimal.prefixed_url d i18n (Minimal.the_url s) |};
         Minimal.lookups := Minimal.lookups s |}.
Proof.
  unfold Minimal.prefix_default_locale, Minimal.prefixed_url, when.
  destruct s as [[r pu] l].
  destruct (str_truthy d && negb (str_truthy (Minimal.detected i18n))); reflexivity.
Qed.

(** What lines 338-345 do to the metadata. *)
Lemma apply_rewrites_meta (utils : Collab.Utils) (s : Minimal.State) :
  let before := pathname (Minimal.the_url s) in
  let after := pathname (fst (Collab.handleRewrites utils (Minimal.the_req s)
                                (Minimal.the_url s))) in
  returns (Minimal.apply_rewrites utils) s
    (fun _ s' =>
       Minimal.same_lookups s s'
       /\ meta (Minimal.the_req s')
          = if str_neq before after && str_truthy after
            then <["rewroteURL" := meta_of_pathname after]> (meta (Minimal.the_req s))
            else meta (Minimal.the_req s)).
Proof.
  intros before after. subst before after.
  unfold returns, Minimal.apply_rewrites, bind, gets.
  destruct (Collab.handleRewrites utils (Minimal.the_req s) (Minimal.the_url s))
    as [pu' rewriteParams] eqn:Hrw.
  simpl.
  destruct (str_neq (pathname (Minimal.the_url s)) (pathname pu') && str_truthy (pathname pu'));
    simpl; split; reflexivity.
Qed.


End Facts.
End RewriteFacts.

(* ===================================================================== *)
(** * The locale keys of the query                                        *)
(* ===================================================================== *)

Module LocaleFacts.
Import Errors Http Eff Platform Minimal.


Lemma has_delete (k key : string) (q : JS.Object) :
  JS.has k q = false -> JS.has k (JS.delete key q) = false.
Proof.
  induction q as [|[k' v'] q IH]; simpl; [reflexivity|].
  intros H. apply orb_false_iff in H as [H1 H2].
  destruct (String.eqb key k'); simpl; [auto|]. rewrite H1. simpl. auto.
Qed.

Lemma has_delete_all (k : string) (keys : list string) (q : JS.Object) :
  JS.has k q = false ->
  JS.has k (fold_left (fun q key => JS.delete key q) keys q) = false.
Proof.
  revert q. induction keys as [|key keys IH]; intros q Hk; simpl; [exact Hk|].
  apply IH, has_delete, Hk.
Qed.


Section Facts.
Variable B : Builtins.
Variable I : Collab.Imports.
Variable this : MinimalRequestAdapter.

(** The loop of line 440 on the query. *)
Lemma delete_route_param_keys (keys : list string) (s : State) :
  for_of keys (fun key => modify_query (JS.delete key)) s
  = Returned tt
      (with_env (with_parsedURL
         (set_query (fold_left (fun q key => JS.delete key q) keys (query (the_url s))))) s).
Proof.
  revert s. induction keys as [|key keys IH]; intros s; simpl.
  - destruct s as [[r [p q]] l]. reflexivity.
  - unfold bind. unfold modify_query at 1, modify_parsedURL, modify. rewrite IH.
    destruct s as [[r [p q]] l]. reflexivity.
Qed.



















End Facts.
End LocaleFacts.

(* ===================================================================== *)
(** * The sample site at work                                             *)
(* ===================================================================== *)

Module Examples.
Import Errors Http Eff Platform.





(** The end-to-end example of the specification: the dynamic page
    [/blog/[slug]] requested as [/blog/hello-world]. *)
Example dynamic_page_resolved :
  SampleSite.run false [] Samples.dynamic_page = Returned tt Samples.dynamic_page.
Proof. vm_compute. reflexivity. Qed.

(** Without the [x-matched-path] header, and with an empty pathname. *)
Lemma invariant_violations_witness :
  SampleSite.run false [] Samples.unmatched
  = Threw (ThrowError
             {| message :=
                  "Invariant: x-matched-path header is not present but we are in minimal mode" |})
          Samples.unmatched
  /\ Minimal.attachRSCRequestMetadata SampleSite.imports (SampleSite.adapter false [])
       Samples.without_pathname
     = Threw (ThrowError {| message := "Invariant: pathname is required" |})
             Samples.without_pathname.
Proof.
  split.
  - apply (proj1 (MinimalFacts.invariant_violations SamplePlatform.builtins
                    SampleSite.imports (SampleSite.adapter false []) Samples.unmatched)).
    left. reflexivity.
  - apply (proj2 (proj2 (MinimalFacts.invariant_violations SamplePlatform.builtins
                           SampleSite.imports (SampleSite.adapter false [])
                           Samples.without_pathname))).
    reflexivity.
Defined.

(** A prefetch fragment is normalized as such even where the plain fragment
    normalizer is configured too. *)
Lemma normalize_first_shape_witness :
  Minimal.normalize SampleSite.both_fragments "/about.prefetch.rsc" = "/about"
  /\ fst (Minimal.resolveShape SampleSite.both_fragments "/about.prefetch.rsc")
     = Some Minimal.PrefetchFragment.
Proof.
  apply (proj1 (proj2 (MinimalFacts.normalize_first_shape SampleSite.both_fragments
                         "/about.prefetch.rsc"))
           Minimal.PrefetchFragment (SampleSite.suffix_normalizer ".prefetch.rsc")).
  - reflexivity.
  - reflexivity.
  - intros higher Hrank. destruct higher; simpl in Hrank; try lia; reflexivity.
Defined.

(** The route lookup on the sample site: none for the dynamic page, one for
    the static page. *)
Lemma route_lookup_only_for_static_witness :
  Minimal.resolve_source SampleSite.imports (SampleSite.adapter false [])
    "/blog/[slug]" None Samples.dynamic_page
  = Returned ("/blog/[slug]", true) Samples.dynamic_page
  /\ Minimal.resolve_source SampleSite.imports (SampleSite.adapter false [])
       "/about" None Samples.static_page
     = Returned ("/about", false)
         {| Minimal.env := Minimal.env Samples.static_page;
            Minimal.lookups := [("/about", None)] |}.
Proof.
  split.
  - apply (proj1 (MinimalFacts.route_lookup_only_for_static SampleSite.imports
                    (SampleSite.adapter false []) "/blog/[slug]" None Samples.dynamic_page)).
    reflexivity.
  - apply (proj1 (proj2 (MinimalFacts.route_lookup_only_for_static SampleSite.imports
                           (SampleSite.adapter false []) "/about" None
                           Samples.static_page))).
    reflexivity.
Defined.

(** The claim C2 as stated fails both ways: the static page [/about] is
    looked up, the dynamic page [/blog/[slug]] is not. *)
Lemma static_page_is_looked_up :
  SampleSite.isDynamicRoute "/about" = false
  /\ Minimal.lookups (final_state (SampleSite.run false [] Samples.static_page))
     = [("/about", None)]
  /\ SampleSite.isDynamicRoute "/blog/[slug]" = true
  /\ Minimal.lookups (final_state (SampleSite.run false [] Samples.dynamic_page)) = [].
Proof. repeat split; vm_compute; reflexivity. Qed.

(** The data file requested by its URL is marked as a data request. *)
Lemma data_request_marked_witness :
  Minimal.extract_matched_path SamplePlatform.builtins (SampleSite.adapter false [])
    Samples.data_url
  = Returned ("/about", "/_next/data/build/about.json")
      (SampleSite.state (Minimal.the_req Samples.data_url) "/about"
         [("__nextDataReq", JS.Str "1")])
  /\ JS.get "__nextDataReq" [("__nextDataReq", JS.Str "1")] = JS.Str "1".
Proof.
  apply (MinimalFacts.data_request_marked SamplePlatform.builtins
           (SampleSite.adapter false []) Samples.data_url
           (SampleSite.data_normalizer "build") "/about" "/_next/data/build/about.json");
    reflexivity.
Defined.

(** The claim C3 as stated fails: the pathname of the [x-matched-path]
    header has the data shape, the URL has not, and [__nextDataReq] is not
    set, neither by lines 215-254 nor later. *)
Lemma matched_data_path_not_marked :
  headers (Minimal.the_req Samples.matched_to_data) !! "x-matched-path"
  = Some (HString "/_next/data/build/about.json")
  /\ Collab.match_ (SampleSite.data_normalizer "build") "/_next/data/build/about.json" = true
  /\ Minimal.extract_matched_path SamplePlatform.builtins (SampleSite.adapter false [])
       Samples.matched_to_data
     = Returned ("/_next/data/build/about.json", "/about") Samples.matched_to_data
  /\ JS.has "__nextDataReq"
       (query (Minimal.the_url (final_state (SampleSite.run false [] Samples.matched_to_data))))
     = false.
Proof. repeat split; vm_compute; reflexivity. Qed.

(** A postponed render is resumed: the body is stored and, without an
    [x-now-route-matches] header, the URL pathname becomes the normalized
    matched pathname. *)
Lemma postponed_body_stored_witness :
  Minimal.extract_matched_path SamplePlatform.builtins (SampleSite.adapter false [])
    (Samples.resume "/_next/postponed/resume/about" [])
  = Returned ("/_next/postponed/resume/about", "/about")
      {| Minimal.env :=
           {| req := {| method := "POST";
                        url := "/_next/postponed/resume/about";
                        headers := headers (Minimal.the_req
                                              (Samples.resume "/_next/postponed/resume/about" []));
                        body := [];
                        meta := <["postponed" := MString "postponed"]> ∅ |};
              parsedURL := {| pathname := Some "/about"; query := [] |} |};
         Minimal.lookups := [] |}
  /\ forall i18n urlPathname',
      returns (Minimal.adapt_resolve SampleSite.imports (SampleSite.adapter false []) i18n
                 "/_next/postponed/resume/about" urlPathname')
        {| Minimal.env :=
             {| req := {| method := "POST";
                          url := "/_next/postponed/resume/about";
                          headers := headers (Minimal.the_req
                                                (Samples.resume "/_next/postponed/resume/about" []));
                          body := [];
                          meta := <["postponed" := MString "postponed"]> ∅ |};
                parsedURL := {| pathname := Some "/about"; query := [] |} |};
           Minimal.lookups := [] |}
        (fun _ s'' => meta (Minimal.the_req s'') !! "postponed"
                      = Some (MString "postponed")).
Proof.
  apply (MinimalFacts.postponed_body_stored SamplePlatform.builtins SampleSite.imports
           (SampleSite.adapter false []) (Samples.resume "/_next/postponed/resume/about" [])
           (SampleSite.prefix_normalizer "/_next/postponed/resume")
           "/_next/postponed/resume/about" "/_next/postponed/resume/about");
    reflexivity.
Defined.

(** The claim C6 as stated fails in two ways.  When the URL is a data
    request the body of a POST to a postponed path is not read and nothing
    is stored; and when the [x-now-route-matches] header is present but
    empty the URL pathname is recomputed all the same. *)
Lemma postponed_body_exceptions :
  (Collab.match_ (SampleSite.prefix_normalizer "/_next/postponed/resume")
     "/_next/postponed/resume/about" = true
   /\ Minimal.extract_matched_path SamplePlatform.builtins (SampleSite.adapter false [])
        (Samples.resume "/_next/data/build/about.json" [])
      = Returned ("/_next/postponed/resume/about", "/_next/data/build/about.json")
          (SampleSite.state
             (Minimal.the_req (Samples.resume "/_next/data/build/about.json" []))
             "/about" [("__nextDataReq", JS.Str "1")])
   /\ meta (Minimal.the_req
              (final_state (SampleSite.run false []
                              (Samples.resume "/_next/data/build/about.json" []))))
        !! "postponed" = None)
  /\ (headers (Minimal.the_req
                 (Samples.resume "/_next/postponed/resume/about"
                    [("x-now-route-matches", HString "")]))
        !! "x-now-route-matches" = Some (HString "")
      /\ match Minimal.extract_matched_path SamplePlatform.builtins
                 (SampleSite.adapter false [])
                 (Samples.resume "/_next/postponed/resume/about"
                    [("x-now-route-matches", HString "")]) with
         | Returned (_, urlPathname) _ => urlPathname = "/about"
         | Threw _ _ => False
         end).
Proof. repeat split; vm_compute; reflexivity. Qed.




End Examples.

(* ===================================================================== *)
(** * More on internal-request-adapter.ts                                 *)
(* ===================================================================== *)

Module InternalMore.
Import Errors Http Eff Platform Internal.

Lemma get_filter (f : string -> bool) (k : string) (q : JS.Object) :
  JS.get k (List.filter (fun kv => f (fst kv)) q)
  = if f k then JS.get k q else JS.Undefined.
Proof.
  induction q as [|[k' v'] q IH]; simpl; [now destruct (f k)|].
  destruct (String.eqb k k') eqn:E.
  - apply String.eqb_eq in E. subst k'.
    destruct (f k) eqn:Hf; simpl; [now rewrite String.eqb_refl|].
    rewrite IH, ?Hf. reflexivity.
  - destruct (f k') eqn:Hf'; simpl; rewrite ?E; exact IH.
Qed.

Lemma has_filter (f : string -> bool) (k : string) (q : JS.Object) :
  JS.has k (List.filter (fun kv => f (fst kv)) q) = f k && JS.has k q.
Proof.
  induction q as [|[k' v'] q IH]; simpl; [now rewrite andb_false_r|].
  destruct (String.eqb k k') eqn:E.
  - apply String.eqb_eq in E. subst k'.
    destruct (f k) eqn:Hf; simpl; [now rewrite String.eqb_refl|].
    rewrite IH, ?Hf. reflexivity.
  - destruct (f k') eqn:Hf'; simpl; rewrite ?E; exact IH.
Qed.

(** What [Object.assign] leaves under a key when the source is an object. *)
Lemma get_assign_fold (o : JS.Object) (k : string) (ks : list string) (t : JS.Object) :
  JS.get k (fold_left (fun t kv => JS.set (fst kv) (snd kv) t)
                      (map (fun k' => (k', JS.get k' o)) ks) t)
  = if existsb (String.eqb k) ks then JS.get k o else JS.get k t.
Proof.
  revert t. induction ks as [|k' ks IH]; intros t; simpl; [reflexivity|].
  rewrite IH. destruct (existsb (String.eqb k) ks); [now rewrite orb_true_r|].
  rewrite orb_false_r. destruct (String.eqb k k') eqn:E.
  - apply String.eqb_eq in E. subst k'. apply JSFacts.get_set_eq.
  - apply JSFacts.get_set_ne. now apply String.eqb_neq.
Qed.

Lemma keys_existsb (k : string) (o : JS.Object) :
  existsb (String.eqb k) (JS.keys o) = JS.has k o.
Proof.
  destruct (JS.has k o) eqn:Hhas.
  - apply existsb_exists. exists k. split; [|apply String.eqb_refl].
    apply JSFacts.has_In in Hhas. apply (in_map_iff fst) in Hhas as ([k' v] & Hk & Hin).
    simpl in Hk. subst k'. eapply JSFacts.keys_complete, Hin.
  - apply not_true_iff_false. intros H. apply existsb_exists in H as (k' & Hin & Hk).
    apply String.eqb_eq in Hk. subst k'. apply JSFacts.keys_has in Hin. congruence.
Qed.

Lemma get_assign_obj (k : string) (t o : JS.Object) :
  JS.get k (JS.assign t (JS.Obj o)) = if JS.has k o then JS.get k o else JS.get k t.
Proof. unfold JS.assign. simpl. rewrite get_assign_fold. now rewrite keys_existsb. Qed.

Section Facts.
Variable B : Builtins.
Variable super_adapt : M Envelope unit.

(** X1.  The loop of lines 29-33 always returns; it touches nothing but the
    query, from which it removes every key that starts neither with
    [__next] nor with [_next], and in which every other key keeps its
    value. *)
Theorem strip_query_keeps_internal_only (s : Envelope) :
  exists q',
    strip_query s = Returned tt {| req := req s;
                                   parsedURL := {| pathname := pathname (parsedURL s);
                                                   query := q' |} |}
    /\ forall key,
         JS.get key q'
         = (if String.prefix "__next" key || String.prefix "_next" key
            then JS.get key (query (parsedURL s)) else JS.Undefined)
         /\ JS.has key q'
            = ((String.prefix "__next" key || String.prefix "_next" key)
               && JS.has key (query (parsedURL s))).
Proof.
  exists (stripped (query (parsedURL s))). split.
  - rewrite InternalFacts.strip_query_spec. destruct s as [r [p q]]. reflexivity.
  - intros key. unfold stripped. split.
    + apply (get_filter is_internal_key).
    + apply (has_filter is_internal_key).
Qed.

(** X2.  The keys of the [x-invoke-query] object override those of the
    URL: when the header parses to an object and a status is given, each
    key of the query carried by the [InvokeError] has the value of the
    header object if the object has that key, the value of the URL's query
    if not and the key is internal, and none otherwise. *)
Theorem invoke_query_overrides (s : Envelope) (invokePath invokeQuery decoded status : string)
        (o : JS.Object) :
  headers (req s) !! "x-invoke-path" = Some (HString invokePath) ->
  invokePath <> "" ->
  headers (req s) !! "x-invoke-query" = Some (HString invokeQuery) ->
  decodeURIComponent B invokeQuery = Some decoded ->
  JSON_parse B decoded = Some (JS.Obj o) ->
  headers (req s) !! "x-invoke-status" = Some (HString status) ->
  exists e s',
    adapt B super_adapt s = Threw (ThrowInvokeError e) s'
    /\ query (parsedURL s') = Errors.query e
    /\ forall key,
         JS.get key (Errors.query e)
         = if JS.has key o then JS.get key o
           else if String.prefix "__next" key || String.prefix "_next" key
                then JS.get key (query (parsedURL s))
                else JS.Undefined.
Proof.
  intros Hpath Hne Hq Hd Hp Hstatus.
  assert (Hmerged : invoke_query_is B (headers (req s)) (JS.Obj o)).
  { unfold invoke_query_is. rewrite Hq. eauto. }
  rewrite (InternalFacts.adapt_invoked B super_adapt s invokePath _ Hpath Hne Hmerged).
  erewrite EffFacts.bind_returned by apply InternalFacts.header_returned.
  simpl. rewrite Hstatus.
  erewrite EffFacts.bind_returned by apply InternalFacts.header_returned.
  unfold bind, gets, throw. simpl.
  eexists. eexists. split; [reflexivity|]. split; [reflexivity|].
  intros key. simpl. rewrite get_assign_obj.
  destruct (JS.has key o); [reflexivity|]. apply (get_filter is_internal_key).
Qed.

(** X3.  A malformed [x-invoke-query] header is fatal: when the header
    cannot be URI-decoded [adapt] throws the URIError, and when the decoded
    text is not JSON it throws the SyntaxError, in both cases after the
    query has been stripped and before the status is looked at, so that no
    [InvokeError] is raised even if [x-invoke-status] is present. *)
Theorem malformed_invoke_query_throws (s : Envelope) (invokePath invokeQuery : string) :
  headers (req s) !! "x-invoke-path" = Some (HString invokePath) ->
  invokePath <> "" ->
  headers (req s) !! "x-invoke-query" = Some (HString invokeQuery) ->
  let stripped_state :=
    {| req := req s;
       parsedURL := {| pathname := pathname (parsedURL s);
                       query := stripped (query (parsedURL s)) |} |} in
  (decodeURIComponent B invokeQuery = None ->
   adapt B super_adapt s = Threw ThrowURIError stripped_state)
  /\ (forall decoded,
        decodeURIComponent B invokeQuery = Some decoded ->
        JSON_parse B decoded = None ->
        adapt B super_adapt s = Threw ThrowSyntaxError stripped_state).
Proof.
  intros Hpath Hne Hq stripped_state.
  assert (Hstart : forall e,
    (match headers (req s) !! "x-invoke-query" with
     | Some (HString invokeQuery) =>
         decoded <- or_throw ThrowURIError (decodeURIComponent B invokeQuery) ;;
         parsed <- or_throw ThrowSyntaxError (JSON_parse B decoded) ;;
         modify_query (fun q => JS.assign q parsed)
     | _ => ret tt
     end)%eff stripped_state = Threw e stripped_state ->
    adapt B super_adapt s = Threw e stripped_state).
  { intros e He. unfold adapt.
    erewrite EffFacts.bind_returned by apply InternalFacts.header_returned.
    rewrite Hpath. apply String.eqb_neq in Hne. rewrite Hne.
    erewrite EffFacts.bind_returned by apply InternalFacts.strip_query_spec.
    erewrite EffFacts.bind_returned by apply InternalFacts.header_returned.
    apply EffFacts.bind_threw.
    destruct s as [r [p q]]. exact He. }
  split.
  - intros Hd. apply Hstart. rewrite Hq. unfold bind. rewrite Hd. reflexivity.
  - intros decoded Hd Hp. apply Hstart. rewrite Hq. unfold bind. rewrite Hd. simpl.
    rewrite Hp. reflexivity.
Qed.

(** X4.  An empty [x-invoke-path] header counts as no path to invoke:
    [adapt] returns at once and changes nothing, whatever the other
    headers. *)
Theorem adapt_with_empty_invoke_path (s : Envelope) :
  headers (req s) !! "x-invoke-path" = Some (HString "") ->
  adapt B super_adapt s = Returned tt s.
Proof.
  intros H. unfold adapt.
  erewrite EffFacts.bind_returned by apply InternalFacts.header_returned.
  rewrite H. reflexivity.
Qed.

(** X5.  A status without a cause: when [x-invoke-status] is a string and
    [x-invoke-error] is absent or is not a string, the [InvokeError] has
    the status code [Number(status)], whatever the status text, and a
    [null] cause. *)
Theorem status_without_cause (s : Envelope) (invokePath status : string) (merged : JS.Value) :
  headers (req s) !! "x-invoke-path" = Some (HString invokePath) ->
  invokePath <> "" ->
  invoke_query_is B (headers (req s)) merged ->
  headers (req s) !! "x-invoke-status" = Some (HString status) ->
  (forall error, headers (req s) !! "x-invoke-error" <> Some (HString error)) ->
  adapt B super_adapt s
  = Threw (ThrowInvokeError
             {| statusCode := Number B status;
                cause := None;
                Errors.query := JS.assign (stripped (query (parsedURL s))) merged |})
          {| req := req s;
             parsedURL :=
               {| pathname := pathname (parsedURL s);
                  query := JS.assign (stripped (query (parsedURL s))) merged |} |}.
Proof.
  intros Hpath Hne Hq Hstatus Herror.
  rewrite (InternalFacts.adapt_invoked B super_adapt s invokePath merged Hpath Hne Hq).
  erewrite EffFacts.bind_returned by apply InternalFacts.header_returned.
  simpl. rewrite Hstatus.
  erewrite EffFacts.bind_returned by apply InternalFacts.header_returned.
  simpl.
  destruct (headers (req s) !! "x-invoke-error") as [[error|l]|] eqn:He;
    [exfalso; exact (Herror error eq_refl) | reflexivity | reflexivity].
Qed.

(** X6.  The message of the cause is relayed: when [x-invoke-error] parses
    to an object whose [message] is a string, the cause of the
    [InvokeError] is an [Error] with that message. *)
Theorem cause_message_relayed (s : Envelope) (invokePath status error message : string)
        (o : JS.Object) (merged : JS.Value) :
  headers (req s) !! "x-invoke-path" = Some (HString invokePath) ->
  invokePath <> "" ->
  invoke_query_is B (headers (req s)) merged ->
  headers (req s) !! "x-invoke-status" = Some (HString status) ->
  headers (req s) !! "x-invoke-error" = Some (HString error) ->
  JSON_parse B error = Some (JS.Obj o) ->
  JS.get "message" o = JS.Str message ->
  adapt B super_adapt s
  = Threw (ThrowInvokeError
             {| statusCode := Number B status;
                cause := Some {| Errors.message := message |};
                Errors.query := JS.assign (stripped (query (parsedURL s))) merged |})
          {| req := req s;
             parsedURL :=
               {| pathname := pathname (parsedURL s);
                  query := JS.assign (stripped (query (parsedURL s))) merged |} |}.
Proof.
  intros Hpath Hne Hq Hstatus Herror Hjson Hmessage.
  rewrite (InternalFacts.adapt_invoked B super_adapt s invokePath merged Hpath Hne Hq).
  erewrite EffFacts.bind_returned by apply InternalFacts.header_returned.
  simpl. rewrite Hstatus.
  erewrite EffFacts.bind_returned by apply InternalFacts.header_returned.
  simpl. rewrite Herror. unfold parse_cause. rewrite Hjson, Hmessage. reflexivity.
Qed.

(** X7.  A cause without a message: when [x-invoke-error] is valid JSON
    but is [null] (whose destructuring throws inside the [try]), a number,
    a boolean, a string or an array, or an object that has no [message],
    the cause of the [InvokeError] is an [Error] with the empty message. *)
Theorem cause_without_message (s : Envelope) (invokePath status error : string)
        (parsed merged : JS.Value) :
  headers (req s) !! "x-invoke-path" = Some (HString invokePath) ->
  invokePath <> "" ->
  invoke_query_is B (headers (req s)) merged ->
  headers (req s) !! "x-invoke-status" = Some (HString status) ->
  headers (req s) !! "x-invoke-error" = Some (HString error) ->
  JSON_parse B error = Some parsed ->
  (forall o, parsed = JS.Obj o -> JS.get "message" o = JS.Undefined) ->
  adapt B super_adapt s
  = Threw (ThrowInvokeError
             {| statusCode := Number B status;
                cause := Some {| Errors.message := "" |};
                Errors.query := JS.assign (stripped (query (parsedURL s))) merged |})
          {| req := req s;
             parsedURL :=
               {| pathname := pathname (parsedURL s);
                  query := JS.assign (stripped (query (parsedURL s))) merged |} |}.
Proof.
  intros Hpath Hne Hq Hstatus Herror Hjson Hmessage.
  rewrite (InternalFacts.adapt_invoked B super_adapt s invokePath merged Hpath Hne Hq).
  erewrite EffFacts.bind_returned by apply InternalFacts.header_returned.
  simpl. rewrite Hstatus.
  erewrite EffFacts.bind_returned by apply InternalFacts.header_returned.
  simpl. rewrite Herror. unfold parse_cause. rewrite Hjson.
  destruct parsed; try reflexivity.
  rewrite (Hmessage props eq_refl). reflexivity.
Qed.

(** X8.  A failure of the base adapter goes through: when no status is
    given and the base adapter throws, [adapt] throws the same exception
    and leaves the state the base adapter left, without a [rewroteURL]
    entry of its own. *)
Theorem base_adapter_failure_propagates (s s2 : Envelope) (invokePath : string)
        (merged : JS.Value) (e : Exception) :
  headers (req s) !! "x-invoke-path" = Some (HString invokePath) ->
  invokePath <> "" ->
  invoke_query_is B (headers (req s)) merged ->
  (forall status, headers (req s) !! "x-invoke-status" <> Some (HString status)) ->
  super_adapt
    {| req := req s;
       parsedURL :=
         {| pathname := Some invokePath;
            query := JS.assign (stripped (query (parsedURL s))) merged |} |}
  = Threw e s2 ->
  adapt B super_adapt s = Threw e s2.
Proof.
  intros Hpath Hne Hq Hstatus Hsuper.
  rewrite (InternalFacts.adapt_invoked B super_adapt s invokePath merged Hpath Hne Hq).
  erewrite EffFacts.bind_returned by apply InternalFacts.header_returned.
  simpl.
  assert (Hrest :
    (originalPathname <- gets (fun e => pathname (parsedURL e)) ;;
     when (str_neq originalPathname (Some invokePath))
          (modify (with_parsedURL (set_pathname (Some invokePath)))) ;;
     super_adapt ;;
     p <- gets (fun e => pathname (parsedURL e)) ;;
     when (str_neq originalPathname p)
          (modify (with_req (addRequestMeta "rewroteURL" (meta_of_pathname p)))))%eff
      (with_parsedURL
         (fun u => set_query (JS.assign (stripped (query u)) merged) u) s)
    = Threw e s2).
  { unfold bind at 1. unfold gets at 1. simpl.
    assert (Hset :
      when (str_neq (pathname (parsedURL s)) (Some invokePath))
           (modify (with_parsedURL (set_pathname (Some invokePath))))
           (with_parsedURL
              (fun u => set_query (JS.assign (stripped (query u)) merged) u) s)
      = Returned tt
          {| req := req s;
             parsedURL :=
               {| pathname := Some invokePath;
                  query := JS.assign (stripped (query (parsedURL s))) merged |} |}).
    { destruct s as [r [p q]]. simpl.
      destruct p as [p|]; simpl; [|reflexivity].
      destruct (String.eqb p invokePath) eqn:E; simpl; [|reflexivity].
      apply String.eqb_eq in E. subst p. reflexivity. }
    erewrite EffFacts.bind_returned by exact Hset.
    apply EffFacts.bind_threw. exact Hsuper. }
  destruct (headers (req s) !! "x-invoke-status") as [[status|l]|] eqn:Hs.
  - exfalso. exact (Hstatus status eq_refl).
  - exact Hrest.
  - exact Hrest.
Qed.

End Facts.

(** The sample invocation with a query header: [__nextLocale] comes from the
    header, [_nextBubbleNoFallback] from the URL, and [tab] is gone. *)
Lemma invoke_query_overrides_witness :
  exists e s',
    adapt SamplePlatform.builtins Samples.base_adapt
          (MoreSamples.failed_with_cause MoreSamples.upstream_json)
    = Threw (ThrowInvokeError e) s'
    /\ query (parsedURL s') = Errors.query e
    /\ forall key,
         JS.get key (Errors.query e)
         = if JS.has key [("__nextLocale", JS.Str "fr")]
           then JS.get key [("__nextLocale", JS.Str "fr")]
           else if String.prefix "__next" key || String.prefix "_next" key
                then JS.get key
                       (query (parsedURL (MoreSamples.failed_with_cause
                                            MoreSamples.upstream_json)))
                else JS.Undefined.
Proof.
  refine (invoke_query_overrides SamplePlatform.builtins Samples.base_adapt
            (MoreSamples.failed_with_cause MoreSamples.upstream_json) "/_error"
            _ _ "502" [("__nextLocale", JS.Str "fr")] _ _ _ _ _ _).
  - reflexivity.
  - discriminate.
  - reflexivity.
  - reflexivity.
  - reflexivity.
  - reflexivity.
Defined.

(** The two sample invocations with a malformed query header. *)
Lemma malformed_invoke_query_throws_witness :
  adapt SamplePlatform.builtins Samples.base_adapt MoreSamples.undecodable_invoke_query
  = Threw ThrowURIError
          {| req := req MoreSamples.undecodable_invoke_query;
             parsedURL := {| pathname := Some "/dashboard"; query := [] |} |}
  /\ adapt SamplePlatform.builtins Samples.base_adapt MoreSamples.malformed_invoke_query
     = Threw ThrowSyntaxError
             {| req := req MoreSamples.malformed_invoke_query;
                parsedURL := {| pathname := Some "/dashboard";
                                query := [("__nextLocale", JS.Str "en")] |} |}.
Proof.
  split.
  - refine (proj1 (malformed_invoke_query_throws SamplePlatform.builtins Samples.base_adapt
                     MoreSamples.undecodable_invoke_query "/_error" "%" _ _ _) _).
    + reflexivity.
    + discriminate.
    + reflexivity.
    + reflexivity.
  - refine (proj2 (malformed_invoke_query_throws SamplePlatform.builtins Samples.base_adapt
                     MoreSamples.malformed_invoke_query "/_error" "not json" _ _ _)
                  "not json" _ _).
    + reflexivity.
    + discriminate.
    + reflexivity.
    + reflexivity.
    + reflexivity.
Defined.

(** The sample invocation with an empty path is left alone, status header
    or not. *)
Lemma adapt_with_empty_invoke_path_witness :
  adapt SamplePlatform.builtins Samples.base_adapt MoreSamples.empty_invoke_path
  = Returned tt MoreSamples.empty_invoke_path.
Proof.
  refine (adapt_with_empty_invoke_path SamplePlatform.builtins Samples.base_adapt
            MoreSamples.empty_invoke_path _).
  reflexivity.
Defined.

(** The sample failed invocation without a cause. *)
Lemma status_without_cause_witness :
  adapt SamplePlatform.builtins Samples.base_adapt MoreSamples.failed_without_cause
  = Threw (ThrowInvokeError
             {| statusCode := JS.number_of_Z 404; cause := None; Errors.query := [] |})
          {| req := req MoreSamples.failed_without_cause;
             parsedURL := {| pathname := Some "/dashboard"; query := [] |} |}.
Proof.
  refine (status_without_cause SamplePlatform.builtins Samples.base_adapt
            MoreSamples.failed_without_cause "/_error" "404" JS.Undefined _ _ _ _ _).
  - reflexivity.
  - discriminate.
  - unfold invoke_query_is. reflexivity.
  - reflexivity.
  - intros error. discriminate.
Defined.

(** The sample failed invocation whose cause is [{"message":"upstream"}]. *)
Lemma cause_message_relayed_witness :
  adapt SamplePlatform.builtins Samples.base_adapt
        (MoreSamples.failed_with_cause MoreSamples.upstream_json)
  = Threw (ThrowInvokeError
             {| statusCode := JS.number_of_Z 502;
                cause := Some {| Errors.message := "upstream" |};
                Errors.query := [("__nextLocale", JS.Str "fr");
                                 ("_nextBubbleNoFallback", JS.Str "1")] |})
          {| req := req (MoreSamples.failed_with_cause MoreSamples.upstream_json);
             parsedURL :=
               {| pathname := Some "/dashboard";
                  query := [("__nextLocale", JS.Str "fr");
                            ("_nextBubbleNoFallback", JS.Str "1")] |} |}.
Proof.
  refine (cause_message_relayed SamplePlatform.builtins Samples.base_adapt
            (MoreSamples.failed_with_cause MoreSamples.upstream_json) "/_error" "502"
            MoreSamples.upstream_json "upstream" [("message", JS.Str "upstream")]
            (JS.Obj [("__nextLocale", JS.Str "fr")]) _ _ _ _ _ _ _).
  - reflexivity.
  - discriminate.
  - unfold invoke_query_is. simpl. eexists. split; reflexivity.
  - reflexivity.
  - reflexivity.
  - reflexivity.
  - reflexivity.
Defined.

(** The sample failed invocation whose cause is the JSON text [null]. *)
Lemma cause_without_message_witness :
  adapt SamplePlatform.builtins Samples.base_adapt (MoreSamples.failed_with_cause "null")
  = Threw (ThrowInvokeError
             {| statusCode := JS.number_of_Z 502;
                cause := Some {| Errors.message := "" |};
                Errors.query := [("__nextLocale", JS.Str "fr");
                                 ("_nextBubbleNoFallback", JS.Str "1")] |})
          {| req := req (MoreSamples.failed_with_cause "null");
             parsedURL :=
               {| pathname := Some "/dashboard";
                  query := [("__nextLocale", JS.Str "fr");
                            ("_nextBubbleNoFallback", JS.Str "1")] |} |}.
Proof.
  refine (cause_without_message SamplePlatform.builtins Samples.base_adapt
            (MoreSamples.failed_with_cause "null") "/_error" "502" "null" JS.Null
            (JS.Obj [("__nextLocale", JS.Str "fr")]) _ _ _ _ _ _ _).
  - reflexivity.
  - discriminate.
  - unfold invoke_query_is. simpl. eexists. split; reflexivity.
  - reflexivity.
  - reflexivity.
  - reflexivity.
  - intros o. discriminate.
Defined.

(** The sample invocation over a base adapter that fails. *)
Lemma base_adapter_failure_propagates_witness :
  adapt SamplePlatform.builtins MoreSamples.failing_base_adapt Samples.invoke_other_path
  = Threw (ThrowError {| Errors.message := "Invariant: pathname must be set" |})
          {| req := req Samples.invoke_other_path;
             parsedURL :=
               {| pathname := Some "/b";
                  query := JS.assign (stripped (query (parsedURL Samples.invoke_other_path)))
                                     JS.Undefined |} |}.
Proof.
  refine (base_adapter_failure_propagates SamplePlatform.builtins
            MoreSamples.failing_base_adapt Samples.invoke_other_path _ "/b"
            JS.Undefined _ _ _ _ _ _).
  - reflexivity.
  - discriminate.
  - unfold invoke_query_is. reflexivity.
  - intros status. discriminate.
  - reflexivity.
Defined.

End InternalMore.

(* ===================================================================== *)
(** * More on minimal-mode-request-adapter.ts                             *)
(* ===================================================================== *)

Module MinimalMore.
Import Errors Http Eff Platform Minimal.

Lemma returns_conj {S A : Type} (m : M S A) (s : S) (Q1 Q2 : A -> S -> Prop) :
  returns m s Q1 -> returns m s Q2 -> returns m s (fun a s' => Q1 a s' /\ Q2 a s').
Proof. unfold returns. destruct (m s); auto. Qed.

Lemma returns_inv {S A : Type} (m : M S A) (s : S) (Q : A -> S -> Prop) :
  returns m s Q -> exists a s', m s = Returned a s' /\ Q a s'.
Proof. unfold returns. destruct (m s) as [a s'|]; [eauto | contradiction]. Qed.

#[local] Instance lookups_kept : PreOrder same_lookups.
Proof.
  split; [intros s; reflexivity|].
  intros s1 s2 s3 H1 H2. unfold same_lookups in *. congruence.
Qed.

#[local] Instance transport_kept : PreOrder Footprint.same_transport.
Proof.
  split; [intros s; repeat split|].
  intros s1 s2 s3 H1 H2. unfold Footprint.same_transport in *. intuition congruence.
Qed.

#[local] Instance any_kept : PreOrder Footprint.any.
Proof. split; [intros s; exact Logic.I | intros s1 s2 s3 _ _; exact Logic.I]. Qed.

#[local] Instance marking_kept : PreOrder Footprint.marking.
Proof.
  split; [intros s; repeat split|].
  intros s1 s2 s3 (L1 & M1 & B1 & K1) (L2 & M2 & B2 & K2).
  repeat split; try congruence.
  intros key H1 H2. rewrite K2, K1 by assumption. reflexivity.
Qed.

(** Steps through a computation built from the monad's operations; [leaf]
    deals with the state updates. *)
Ltac steps_with leaf :=
  repeat lazymatch goal with
    | |- preserves _ (ret _) => refine (EffFacts.preserves_ret _ _)
    | |- preserves _ (gets _) => refine (EffFacts.preserves_gets _ _)
    | |- preserves _ (header _) => refine (EffFacts.preserves_gets _ _)
    | |- preserves _ (when _ _) => refine (EffFacts.preserves_when _ _ _ _)
    | |- preserves _ (for_of _ _) => refine (EffFacts.preserves_for_of _ _ _ _); intros ?
    | |- preserves _ (bind _ _) => refine (EffFacts.preserves_bind _ _ _ _ _); [|intros ?]
    | |- preserves _ (modify_query _) => unfold modify_query
    | |- preserves _ (match ?x with _ => _ end) => destruct x
    | |- _ => leaf
    end.

(** X9.  The constructor configures a coherent set of normalizers: the
    postponed and the prefetch-fragment normalizers come together, the
    plain and the prefetch fragment normalizers never do, with the app
    directory there is an action normalizer and exactly one of the two
    fragment normalizers, without it there is none of the four, the data
    normalizer is there exactly with the pages directory, the base-path
    normalizer exactly with a non-empty base path, and the locale
    normalizer exactly with a locale provider. *)
Theorem constructor_normalizers (I : Collab.Imports) (buildID : string)
        (enabledDirectories : Collab.NextEnabledDirectories)
        (i18nProvider : option Collab.I18NProvider)
        (matchers : Collab.RouteMatcherManager)
        (nextConfig : Collab.NextConfigComplete)
        (getRoutesManifest : option Collab.NormalizedRouteManifest) :
  let n := normalizers (new_MinimalRequestAdapter I buildID enabledDirectories i18nProvider
                          matchers nextConfig getRoutesManifest) in
  (postponed n = None <-> prefetchRSC n = None)
  /\ (rsc n = None \/ prefetchRSC n = None)
  /\ (Collab.app enabledDirectories = true ->
      action n <> None /\ (rsc n = None <-> prefetchRSC n <> None))
  /\ (Collab.app enabledDirectories = false ->
      action n = None /\ rsc n = None /\ prefetchRSC n = None /\ postponed n = None)
  /\ (data n = None <-> Collab.pages enabledDirectories = false)
  /\ (basePath n = None <-> Collab.basePath nextConfig = "")
  /\ (i18n n = None <-> i18nProvider = None).
Proof.
  simpl.
  destruct (Collab.app enabledDirectories), (Collab.pages enabledDirectories),
    (Collab.checkIsAppPPREnabled I (Collab.experimental_ppr nextConfig)),
    i18nProvider as [provider|];
    (destruct (String.eqb (Collab.basePath nextConfig) "") eqn:Hbase;
     [apply String.eqb_eq in Hbase | apply String.eqb_neq in Hbase]);
    simpl; intuition congruence.
Qed.

Section Facts.
Variable B : Builtins.
Variable I : Collab.Imports.
Variable this : MinimalRequestAdapter.

(** X10.  [attachRSCRequestMetadata] marks a request entirely or not at
    all.  With a non-empty pathname it returns; it never touches the
    method, the body, the route matcher or a metadata entry other than
    [isRSCRequest] and [isPrefetchRSCRequest]; either it leaves the parsed
    URL, [req.url] and the metadata as they were, or the request ends up
    with [isRSCRequest] set, the RSC header set to ["1"], the query key
    [__nextDataReq] set to ["1"] and a non-empty [req.url] rebuilt around
    the new pathname (an empty one is left empty); and
    [isPrefetchRSCRequest] is written only together with [isRSCRequest] and
    the prefetch header. *)
Theorem attach_rsc_all_or_nothing (s : State) :
  str_truthy (pathname (the_url s)) = true ->
  returns (attachRSCRequestMetadata I this) s
    (fun _ s' =>
       Footprint.marking s s'
       /\ ((the_url s' = the_url s
            /\ url (the_req s') = url (the_req s)
            /\ meta (the_req s') = meta (the_req s))
           \/ (meta (the_req s') !! "isRSCRequest" = Some (MBool true)
               /\ headers (the_req s') !! Collab.RSC_HEADER_lower I = Some (HString "1")
               /\ JS.get "__nextDataReq" (query (the_url s')) = JS.Str "1"
               /\ url (the_req s')
                  = if String.eqb (url (the_req s)) "" then ""
                    else Collab.url_with_pathname I (url (the_req s))
                           (pathname (the_url s'))))
       /\ (meta (the_req s') !! "isPrefetchRSCRequest"
           = meta (the_req s) !! "isPrefetchRSCRequest"
           \/ (meta (the_req s') !! "isPrefetchRSCRequest" = Some (MBool true)
               /\ meta (the_req s') !! "isRSCRequest" = Some (MBool true)
               /\ headers (the_req s') !! Collab.NEXT_ROUTER_PREFETCH_HEADER_lower I
                  = Some (HString "1")))).
Proof.
  intros Hp. destruct s as [[r [p q]] l]. unfold the_url in Hp. simpl in Hp.
  destruct p as [p|]; [|discriminate]. simpl in Hp. apply negb_true_iff in Hp.
  unfold returns, attachRSCRequestMetadata, bind, gets. simpl. rewrite Hp.
  unfold the_req, the_url. simpl.
  destruct (Collab.app (enabledDirectories this)); simpl.
  2:{ split; [repeat split|]. split; [left; repeat split | left; reflexivity]. }
  destruct (matching (prefetchRSC (normalizers this)) p) as [n|].
  - unfold mark_data_request, bind, gets, modify_parsedURL, modify_req, set_header,
      modify_query, modify_parsedURL, modify_req, modify, when. simpl.
    assert (Hrsc : <["isPrefetchRSCRequest" := MBool true]>
                     (<["isRSCRequest" := MBool true]> (meta r)) !! "isRSCRequest"
                   = Some (MBool true)).
    { rewrite lookup_insert_ne by discriminate. apply lookup_insert_eq. }
    assert (Hheader : <[Collab.NEXT_ROUTER_PREFETCH_HEADER_lower I := HString "1"]>
                        (<[Collab.RSC_HEADER_lower I := HString "1"]> (headers r))
                      !! Collab.RSC_HEADER_lower I = Some (HString "1")).
    { destruct (decide (Collab.NEXT_ROUTER_PREFETCH_HEADER_lower I
                        = Collab.RSC_HEADER_lower I)) as [-> | Hne].
      - apply lookup_insert_eq.
      - rewrite lookup_insert_ne by exact Hne. apply lookup_insert_eq. }
    assert (Hmark : forall key : string,
              key <> "isRSCRequest" -> key <> "isPrefetchRSCRequest" ->
              <["isPrefetchRSCRequest" := MBool true]>
                (<["isRSCRequest" := MBool true]> (meta r)) !! key = meta r !! key).
    { intros key H1 H2. rewrite !lookup_insert_ne by congruence. reflexivity. }
    unfold the_req, the_url. simpl.
    destruct (String.eqb (url r) "") eqn:Hurl; simpl;
      (split; [repeat split; exact Hmark|]);
      (split; right; repeat split;
       first [ exact Hrsc | exact Hheader | apply JSFacts.get_set_eq
             | apply lookup_insert_eq | apply String.eqb_eq; exact Hurl ]).
  - destruct (matching (rsc (normalizers this)) p) as [n|].
    + unfold mark_data_request, bind, gets, modify_parsedURL, modify_req, set_header,
        modify_query, modify_parsedURL, modify_req, modify, when. simpl.
      assert (Hmark : forall key : string,
                key <> "isRSCRequest" -> key <> "isPrefetchRSCRequest" ->
                <["isRSCRequest" := MBool true]> (meta r) !! key = meta r !! key).
      { intros key H1 H2. rewrite lookup_insert_ne by congruence. reflexivity. }
      unfold the_req, the_url. simpl.
      destruct (String.eqb (url r) "") eqn:Hurl; simpl;
        (split; [repeat split; exact Hmark|]);
        (split; [right; repeat split;
                 first [ apply lookup_insert_eq | apply JSFacts.get_set_eq
                       | apply String.eqb_eq; exact Hurl ]
                | left; rewrite lookup_insert_ne by discriminate; reflexivity]).
    + simpl. split; [repeat split|]. split; [left; repeat split | left; reflexivity].
Qed.

Lemma replace_index_not_index (u : string) :
  is_index_url u = true -> is_index_url (replace_index u) = false.
Proof.
  unfold is_index_url. intros H. apply orb_true_iff in H as [H|H].
  - apply String.eqb_eq in H. subst u. reflexivity.
  - apply String.prefix_correct in H. simpl in H.
    do 7 (destruct u as [|? u]; simpl in H; [discriminate H|]; injection H as -> H).
    reflexivity.
Qed.

(** X11.  The [/index] normalisation of lines 205-213 always returns and is
    idempotent; with the app directory its result has neither the pathname
    [/index] nor a [req.url] that is [/index] or starts with [/index?];
    and it touches nothing but [req.url] and the pathname. *)
Theorem normalize_index_idempotent (s : State) :
  exists s',
    normalize_index this s = Returned tt s'
    /\ normalize_index this s' = Returned tt s'
    /\ (Collab.app (enabledDirectories this) = true ->
        pathname (the_url s') <> Some "/index"
        /\ is_index_url (url (the_req s')) = false)
    /\ same_request s s'
    /\ query (the_url s') = query (the_url s).
Proof.
  destruct s as [[r [p q]] l]. unfold normalize_index, when.
  destruct (Collab.app (enabledDirectories this)).
  2:{ eexists. split; [reflexivity|]. split; [reflexivity|].
      split; [discriminate|]. split; [repeat split | reflexivity]. }
  unfold bind, gets, modify_req, modify_parsedURL, modify, the_req, the_url. simpl.
  destruct p as [p|]; [destruct (String.eqb p "/index") eqn:E|];
    (destruct (is_index_url (url r)) eqn:Hu;
     [pose proof (replace_index_not_index _ Hu) as Hu'|]);
    simpl; eexists; (split; [reflexivity|]);
    unfold with_env, with_req, with_parsedURL, set_url, set_pathname; simpl;
    rewrite ?Hu', ?Hu, ?E; simpl; rewrite ?E; (split; [reflexivity|]);
    (split;
     [intros _; split;
      [first [discriminate | intros [= ->]; rewrite String.eqb_refl in E; discriminate E]
      |first [reflexivity | exact Hu' | exact Hu]]
     |]);
    (split; [repeat split | reflexivity]).
Qed.


Lemma marking_parsedURL (f : NextUrlWithParsedQuery -> NextUrlWithParsedQuery) :
  preserves Footprint.marking (modify_parsedURL f).
Proof. intros s. repeat split. Qed.

Lemma marking_url (u : string) : preserves Footprint.marking (modify_req (set_url u)).
Proof. intros s. repeat split. Qed.

Lemma any_modify (f : State -> State) : preserves Footprint.any (modify f).
Proof. intros s. exact Logic.I. Qed.

(** Lines 184-195. *)
Lemma check_invariants_cases (s : State) :
  (check_invariants s = Threw Footprint.missing_matched_path s
   /\ forall h, headers (the_req s) !! "x-matched-path" = Some (HString h) -> h = "")
  \/ (check_invariants s = Threw Footprint.missing_pathname s
      /\ str_truthy (pathname (the_url s)) = false)
  \/ (check_invariants s = Returned tt s
      /\ str_truthy (pathname (the_url s)) = true).
Proof.
  unfold check_invariants, bind, header, gets.
  destruct (headers (the_req s) !! "x-matched-path") as [[h|hs]|] eqn:Hh.
  - destruct (String.eqb h "") eqn:He.
    + left. split; [reflexivity|]. intros h' [= <-]. now apply String.eqb_eq.
    + destruct (str_truthy (pathname (the_url s))) eqn:Hp; simpl.
      * right; right. split; reflexivity.
      * right; left. split; reflexivity.
  - left. split; [reflexivity | discriminate].
  - left. split; [reflexivity | discriminate].
Qed.

(** Lines 197-199. *)
Lemma strip_base_path_returns (s : State) :
  returns (strip_base_path this) s
    (fun _ s' => Footprint.marking s s' /\ the_url s' = the_url s).
Proof.
  unfold returns, strip_base_path.
  destruct (basePath (normalizers this)); simpl; repeat split.
Qed.

(** Lines 129-178, for a pathname that is not empty. *)
Lemma attach_rsc_marking (s : State) :
  str_truthy (pathname (the_url s)) = true ->
  returns (attachRSCRequestMetadata I this) s (fun _ s' => Footprint.marking s s').
Proof.
  intros Hp. destruct s as [[r [p q]] l]. unfold the_url in Hp. simpl in Hp.
  destruct p as [p|]; [|discriminate]. simpl in Hp. apply negb_true_iff in Hp.
  unfold returns, attachRSCRequestMetadata, bind, gets. simpl. rewrite Hp.
  unfold the_req, the_url. simpl.
  destruct (Collab.app (enabledDirectories this)); simpl; [|repeat split].
  destruct (matching (prefetchRSC (normalizers this)) p) as [n|];
    [|destruct (matching (rsc (normalizers this)) p) as [n|]];
    unfold mark_data_request, bind, gets, modify_parsedURL, modify_req, set_header,
      modify_query, modify_parsedURL, modify_req, modify, when; simpl;
    unfold the_req, the_url; simpl;
    try (destruct (String.eqb (url r) ""); simpl);
    repeat split; intros key H1 H2; unfold the_req; simpl;
    rewrite ?lookup_insert_ne by congruence; reflexivity.
Qed.

(** Lines 205-213. *)
Lemma normalize_index_marking : preserves Footprint.marking (normalize_index this).
Proof.
  unfold normalize_index.
  steps_with ltac:(first [apply marking_parsedURL | apply marking_url]).
Qed.

(** Lines 217-222. *)
Lemma extract_pathnames_cases (s : State) :
  (extract_pathnames B s = Threw ThrowTypeError s
   /\ (URL_pathname B (header_text (headers (the_req s) !! "x-matched-path")) = None
       \/ URL_pathname B (url (the_req s)) = None))
  \/ exists matchedPath urlPathname,
       extract_pathnames B s = Returned (matchedPath, urlPathname) s.
Proof.
  unfold extract_pathnames, bind, header, gets.
  destruct (URL_pathname B (header_text (headers (the_req s) !! "x-matched-path")))
    as [matchedPath|] eqn:Hm; simpl.
  - destruct (URL_pathname B (url (the_req s))) as [urlPathname|] eqn:Hu; simpl.
    + right. eauto.
    + left. split; [reflexivity | now right].
  - left. split; [reflexivity | now left].
Qed.

(** Lines 224-254. *)
Lemma mark_data_or_postponed_resuming (matchedPath urlPathname : string) (s : State) :
  returns (mark_data_or_postponed B this matchedPath urlPathname) s
    (fun _ s' => Footprint.resuming s s').
Proof.
  destruct s as [[r [p q]] l].
  unfold returns, mark_data_or_postponed, read_postponed, bind, gets, header, modify_req,
    modify_query, modify_parsedURL, modify, the_req, the_url. simpl.
  destruct (matching (data (normalizers this)) urlPathname); simpl;
    [|destruct (matching (postponed (normalizers this)) matchedPath); simpl;
      [destruct (String.eqb (method r) "POST"); simpl;
       [destruct (header_truthy (headers r !! "x-now-route-matches")); simpl|]|]];
    unfold Footprint.resuming, the_req, the_url; simpl;
    repeat split; try (now left); try (now right);
    intros key Hkey; rewrite ?lookup_insert_ne by congruence; reflexivity.
Qed.

(** From line 256 on, the method, the headers and the body are left
    alone. *)
Lemma adapt_resolve_transport_kept (i18n : option Collab.LocaleAnalysisResult)
      (matchedPath urlPathname : string) :
  preserves Footprint.same_transport (adapt_resolve I this i18n matchedPath urlPathname).
Proof.
  assert (Hpu : forall f, preserves Footprint.same_transport (modify_parsedURL f))
    by (intros f s; repeat split).
  assert (Hurl : forall u, preserves Footprint.same_transport (modify_req (set_url u)))
    by (intros u s; repeat split).
  unfold adapt_resolve, default_locale, resolve_source, matchers_match, adapt_rewrites,
    apply_rewrites.
  steps_with ltac:(first [ apply Hpu | apply Hurl
                         | apply MinimalFacts.frame_apply_locale
                         | apply MinimalFacts.frame_prefix_default_locale
                         | apply MinimalFacts.frame_adapt_params ]);
    try typeclasses eauto; try assumption; intros st; repeat split.
Qed.

(** From line 256 on, the route matcher is queried once at most. *)
Lemma adapt_resolve_lookups (i18n : option Collab.LocaleAnalysisResult)
      (matchedPath urlPathname : string) (s : State) :
  returns (adapt_resolve I this i18n matchedPath urlPathname) s
    (fun _ s' => exists more, lookups s' = (lookups s ++ more)%list /\ List.length more <= 1).
Proof.
  unfold adapt_resolve.
  apply EffFacts.returns_bind. apply EffFacts.returns_gets.
  apply EffFacts.returns_bind.
  eapply (EffFacts.returns_preserves same_lookups);
    [apply MinimalFacts.frame_apply_locale;
     first [ typeclasses eauto
           | intros; apply MinimalFacts.same_lookups_parsedURL
           | intros; apply MinimalFacts.same_lookups_req ]|].
  intros _ s1 H1. apply EffFacts.returns_bind.
  match goal with
  | |- returns (resolve_source I this ?c _) _ _ =>
      destruct (Collab.isDynamicRoute I c) eqn:Hdyn
  end.
  - eapply EffFacts.returns_eq; [apply MinimalFacts.resolve_source_dynamic, Hdyn|].
    eapply (EffFacts.returns_preserves same_lookups);
      [apply MinimalFacts.same_lookups_adapt_rewrites|].
    intros _ s2 H2. exists []. unfold same_lookups in *. rewrite H2, H1, app_nil_r.
    split; [reflexivity | simpl; lia].
  - eapply EffFacts.returns_eq; [apply MinimalFacts.resolve_source_static, Hdyn|].
    match goal with
    | |- context [match ?m with Some _ => _ | None => _ end] => destruct m
    end;
      (eapply (EffFacts.returns_preserves same_lookups);
       [apply MinimalFacts.same_lookups_adapt_rewrites|];
       intros _ s2 H2; unfold same_lookups in *; rewrite H2; simpl; rewrite H1;
       eexists; split; [reflexivity | simpl; lia]).
Qed.

(** What lines 256-457 may change. *)
Lemma adapt_resolve_returns (i18n : option Collab.LocaleAnalysisResult)
      (matchedPath urlPathname : string) (s : State) :
  exists s',
    adapt_resolve I this i18n matchedPath urlPathname s = Returned tt s'
    /\ Footprint.same_transport s s'
    /\ (forall key, key <> "rewroteURL" ->
                    meta (the_req s') !! key = meta (the_req s) !! key)
    /\ exists more, lookups s' = (lookups s ++ more)%list /\ List.length more <= 1.
Proof.
  destruct (returns_inv _ _ _
              (returns_conj _ _ _ _
                 (adapt_resolve_transport_kept i18n matchedPath urlPathname s)
                 (adapt_resolve_lookups i18n matchedPath urlPathname s)))
    as ([] & s' & Hrun & Ht & Hl).
  exists s'. split; [exact Hrun|]. split; [exact Ht|]. split; [|exact Hl].
  intros key Hkey.
  pose proof (MinimalFacts.same_meta_adapt_resolve I this key i18n matchedPath urlPathname
                Hkey s) as Hmeta.
  unfold returns in Hmeta. rewrite Hrun in Hmeta. exact Hmeta.
Qed.

(** The course of [adapt]: one of the two invariant errors before anything
    is changed; or the marking of lines 197-213 followed either by the
    TypeError of [new URL] or by lines 224-457. *)
Lemma adapt_run (s : State) :
  (adapt B I this s = Threw Footprint.missing_matched_path s
   /\ forall h, headers (the_req s) !! "x-matched-path" = Some (HString h) -> h = "")
  \/ (adapt B I this s = Threw Footprint.missing_pathname s
      /\ str_truthy (pathname (the_url s)) = false)
  \/ exists s3,
       Footprint.marking s s3
       /\ ((adapt B I this s = Threw ThrowTypeError s3
            /\ (URL_pathname B (header_text (headers (the_req s3) !! "x-matched-path")) = None
                \/ URL_pathname B (url (the_req s3)) = None))
           \/ exists i18n matchedPath urlPathname s4,
                Footprint.resuming s3 s4
                /\ adapt B I this s
                   = adapt_resolve I this i18n matchedPath urlPathname s4).
Proof.
  destruct (check_invariants_cases s) as [[Hc Hh] | [[Hc Hp] | [Hc Hp]]].
  - left. split; [apply EffFacts.bind_threw, Hc | exact Hh].
  - right; left. split; [apply EffFacts.bind_threw, Hc | exact Hp].
  - right; right.
    destruct (returns_inv _ _ _ (strip_base_path_returns s)) as ([] & s1 & Hs1 & Hm1 & Hu1).
    rewrite <- Hu1 in Hp.
    destruct (returns_inv _ _ _ (attach_rsc_marking s1 Hp)) as ([] & s2 & Hs2 & Hm2).
    destruct (returns_inv _ _ _ (normalize_index_marking s2)) as ([] & s3 & Hs3 & Hm3).
    exists s3. split; [transitivity s1; [exact Hm1 | transitivity s2; assumption]|].
    assert (Hrun : exists i18n,
               adapt B I this s
               = bind (extract_matched_path B this)
                   (fun pathnames => let '(matchedPath, urlPathname) := pathnames in
                                     adapt_resolve I this i18n matchedPath urlPathname) s3).
    { eexists. unfold adapt.
      erewrite EffFacts.bind_returned by exact Hc.
      erewrite EffFacts.bind_returned by exact Hs1.
      erewrite EffFacts.bind_returned by (unfold analyze_pathname, gets; reflexivity).
      erewrite EffFacts.bind_returned by exact Hs2.
      erewrite EffFacts.bind_returned by exact Hs3.
      reflexivity. }
    destruct Hrun as [i18n Hrun]. rewrite Hrun.
    destruct (extract_pathnames_cases s3) as [[He Hnone] | (matchedPath & urlPathname & He)].
    + left. split; [|exact Hnone].
      apply EffFacts.bind_threw. unfold extract_matched_path.
      apply EffFacts.bind_threw. exact He.
    + right.
      destruct (returns_inv _ _ _ (mark_data_or_postponed_resuming matchedPath urlPathname s3))
        as (urlPathname' & s4 & Hs4 & Hr4).
      exists i18n, matchedPath, urlPathname', s4. split; [exact Hr4|].
      assert (Hx : extract_matched_path B this s3
                   = Returned (matchedPath, urlPathname') s4).
      { unfold extract_matched_path.
        erewrite EffFacts.bind_returned by exact He. cbn iota beta.
        erewrite EffFacts.bind_returned by exact Hs4. reflexivity. }
      erewrite EffFacts.bind_returned by exact Hx. reflexivity.
Qed.

(** X12.  What [adapt] throws of its own.  Provided that the imported
    functions and the body stream return (the real rewrite engine, for one,
    can throw a TypeError at line 339, after the route matcher was queried:
    such a run is outside the model and the theorem says nothing of it),
    [adapt] throws nothing but the two invariant errors of lines 188 and
    194, both before it has changed anything, and the TypeError of
    [new URL] (lines 217-222), which leaves the request as lines 197-213
    marked it: never an [InvokeError], never the invariant of
    [attachRSCRequestMetadata], and nothing at all from line 224 on.  Under
    the same proviso, an exception is thrown before the route matcher is
    queried, before the body is read and before a [postponed] or
    [rewroteURL] entry is written. *)
Theorem adapt_throws (s s' : State) (e : Exception) :
  adapt B I this s = Threw e s' ->
  (e = Footprint.missing_matched_path /\ s' = s
   /\ forall h, headers (the_req s) !! "x-matched-path" = Some (HString h) -> h = "")
  \/ (e = Footprint.missing_pathname /\ s' = s
      /\ str_truthy (pathname (the_url s)) = false)
  \/ (e = ThrowTypeError /\ Footprint.marking s s'
      /\ (URL_pathname B (header_text (headers (the_req s') !! "x-matched-path")) = None
          \/ URL_pathname B (url (the_req s')) = None)).
Proof.
  intros H.
  destruct (adapt_run s)
    as [[Ha Hh] | [[Ha Hp] | (s3 & Hm & [[Ha Hnone]
                                        | (i18n & matchedPath & urlPathname & s4 & Hr & Ha)])]];
    rewrite Ha in H.
  - injection H as <- <-. left. auto.
  - injection H as <- <-. right; left. auto.
  - injection H as <- <-. right; right. auto.
  - destruct (adapt_resolve_returns i18n matchedPath urlPathname s4) as (s5 & Hs5 & _).
    rewrite Hs5 in H. discriminate.
Qed.

(** X13.  What a run of [adapt] may change beside [req.url], the headers
    and the parsed URL, whether it returns or throws: it never changes the
    method; it leaves the body as it was or empties it; it leaves every
    metadata entry alone except [isRSCRequest], [isPrefetchRSCRequest],
    [postponed] and [rewroteURL]; and it queries the route matcher once at
    most.  (The imported functions are taken with the effects their call
    sites rely on: the rewrite engine changes the parsed URL only and
    [normalizeVercelUrl] changes [req.url] only.) *)
Theorem adapt_footprint (s : State) :
  Footprint.within s (final_state (adapt B I this s)).
Proof.
  assert (Hsame : forall s1, Footprint.marking s s1 -> Footprint.within s s1).
  { intros s1 (Hl & Hm & Hb & Hk). split; [exact Hm|]. split; [now left|].
    split.
    - intros key Hin. apply Hk; intros ->; apply Hin; simpl; auto.
    - exists []. rewrite app_nil_r. split; [exact Hl | simpl; lia]. }
  destruct (adapt_run s)
    as [[Ha Hh] | [[Ha Hp] | (s3 & Hm & [[Ha Hnone]
                                        | (i18n & matchedPath & urlPathname & s4 & Hr & Ha)])]];
    rewrite Ha; simpl.
  - apply Hsame. reflexivity.
  - apply Hsame. reflexivity.
  - apply Hsame, Hm.
  - destruct (adapt_resolve_returns i18n matchedPath urlPathname s4)
      as (s5 & Hs5 & (Hm5 & Hh5 & Hb5) & Hk5 & more & Hl5 & Hlen).
    rewrite Hs5. simpl.
    destruct Hm as (Hl3 & Hm3 & Hb3 & Hk3).
    destruct Hr as (Hl4 & Hm4 & Hh4 & Hu4 & Hp4 & Hb4 & Hk4).
    split; [congruence|].
    split; [destruct Hb4 as [Hb4|Hb4]; [left | right]; congruence|].
    split.
    + intros key Hin.
      rewrite Hk5 by (intros ->; apply Hin; simpl; auto).
      rewrite Hk4 by (intros ->; apply Hin; simpl; auto).
      apply Hk3; intros ->; apply Hin; simpl; auto.
    + exists more. split; [congruence | exact Hlen].
Qed.


(** Lines 446-457. *)
Lemma ensure_locale_returned (i18n : option Collab.LocaleAnalysisResult)
      (d : option string) (s : State) :
  ensure_locale i18n d s
  = Returned tt
      (with_env (with_parsedURL
         (fun u => set_query (Footprint.with_locale i18n d (query u)) u)) s).
Proof.
  destruct s as [[r [p q]] l].
  unfold ensure_locale, Footprint.with_locale, bind, gets, when, modify_query,
    modify_parsedURL, modify, the_url, with_env, with_parsedURL, set_query. simpl.
  destruct (JS.truthy (JS.get "__nextLocale" q)); simpl; [reflexivity|].
  destruct (str_truthy (detected i18n)); [reflexivity|].
  destruct (str_truthy d); reflexivity.
Qed.

(** Lines 433-457. *)
Lemma finish_returned (utils : Collab.Utils) (pageIsDynamic didRewrite : bool)
      (rewriteParamKeys routeParamKeys : list string) (matchedPath : string)
      (i18n : option Collab.LocaleAnalysisResult) (d : option string) (s : State) :
  finish utils pageIsDynamic didRewrite rewriteParamKeys routeParamKeys matchedPath i18n d s
  = Returned tt
      {| env :=
           {| req := Footprint.with_vercel_url utils pageIsDynamic didRewrite
                       rewriteParamKeys (the_req s);
              parsedURL :=
                {| pathname := Some matchedPath;
                   query := Footprint.with_locale i18n d
                              (fold_left (fun q key => JS.delete key q) routeParamKeys
                                 (query (the_url s))) |} |};
         lookups := lookups s |}.
Proof.
  destruct s as [[r [p q]] l]. unfold finish.
  assert (H1 : when (pageIsDynamic || didRewrite)
                 (r0 <- gets the_req ;;
                  modify_req (set_url
                    (Collab.normalizeVercelUrl utils r0 true
                       (rewriteParamKeys ++
                        match Collab.defaultRouteRegex_groups utils with
                        | Some groups => groups
                        | None => []
                        end))))%eff
                 {| env := {| req := r; parsedURL := {| pathname := p; query := q |} |};
                    lookups := l |}
               = Returned tt
                   {| env := {| req := Footprint.with_vercel_url utils pageIsDynamic didRewrite
                                         rewriteParamKeys r;
                                parsedURL := {| pathname := p; query := q |} |};
                      lookups := l |}).
  { unfold when, Footprint.with_vercel_url. destruct (pageIsDynamic || didRewrite); reflexivity. }
  erewrite EffFacts.bind_returned by exact H1.
  erewrite EffFacts.bind_returned by apply LocaleFacts.delete_route_param_keys.
  erewrite EffFacts.bind_returned by reflexivity.
  rewrite ensure_locale_returned. reflexivity.
Qed.

Lemma with_locale_truthy (i18n : option Collab.LocaleAnalysisResult) (d : option string)
      (q : JS.Object) :
  str_truthy d || str_truthy (detected i18n) = true ->
  JS.truthy (JS.get "__nextLocale" (Footprint.with_locale i18n d q)) = true.
Proof.
  intros H. unfold Footprint.with_locale.
  destruct (JS.truthy (JS.get "__nextLocale" q)) eqn:Hq; [exact Hq|].
  destruct (str_truthy (detected i18n)) eqn:Hi.
  - rewrite JSFacts.get_set_eq. destruct (detected i18n); [exact Hi | discriminate].
  - rewrite orb_false_r in H. rewrite H.
    rewrite JSFacts.get_set_ne by discriminate. rewrite JSFacts.get_set_eq.
    destruct d; [exact H | discriminate].
Qed.

Lemma with_locale_has (i18n : option Collab.LocaleAnalysisResult) (d : option string)
      (q : JS.Object) (k : string) :
  ~ locale_key k -> JS.has k (Footprint.with_locale i18n d q) = JS.has k q.
Proof.
  intros Hk. unfold Footprint.with_locale.
  assert (H1 : k <> "__nextLocale") by (intros ->; apply Hk; now left).
  assert (H2 : k <> "__nextInferredLocaleFromDefault") by (intros ->; apply Hk; now right).
  destruct (JS.truthy (JS.get "__nextLocale" q)); [reflexivity|].
  destruct (str_truthy (detected i18n)); [now apply JSFacts.has_set_ne|].
  destruct (str_truthy d); [|reflexivity].
  rewrite JSFacts.has_set_ne by exact H2. now apply JSFacts.has_set_ne.
Qed.

Lemma any_parsedURL (f : NextUrlWithParsedQuery -> NextUrlWithParsedQuery) :
  preserves Footprint.any (modify_parsedURL f).
Proof. apply any_modify. Qed.

Lemma any_req (f : BaseNextRequest -> BaseNextRequest) :
  preserves Footprint.any (modify_req f).
Proof. apply any_modify. Qed.

(** The path that lines 361-431 return. *)
Lemma interpolate_params_path (utils : Collab.Utils) (pageIsDynamic : bool)
      (srcPathname normalizedUrlPath matchedPath : string) (s : State) :
  returns (interpolate_params I utils pageIsDynamic srcPathname normalizedUrlPath matchedPath) s
    (fun matchedPath' _ =>
       if pageIsDynamic
       then exists params,
              matchedPath' = Collab.interpolateDynamicPath utils srcPathname params
       else matchedPath' = matchedPath).
Proof.
  unfold interpolate_params.
  destruct pageIsDynamic; [|apply EffFacts.returns_ret; reflexivity].
  apply EffFacts.returns_bind, EffFacts.returns_gets.
  apply EffFacts.returns_bind, EffFacts.returns_modify.
  apply EffFacts.returns_bind.
  eapply (EffFacts.returns_preserves Footprint.any);
    [apply MinimalFacts.frame_params_from_route_matches;
     first [ typeclasses eauto | intros; apply any_parsedURL | intros; apply any_req ]|].
  intros [paramsResult params] s1 _. cbn iota beta.
  apply EffFacts.returns_bind, EffFacts.returns_gets.
  apply EffFacts.returns_bind, EffFacts.returns_modify, EffFacts.returns_ret.
  eexists. reflexivity.
Qed.

(** Lines 319-457 end with lines 433-457, run on the path that lines
    361-431 return. *)
Lemma adapt_rewrites_ends (i18n : option Collab.LocaleAnalysisResult) (d : option string)
      (normalizedUrlPath matchedPath srcPathname : string) (pageIsDynamic : bool)
      (Q : State -> Prop) (s : State) :
  (forall didRewrite rewriteParamKeys routeParamKeys matchedPath' s1,
      (if pageIsDynamic
       then exists params,
              matchedPath' = Collab.interpolateDynamicPath
                               (get_utils I this pageIsDynamic srcPathname) srcPathname params
       else matchedPath' = matchedPath) ->
      Q {| env :=
             {| req := Footprint.with_vercel_url (get_utils I this pageIsDynamic srcPathname)
                         pageIsDynamic didRewrite rewriteParamKeys (the_req s1);
                parsedURL :=
                  {| pathname := Some matchedPath';
                     query := Footprint.with_locale i18n d
                                (fold_left (fun q key => JS.delete key q) routeParamKeys
                                   (query (the_url s1))) |} |};
           lookups := lookups s1 |}) ->
  returns (adapt_rewrites I this i18n d normalizedUrlPath matchedPath srcPathname
             pageIsDynamic) s
    (fun _ s' => Q s').
Proof.
  intros HQ. unfold adapt_rewrites.
  apply EffFacts.returns_bind.
  eapply EffFacts.returns_eq; [apply RewriteFacts.prefix_default_locale_returned|].
  apply EffFacts.returns_bind.
  eapply EffFacts.returns_mono; [apply RewriteFacts.apply_rewrites_meta|].
  intros [rewriteParamKeys didRewrite] s1 _. cbn iota beta. unfold adapt_params.
  apply EffFacts.returns_bind.
  eapply (EffFacts.returns_preserves Footprint.any);
    [apply MinimalFacts.frame_normalize_query_keys;
     first [ typeclasses eauto | intros; apply any_parsedURL | intros; apply any_req ]|].
  intros routeParamKeys s2 _. unfold adapt_interpolate.
  apply EffFacts.returns_bind.
  eapply EffFacts.returns_mono; [apply interpolate_params_path|].
  intros matchedPath' s3 Hpath. cbn beta in Hpath.
  eapply EffFacts.returns_eq; [apply finish_returned|].
  apply HQ, Hpath.
Qed.

(** Lines 256-457 end with lines 433-457, run with the default locale of
    lines 266-271. *)
Lemma adapt_resolve_ends (i18n : option Collab.LocaleAnalysisResult)
      (matchedPath urlPathname : string) (Q : State -> Prop) (s : State) :
  (forall utils pageIsDynamic didRewrite rewriteParamKeys routeParamKeys matchedPath' s1,
      Q {| env :=
             {| req := Footprint.with_vercel_url utils pageIsDynamic didRewrite
                         rewriteParamKeys (the_req s1);
                parsedURL :=
                  {| pathname := Some matchedPath';
                     query := Footprint.with_locale i18n (default_locale_of I this s)
                                (fold_left (fun q key => JS.delete key q) routeParamKeys
                                   (query (the_url s1))) |} |};
           lookups := lookups s1 |}) ->
  returns (adapt_resolve I this i18n matchedPath urlPathname) s (fun _ s' => Q s').
Proof.
  intros HQ. unfold adapt_resolve.
  apply EffFacts.returns_bind. unfold default_locale. apply EffFacts.returns_gets.
  apply EffFacts.returns_bind.
  eapply (EffFacts.returns_preserves Footprint.any);
    [apply MinimalFacts.frame_apply_locale;
     first [ typeclasses eauto | intros; apply any_parsedURL | intros; apply any_req ]|].
  intros _ s1 _. apply EffFacts.returns_bind.
  eapply (EffFacts.returns_preserves Footprint.any).
  { unfold resolve_source, matchers_match.
    steps_with ltac:(apply any_modify). }
  intros [srcPathname pageIsDynamic] s2 _. cbn iota beta.
  apply adapt_rewrites_ends. intros. apply HQ.
Qed.

(** X14.  Lines 256-457 always return (the imported functions being taken
    to return).  They leave the method, the headers and the body of the
    request alone, and they leave a parsed pathname that is a string, never
    [null]. *)
Theorem adapt_resolve_settles (i18n : option Collab.LocaleAnalysisResult)
        (matchedPath urlPathname : string) (s : State) :
  returns (adapt_resolve I this i18n matchedPath urlPathname) s
    (fun _ s' =>
       Footprint.same_transport s s'
       /\ exists p, pathname (the_url s') = Some p).
Proof.
  apply returns_conj.
  - apply adapt_resolve_transport_kept.
  - apply (adapt_resolve_ends i18n matchedPath urlPathname
             (fun s' => exists p, pathname (the_url s') = Some p)).
    intros. eexists. reflexivity.
Qed.

(** X15.  The query always ends with a locale when there is one to give:
    if the default locale of lines 266-271 or the locale that line 201
    detected in the parsed pathname is a non-empty string, then
    [__nextLocale] is truthy when lines 256-457 return, whatever the
    rewrites, the renamed query keys and the route parameters did to it. *)
Theorem locale_always_present (i18n : option Collab.LocaleAnalysisResult)
        (matchedPath urlPathname : string) (s : State) :
  str_truthy (default_locale_of I this s) || str_truthy (detected i18n) = true ->
  returns (adapt_resolve I this i18n matchedPath urlPathname) s
    (fun _ s' => JS.truthy (JS.get "__nextLocale" (query (the_url s'))) = true).
Proof.
  intros H.
  apply (adapt_resolve_ends i18n matchedPath urlPathname
           (fun s' => JS.truthy (JS.get "__nextLocale" (query (the_url s'))) = true)).
  intros. apply with_locale_truthy, H.
Qed.

(** X16.  The rewrites never decide the final pathname.  Whatever the
    rewrite engine does to the parsed URL, lines 319-457 end with the
    pathname set by line 444: the matched path they were given when the
    page is not dynamic, and the source page with its parameters
    interpolated when it is. *)
Theorem final_pathname (i18n : option Collab.LocaleAnalysisResult) (d : option string)
        (normalizedUrlPath matchedPath srcPathname : string) (pageIsDynamic : bool)
        (s : State) :
  returns (adapt_rewrites I this i18n d normalizedUrlPath matchedPath srcPathname
             pageIsDynamic) s
    (fun _ s' =>
       if pageIsDynamic
       then exists params,
              pathname (the_url s')
              = Some (Collab.interpolateDynamicPath
                        (get_utils I this pageIsDynamic srcPathname) srcPathname params)
       else pathname (the_url s') = Some matchedPath).
Proof.
  apply (adapt_rewrites_ends i18n d normalizedUrlPath matchedPath srcPathname pageIsDynamic
           (fun s' =>
              if pageIsDynamic
              then exists params,
                     pathname (the_url s')
                     = Some (Collab.interpolateDynamicPath
                               (get_utils I this pageIsDynamic srcPathname) srcPathname params)
              else pathname (the_url s') = Some matchedPath)).
  intros didRewrite rewriteParamKeys routeParamKeys matchedPath' s1 Hpath.
  destruct pageIsDynamic; simpl.
  - destruct Hpath as [params ->]. eexists. reflexivity.
  - now rewrite Hpath.
Qed.


Lemma set_add_keeps (k nk : string) (l : list string) : In k l -> In k (set_add nk l).
Proof.
  intros H. unfold set_add. destruct (existsb (String.eqb nk) l); [exact H|].
  apply in_or_app. now left.
Qed.

Lemma set_add_adds (nk : string) (l : list string) : In nk (set_add nk l).
Proof.
  unfold set_add. destruct (existsb (String.eqb nk) l) eqn:E.
  - apply existsb_exists in E as (x & Hx & Heq). apply String.eqb_eq in Heq. now subst x.
  - apply in_or_app. right. now left.
Qed.

Lemma has_delete_all_in (k : string) (keys : list string) (q : JS.Object) :
  In k keys -> JS.has k (fold_left (fun q key => JS.delete key q) keys q) = false.
Proof.
  revert q. induction keys as [|key keys IH]; intros q; simpl; [intros []|].
  intros [-> | H]; [|now apply IH].
  apply LocaleFacts.has_delete_all, JSFacts.has_delete_eq.
Qed.

(** The renaming of one key (the callback of lines 351-357, called for each
    normalized key): the tracked keys stay tracked, every normalized key is
    tracked, and a key that is absent from the query or tracked stays
    so. *)
Lemma rename_tracks (key : string) (value : JS.Value) (nks : list string)
      (q : JS.Object) (rpk : list string) :
  let st := fold_left (fun st normalizedKey =>
                         (JS.delete key (JS.set normalizedKey value (fst st)),
                          set_add normalizedKey (snd st))) nks (q, rpk) in
  (forall k, In k rpk -> In k (snd st))
  /\ (forall nk, In nk nks -> In nk (snd st))
  /\ (forall k, JS.has k q = false \/ In k rpk -> JS.has k (fst st) = false \/ In k (snd st))
  /\ (nks <> [] -> JS.has key (fst st) = false \/ In key (snd st)).
Proof.
  revert q rpk. induction nks as [|nk nks IH]; intros q rpk; simpl.
  - split; [auto|]. split; [intros nk []|]. split; [auto | congruence].
  - destruct (IH (JS.delete key (JS.set nk value q)) (set_add nk rpk)) as (Hm & Ha & Hb & _).
    assert (Hstep : forall k, JS.has k q = false \/ In k rpk ->
                              JS.has k (JS.delete key (JS.set nk value q)) = false
                              \/ In k (set_add nk rpk)).
    { intros k [Hk|Hk]; [|right; now apply set_add_keeps].
      destruct (String.eqb k nk) eqn:E.
      - apply String.eqb_eq in E. subst k. right. apply set_add_adds.
      - apply String.eqb_neq in E. left. apply LocaleFacts.has_delete.
        now rewrite JSFacts.has_set_ne. }
    split; [|split; [|split]].
    + intros k Hk. apply Hm, set_add_keeps, Hk.
    + intros k [<- | Hk]; [apply Hm, set_add_adds | now apply Ha].
    + intros k Hk. apply Hb, Hstep, Hk.
    + intros _. apply Hb. left. apply JSFacts.has_delete_eq.
Qed.

Lemma normalize_query_key_tracks (key : string) (q : JS.Object) (rpk : list string) :
  let st := normalize_query_key I key (q, rpk) in
  (forall k, In k rpk -> In k (snd st))
  /\ (forall nk, In nk (Collab.normalizeNextQueryParam I key) -> In nk (snd st))
  /\ (forall k, JS.has k q = false \/ In k rpk -> JS.has k (fst st) = false \/ In k (snd st))
  /\ (Collab.normalizeNextQueryParam I key <> [] ->
      JS.has key (fst st) = false \/ In key (snd st)).
Proof. unfold normalize_query_key. apply rename_tracks. Qed.

(** The loop of lines 348-358: every normalized key of every key is
    tracked, and every renamed key ends absent from the query or
    tracked. *)
Lemma normalize_query_keys_tracks (keys : list string) (q : JS.Object) (rpk : list string) :
  let st := fold_left (fun st key => normalize_query_key I key st) keys (q, rpk) in
  (forall k, In k rpk -> In k (snd st))
  /\ (forall k, JS.has k q = false \/ In k rpk -> JS.has k (fst st) = false \/ In k (snd st))
  /\ (forall key, In key keys ->
        (forall nk, In nk (Collab.normalizeNextQueryParam I key) -> In nk (snd st))
        /\ (Collab.normalizeNextQueryParam I key <> [] ->
            JS.has key (fst st) = false \/ In key (snd st))).
Proof.
  revert q rpk. induction keys as [|key keys IH]; intros q rpk; simpl.
  - split; [auto|]. split; [auto|]. intros key [].
  - destruct (normalize_query_key_tracks key q rpk) as (Hm & Ha & Hb & Hc).
    destruct (normalize_query_key I key (q, rpk)) as [q1 rpk1]. simpl in *.
    destruct (IH q1 rpk1) as (Hm' & Hb' & Hkeys).
    split; [|split].
    + intros k Hk. apply Hm', Hm, Hk.
    + intros k Hk. apply Hb', Hb, Hk.
    + intros key' [<- | Hin]; [|now apply Hkeys].
      split.
      * intros nk Hnk. apply Hm', Ha, Hnk.
      * intros Hne. apply Hb', Hc, Hne.
Qed.

Lemma has_keys (k : string) (o : JS.Object) : JS.has k o = true -> In k (JS.keys o).
Proof.
  intros Hhas. apply JSFacts.has_In in Hhas.
  apply (in_map_iff fst) in Hhas as ([k' v] & Hk & Hin). simpl in Hk. subst k'.
  eapply JSFacts.keys_complete, Hin.
Qed.

(** Lines 361-431 change the query only by deleting keys (line 364),
    storing a locale and dropping the inferred marker. *)
Lemma interpolate_params_query (utils : Collab.Utils) (pageIsDynamic : bool)
      (srcPathname normalizedUrlPath matchedPath : string) (s : State) :
  returns (interpolate_params I utils pageIsDynamic srcPathname normalizedUrlPath matchedPath) s
    (fun _ s' =>
       exists deleted,
         let q := delete_keys deleted (query (the_url s)) in
         query (the_url s') = q
         \/ exists locale,
              query (the_url s')
              = JS.delete "__nextInferredLocaleFromDefault" (JS.set "__nextLocale" locale q)).
Proof.
  unfold interpolate_params.
  destruct pageIsDynamic; [|apply EffFacts.returns_ret; exists []; now left].
  apply EffFacts.returns_bind, EffFacts.returns_gets.
  apply EffFacts.returns_bind, EffFacts.returns_modify.
  set (deleted := snd (Collab.normalizeDynamicRouteParams utils (query (the_url s)) None)).
  eapply EffFacts.returns_mono with
    (Q := fun _ s' =>
            let q := delete_keys deleted (query (the_url s)) in
            query (the_url s') = q
            \/ exists locale,
                 query (the_url s')
                 = JS.delete "__nextInferredLocaleFromDefault" (JS.set "__nextLocale" locale q));
    [|intros a s' H; exists deleted; exact H].
  clearbody deleted. destruct s as [[r [p q]] l].
  unfold with_env, with_parsedURL, set_query, the_url, the_req. simpl.
  set (q0 := delete_keys deleted q).
  apply EffFacts.returns_bind. unfold params_from_route_matches.
  apply EffFacts.returns_bind, EffFacts.returns_gets.
  match goal with |- returns (if ?c then _ else _) _ _ => destruct c end.
  - apply EffFacts.returns_bind, EffFacts.returns_gets.
    apply EffFacts.returns_bind, EffFacts.returns_gets.
    destruct (Collab.getParamsFromRouteMatches utils _ _) as [routeParams opts].
    apply EffFacts.returns_bind.
    destruct (JS.truthy (JS.get "locale" opts)).
    + apply EffFacts.returns_bind, EffFacts.returns_modify, EffFacts.returns_modify.
      apply EffFacts.returns_ret.
      apply EffFacts.returns_bind, EffFacts.returns_gets.
      apply EffFacts.returns_bind, EffFacts.returns_modify, EffFacts.returns_ret.
      right. eexists. reflexivity.
    + apply EffFacts.returns_ret. apply EffFacts.returns_ret.
      apply EffFacts.returns_bind, EffFacts.returns_gets.
      apply EffFacts.returns_bind, EffFacts.returns_modify, EffFacts.returns_ret.
      now left.
  - apply EffFacts.returns_ret.
    apply EffFacts.returns_bind, EffFacts.returns_gets.
    apply EffFacts.returns_bind, EffFacts.returns_modify, EffFacts.returns_ret.
    now left.
Qed.

(** X17.  A renamed query key never survives.  When the loop of lines
    348-358 renames a key of the query (the key has at least one
    normalized key), then at the end of lines 346-457 the query has
    neither the original key nor any of its normalized keys, whatever the
    parameter interpolation did in between; the only exceptions are the two
    locale keys, which lines 446-457 may write again. *)
Theorem renamed_keys_removed (utils : Collab.Utils)
        (i18n : option Collab.LocaleAnalysisResult) (d : option string)
        (normalizedUrlPath matchedPath srcPathname : string)
        (pageIsDynamic didRewrite : bool) (rewriteParamKeys : list string) (s : State) :
  returns (adapt_params I utils i18n d normalizedUrlPath matchedPath srcPathname
             pageIsDynamic didRewrite rewriteParamKeys) s
    (fun _ s' =>
       forall key,
         JS.has key (query (the_url s)) = true ->
         Collab.normalizeNextQueryParam I key <> [] ->
         (~ locale_key key -> JS.has key (query (the_url s')) = false)
         /\ (forall normalizedKey,
               In normalizedKey (Collab.normalizeNextQueryParam I key) ->
               ~ locale_key normalizedKey ->
               JS.has normalizedKey (query (the_url s')) = false)).
Proof.
  unfold adapt_params. apply EffFacts.returns_bind. unfold normalize_query_keys.
  apply EffFacts.returns_bind, EffFacts.returns_gets.
  destruct (normalize_query_keys_tracks (JS.keys (query (the_url s))) (query (the_url s)) [])
    as (_ & _ & Hkeys).
  destruct (fold_left _ _ _) as [q1 rpk]. simpl in Hkeys.
  apply EffFacts.returns_bind, EffFacts.returns_modify, EffFacts.returns_ret.
  unfold adapt_interpolate. apply EffFacts.returns_bind.
  eapply EffFacts.returns_mono; [apply interpolate_params_query|].
  intros matchedPath' s2 [deleted Hq2]. cbn zeta in Hq2.
  replace (query (the_url
                    (with_env (with_parsedURL (fun u => set_query ((fun _ => q1) (query u)) u)) s)))
    with q1 in Hq2 by (destruct s as [[r [p q]] l]; reflexivity).
  eapply EffFacts.returns_eq; [apply finish_returned|].
  intros key Hhas Hne. destruct (Hkeys key (has_keys _ _ Hhas)) as [Hnks Hkey].
  unfold the_url at 1 3. simpl. split.
  - intros Hlocale. rewrite with_locale_has by exact Hlocale.
    destruct (Hkey Hne) as [Habsent | Htracked]; [|now apply has_delete_all_in].
    apply LocaleFacts.has_delete_all.
    assert (Hdeleted : JS.has key (delete_keys deleted q1) = false)
      by (apply LocaleFacts.has_delete_all, Habsent).
    destruct Hq2 as [-> | [locale ->]]; [exact Hdeleted|].
    apply LocaleFacts.has_delete. rewrite JSFacts.has_set_ne; [exact Hdeleted|].
    intros ->. apply Hlocale. now left.
  - intros nk Hnk Hlocale. rewrite with_locale_has by exact Hlocale.
    apply has_delete_all_in, Hnks, Hnk.
Qed.

(** X18.  Valid parameters in the query win.  For a dynamic page whose
    parameters are all found in the query (the call of line 364 finds them
    valid), lines 361-431 interpolate these parameters into the source page
    and into [req.url]; the query loses the keys that the call of line 364
    deletes from it, and nothing else changes: the URL's own pathname, the
    [x-now-route-matches] header and the default route matches are not
    used, and the calls of lines 378 and 409 are not made.  (The imported
    functions are taken to return.) *)
Theorem query_params_win (utils : Collab.Utils)
        (srcPathname normalizedUrlPath matchedPath : string) (s : State) :
  let normalized := Collab.normalizeDynamicRouteParams utils (query (the_url s)) None in
  Collab.hasValidParams (fst normalized) = true ->
  let params := Collab.result_params (fst normalized) in
  interpolate_params I utils true srcPathname normalizedUrlPath matchedPath s
  = Returned (Collab.interpolateDynamicPath utils srcPathname params)
      {| env :=
           {| req := set_url (Collab.interpolateDynamicPath utils (url (the_req s)) params)
                       (the_req s);
              parsedURL :=
                set_query (delete_keys (snd normalized) (query (the_url s))) (the_url s) |};
         lookups := lookups s |}.
Proof.
  intros normalized Hvalid params. subst params normalized.
  unfold interpolate_params, params_from_query_or_url, params_from_route_matches, bind, gets,
    header, modify_req, modify_query, modify_parsedURL, modify.
  rewrite Hvalid. simpl. rewrite Hvalid, !andb_false_r. simpl.
  destruct s as [[r [p q]] l].
  destruct (Collab.defaultRouteMatches utils); rewrite ?Hvalid, ?andb_false_r; reflexivity.
Qed.

(** X19.  Lines 215-254 are silent otherwise: when the pathname of
    [req.url] is not a data request and either the pathname of the
    [x-matched-path] header is not a postponed path or the method is not
    exactly [POST], they return the two pathnames and change nothing, the
    body is not read and the query is not marked. *)
Theorem extraction_is_silent (s : State) (matchedPath urlPathname : string) :
  URL_pathname B (header_text (headers (the_req s) !! "x-matched-path")) = Some matchedPath ->
  URL_pathname B (url (the_req s)) = Some urlPathname ->
  matching (data (normalizers this)) urlPathname = None ->
  (matching (postponed (normalizers this)) matchedPath = None
   \/ method (the_req s) <> "POST") ->
  extract_matched_path B this s = Returned (matchedPath, urlPathname) s.
Proof.
  intros Hm Hu Hdata Hpost. unfold extract_matched_path.
  erewrite EffFacts.bind_returned
    by (apply (MinimalFacts.extract_pathnames_returned B); eassumption).
  cbn iota beta. unfold mark_data_or_postponed. rewrite Hdata.
  unfold bind, gets.
  destruct Hpost as [-> | Hmethod]; [reflexivity|].
  apply String.eqb_neq in Hmethod. rewrite Hmethod.
  destruct (matching (postponed (normalizers this)) matchedPath); reflexivity.
Qed.


Lemma has_set_same (k : string) (v : JS.Value) (o : JS.Object) :
  JS.has k (JS.set k v o) = true.
Proof.
  induction o as [|[k' v'] o IH]; simpl; [now rewrite String.eqb_refl|].
  destruct (String.eqb k k') eqn:E; simpl; rewrite ?E, ?String.eqb_refl; auto.
Qed.

Lemma has_delete_other (k k' : string) (o : JS.Object) :
  k <> k' -> JS.has k (JS.delete k' o) = JS.has k o.
Proof.
  intros Hne. induction o as [|[k2 v2] o IH]; simpl; [reflexivity|].
  destruct (String.eqb k' k2) eqn:E; simpl; rewrite IH; [|reflexivity].
  apply String.eqb_eq in E. subst k2.
  apply String.eqb_neq in Hne. now rewrite Hne.
Qed.

(** X20.  What lines 281-291 do to the query for a locale analysis.  The
    key [__nextLocale] is always created, with the detected locale or with
    [undefined] when none was detected; the key
    [__nextInferredLocaleFromDefault] is present afterwards exactly when
    the locale was inferred from the default, with the value ["1"], so a
    marker left by an earlier stage does not outlive an analysis that
    detected the locale; the other keys of the query, the pathname and the
    request are left alone. *)
Theorem apply_locale_marker (r : Collab.LocaleAnalysisResult) (s : State) :
  returns (apply_locale (Some r)) s
    (fun _ s' =>
       the_req s' = the_req s
       /\ pathname (the_url s') = pathname (the_url s)
       /\ lookups s' = lookups s
       /\ JS.has "__nextLocale" (query (the_url s')) = true
       /\ JS.get "__nextLocale" (query (the_url s'))
          = match Collab.detectedLocale r with
            | Some locale => JS.Str locale
            | None => JS.Undefined
            end
       /\ JS.has "__nextInferredLocaleFromDefault" (query (the_url s'))
          = Collab.inferredFromDefault r
       /\ (Collab.inferredFromDefault r = true ->
           JS.get "__nextInferredLocaleFromDefault" (query (the_url s')) = JS.Str "1")
       /\ forall k, ~ locale_key k ->
                    JS.get k (query (the_url s')) = JS.get k (query (the_url s))
                    /\ JS.has k (query (the_url s')) = JS.has k (query (the_url s))).
Proof.
  destruct s as [[rq [p q]] l].
  unfold returns, apply_locale, bind, modify_query, modify_parsedURL, modify, the_req, the_url.
  simpl.
  assert (Hk : forall k, ~ locale_key k ->
                 k <> "__nextLocale" /\ k <> "__nextInferredLocaleFromDefault").
  { intros k Hk. split; intros ->; apply Hk; [now left | now right]. }
  destruct (Collab.inferredFromDefault r); simpl.
  - split; [reflexivity|]. split; [reflexivity|]. split; [reflexivity|].
    split; [rewrite JSFacts.has_set_ne by discriminate; apply has_set_same|].
    split; [rewrite JSFacts.get_set_ne by discriminate; apply JSFacts.get_set_eq|].
    split; [apply has_set_same|].
    split; [intros _; apply JSFacts.get_set_eq|].
    intros k Hlocale. destruct (Hk k Hlocale) as [H1 H2].
    split.
    + rewrite !JSFacts.get_set_ne by assumption. reflexivity.
    + rewrite !JSFacts.has_set_ne by assumption. reflexivity.
  - split; [reflexivity|]. split; [reflexivity|]. split; [reflexivity|].
    split; [rewrite has_delete_other by discriminate; apply has_set_same|].
    split; [rewrite JSFacts.get_delete_ne by discriminate; apply JSFacts.get_set_eq|].
    split; [apply JSFacts.has_delete_eq|].
    split; [discriminate|].
    intros k Hlocale. destruct (Hk k Hlocale) as [H1 H2].
    split.
    + rewrite JSFacts.get_delete_ne, JSFacts.get_set_ne by assumption. reflexivity.
    + rewrite has_delete_other, JSFacts.has_set_ne by assumption. reflexivity.
Qed.

#[local] Instance same_req_kept : PreOrder (fun s s' : State => the_req s' = the_req s).
Proof. split; [intros s; reflexivity | intros s1 s2 s3 H1 H2; congruence]. Qed.

(** X21.  Lines 319-457 touch the request only for a dynamic page or after
    a rewrite: when the page is not dynamic and the rewrite engine leaves
    the pathname it was given, the request ([req.url], headers, body and
    metadata) is the same at the end, and no [rewroteURL] entry is
    written.  (The rewrite engine is taken to change the parsed URL
    only.) *)
Theorem request_untouched (i18n : option Collab.LocaleAnalysisResult) (d : option string)
        (normalizedUrlPath matchedPath srcPathname : string) (s : State) :
  let utils := get_utils I this false srcPathname in
  let given := prefixed_url d i18n (the_url s) in
  str_neq (pathname given) (pathname (fst (Collab.handleRewrites utils (the_req s) given)))
  = false ->
  returns (adapt_rewrites I this i18n d normalizedUrlPath matchedPath srcPathname false) s
    (fun _ s' => the_req s' = the_req s).
Proof.
  intros utils given Hsame. unfold adapt_rewrites. fold utils.
  apply EffFacts.returns_bind.
  eapply EffFacts.returns_eq; [apply RewriteFacts.prefix_default_locale_returned|].
  fold given.
  apply EffFacts.returns_bind.
  unfold apply_rewrites.
  apply EffFacts.returns_bind, EffFacts.returns_gets.
  apply EffFacts.returns_bind, EffFacts.returns_gets.
  apply EffFacts.returns_bind, EffFacts.returns_gets.
  unfold the_req, the_url in *. cbn [env req parsedURL] in *.
  destruct (Collab.handleRewrites utils (req (env s)) given) as [pu' rewriteParams] eqn:Hrw.
  cbn [fst] in Hsame.
  apply EffFacts.returns_bind, EffFacts.returns_modify.
  apply EffFacts.returns_bind. rewrite Hsame. cbn [andb when].
  apply EffFacts.returns_ret, EffFacts.returns_ret.
  unfold adapt_params.
  apply EffFacts.returns_bind.
  eapply (EffFacts.returns_preserves (fun s s' : State => the_req s' = the_req s)).
  { apply MinimalFacts.frame_normalize_query_keys;
      first [ typeclasses eauto | intros f st; reflexivity ]. }
  intros routeParamKeys s2 H2. unfold adapt_interpolate, interpolate_params.
  apply EffFacts.returns_bind, EffFacts.returns_ret.
  eapply EffFacts.returns_eq; [apply finish_returned|].
  unfold Footprint.with_vercel_url, the_req in *. cbn [orb env req]. exact H2.
Qed.

End Facts.

(** The prefetch of the fragment of [/about] on the sample site: the
    request is marked entirely. *)
Lemma attach_rsc_all_or_nothing_witness :
  returns (attachRSCRequestMetadata SampleSite.imports (SampleSite.adapter false []))
    MoreSamples.prefetch_request
    (fun _ s' =>
       Footprint.marking MoreSamples.prefetch_request s'
       /\ ((the_url s' = the_url MoreSamples.prefetch_request
            /\ url (the_req s') = url (the_req MoreSamples.prefetch_request)
            /\ meta (the_req s') = meta (the_req MoreSamples.prefetch_request))
           \/ (meta (the_req s') !! "isRSCRequest" = Some (MBool true)
               /\ headers (the_req s') !! "rsc" = Some (HString "1")
               /\ JS.get "__nextDataReq" (query (the_url s')) = JS.Str "1"
               /\ url (the_req s')
                  = if String.eqb (url (the_req MoreSamples.prefetch_request)) "" then ""
                    else Collab.url_with_pathname SampleSite.imports
                           (url (the_req MoreSamples.prefetch_request))
                           (pathname (the_url s'))))
       /\ (meta (the_req s') !! "isPrefetchRSCRequest"
           = meta (the_req MoreSamples.prefetch_request) !! "isPrefetchRSCRequest"
           \/ (meta (the_req s') !! "isPrefetchRSCRequest" = Some (MBool true)
               /\ meta (the_req s') !! "isRSCRequest" = Some (MBool true)
               /\ headers (the_req s') !! "next-router-prefetch" = Some (HString "1")))).
Proof.
  apply (attach_rsc_all_or_nothing SampleSite.imports (SampleSite.adapter false [])
           MoreSamples.prefetch_request).
  reflexivity.
Defined.

(** On the sample site, a matched path that [new URL] rejects makes [adapt]
    throw a TypeError. *)
Lemma adapt_throws_witness :
  let s' := final_state (SampleSite.run false [] MoreSamples.bad_matched_path) in
  (ThrowTypeError = Footprint.missing_matched_path /\ s' = MoreSamples.bad_matched_path
   /\ forall h,
        headers (the_req MoreSamples.bad_matched_path) !! "x-matched-path" = Some (HString h) ->
        h = "")
  \/ (ThrowTypeError = Footprint.missing_pathname /\ s' = MoreSamples.bad_matched_path
      /\ str_truthy (pathname (the_url MoreSamples.bad_matched_path)) = false)
  \/ (ThrowTypeError = ThrowTypeError /\ Footprint.marking MoreSamples.bad_matched_path s'
      /\ (SamplePlatform.URL_pathname
             (header_text (headers (the_req s') !! "x-matched-path")) = None
          \/ SamplePlatform.URL_pathname (url (the_req s')) = None)).
Proof.
  intros s'.
  apply (adapt_throws SamplePlatform.builtins SampleSite.imports (SampleSite.adapter false [])
           MoreSamples.bad_matched_path s' ThrowTypeError).
  vm_compute. reflexivity.
Defined.

(** On the sample site with locales, the page [/about] ends with a
    locale. *)
Lemma locale_always_present_witness :
  returns (adapt_resolve SampleSite.imports (SampleSite.adapter true []) None
             "/about" "/about")
    Samples.static_page
    (fun _ s' => JS.truthy (JS.get "__nextLocale" (query (the_url s'))) = true).
Proof.
  apply (locale_always_present SampleSite.imports (SampleSite.adapter true []) None
           "/about" "/about" Samples.static_page).
  reflexivity.
Defined.

(** On the sample site, the parameter [slug] of the query is used and the
    [x-now-route-matches] header is not read: the locale it carries is not
    stored. *)
Lemma query_params_win_witness :
  interpolate_params SampleSite.imports
    (get_utils SampleSite.imports (SampleSite.adapter false []) true "/blog/[slug]")
    true "/blog/[slug]" "/blog/[slug]" "/blog/[slug]"
    (Samples.route_matches [("slug", JS.Str "world")])
  = Returned "/blog/world"
      {| env :=
           {| req := set_url "/blog/world"
                       (the_req (Samples.route_matches [("slug", JS.Str "world")]));
              parsedURL := {| pathname := Some "/blog/[slug]";
                              query := [("slug", JS.Str "world")] |} |};
         lookups := [] |}.
Proof.
  apply (query_params_win SampleSite.imports
           (get_utils SampleSite.imports (SampleSite.adapter false []) true "/blog/[slug]")
           "/blog/[slug]" "/blog/[slug]" "/blog/[slug]"
           (Samples.route_matches [("slug", JS.Str "world")])).
  reflexivity.
Defined.

(** On the sample site, the static page [/about] is left as it is. *)
Lemma extraction_is_silent_witness :
  extract_matched_path SamplePlatform.builtins (SampleSite.adapter false [])
    Samples.static_page
  = Returned ("/about", "/about") Samples.static_page.
Proof.
  apply (extraction_is_silent SamplePlatform.builtins (SampleSite.adapter false [])
           Samples.static_page "/about" "/about").
  - reflexivity.
  - reflexivity.
  - reflexivity.
  - left. reflexivity.
Defined.

(** On the sample site without rules, lines 319-457 leave the request of
    the static page [/about] alone. *)
Lemma request_untouched_witness :
  returns (adapt_rewrites SampleSite.imports (SampleSite.adapter false []) None None
             "/about" "/about" "/about" false)
    Samples.static_page
    (fun _ s' => the_req s' = the_req Samples.static_page).
Proof.
  apply (request_untouched SampleSite.imports (SampleSite.adapter false []) None None
           "/about" "/about" "/about" Samples.static_page).
  reflexivity.
Defined.

End MinimalMore.
